(** * Layout engine of the report generators: cursor, page breaks, rows, tables

    A shallow embedding of the coordinate arithmetic of the PDF generators:
    [ensureSpace], [generateInformationLine],
    [generateInformationLineWithFixedHeight], [generateTaxInformationTable],
    [drawWideLeftTable] and [printKeyValueTable], over a small model of the
    rendering surface (the PDF document object the code draws on).

    Layout units are JavaScript numbers in the source; they are modelled by
    exact rationals ([Q]), compared with the numeric order and the numeric
    equality [==] the way [>] and [!==] compare numbers.

    The surface is the PDFKit document. Its [text] wraps the string into
    lines and, when a line does not fit above the bottom margin, continues
    on a new page by itself; the model follows it line by line. *)

From Stdlib Require Import QArith Qround Qminmax Qabs Lqa ZArith List String Bool Lia.
From Stdlib Require Import Ascii.
Import ListNotations.
Open Scope Q_scope.

(** Closed comparisons of rationals, by computation. *)
Ltac decide_numbers :=
  vm_compute; first [reflexivity | discriminate | intro; discriminate].

(** ** Constants of [constants.js] *)

Module Constants.
Definition leftMargin : Q := 20.
Definition rightMargin : Q := 20.
Definition tinNumber : string := "100 738 031".
Definition vrnNumber : string := "100 168 38A".
Definition taxOffice : string := "LARGE TAXPAYER".
Definition zBrnNumber : string := "Z025350886".
Definition zVrnNumber : string := "070 015 35S".
Definition vfdSerial : string := "10TZ100438".
End Constants.
Import Constants.

(** ** The rendering surface

    The document object: page geometry, the cursor [y], the current font,
    the listeners registered for the [pageAdded] event, the number of pages
    added so far and the drawing operations issued, in order. Every call of
    the layout code passes explicit coordinates; a text is logged by its
    call, where it is asked to be drawn, and the pages the surface starts
    while it wraps that text are logged right after the call. *)

Record Margins := mkMargins { top : Q; bottom : Q; left : Q; right : Q }.

Record Page := mkPage { width : Q; height : Q; margins : Margins }.

Inductive Align := AlignLeft | AlignRight | AlignCenter.

Inductive Op :=
| Rect (x y w h : Q)
| Text (fontName : string) (size : Q) (s : string) (x y w : Q) (a : Align)
| Line (x1 y1 x2 y2 : Q)
| NewPage.

(** The one listener the source registers with [doc.on("pageAdded", ...)]:
    redraw the page border and put the cursor at the top margin. *)
Inductive Listener := BorderAndResetY.

Record Doc := mkDoc {
  page : Page;
  y : Q;
  font : string;
  fontSize : Q;
  pageAdded : list Listener;
  pageCount : nat;
  log : list Op
}.

Definition withY (d : Doc) (v : Q) : Doc :=
  mkDoc (page d) v (font d) (fontSize d) (pageAdded d) (pageCount d) (log d).

Definition setFont (f : string) (d : Doc) : Doc :=
  mkDoc (page d) (y d) f (fontSize d) (pageAdded d) (pageCount d) (log d).

Definition setFontSize (s : Q) (d : Doc) : Doc :=
  mkDoc (page d) (y d) (font d) s (pageAdded d) (pageCount d) (log d).

Definition emit (o : Op) (d : Doc) : Doc :=
  mkDoc (page d) (y d) (font d) (fontSize d) (pageAdded d) (pageCount d)
        (log d ++ [o]).

(** [doc.page.height - doc.page.margins.bottom] *)
Definition pageBottom (p : Page) : Q := height p - bottom (margins p).

(** [doc.rect(x, y, w, h).stroke()] *)
Definition rect (x0 y0 w h : Q) (d : Doc) : Doc := emit (Rect x0 y0 w h) d.

(** [doc.moveTo(x1, y1).lineTo(x2, y2).stroke()] *)
Definition stroke (x1 y1 x2 y2 : Q) (d : Doc) : Doc := emit (Line x1 y1 x2 y2) d.

(** [drawLine(doc, y)]: a horizontal rule between the side margins. *)
Definition drawLine (d : Doc) (y0 : Q) : Doc :=
  stroke leftMargin y0 (width (page d) - rightMargin) y0 d.

(** [drawVerticalLine(doc, height, x, y)] *)
Definition drawVerticalLine (d : Doc) (h x0 y0 : Q) : Doc :=
  stroke x0 y0 x0 (y0 + h) d.

(** [drawPageBorder(doc)] *)
Definition drawPageBorder (d : Doc) : Doc :=
  let m := margins (page d) in
  rect (left m) (top m)
       (width (page d) - left m - right m)
       (height (page d) - top m - bottom m) d.

Definition runListener (d : Doc) (l : Listener) : Doc :=
  match l with
  | BorderAndResetY => withY (drawPageBorder d) (top (margins (page d)))
  end.

(** [doc.addPage()]: a new physical page of the same geometry; the surface
    puts the cursor at the top margin and fires [pageAdded]. *)
Definition addPage (d : Doc) : Doc :=
  let d1 := mkDoc (page d) (top (margins (page d))) (font d) (fontSize d)
                  (pageAdded d) (S (pageCount d)) (log d ++ [NewPage]) in
  fold_left runListener (pageAdded d) d1.

(** What the listeners draw on a fresh page. *)
Definition borderOp (p : Page) : Op :=
  let m := margins p in
  Rect (left m) (top m) (width p - left m - right m) (height p - top m - bottom m).

Definition listenerOps (p : Page) (ls : list Listener) : list Op :=
  map (fun _ => borderOp p) ls.

(** ** A concrete surface for the examples

    The A4 page of [exportReportToPDF] (margins 20, 20, 20 and 40 at the
    bottom) and a monospaced measure: a glyph is half the font size wide, a
    line 1.2 times the font size high, the empty string has no line. *)

Definition gridLineHeight (fontName : string) (size : Q) : Q := size * 1.2.

Definition gridLineCount (fontName : string) (size : Q) (s : string) (w : Q) : nat :=
  let chars := inject_Z (Z.of_nat (String.length s)) in
  Z.to_nat (Qceiling (chars * (size / 2) / w)).

Definition a4 : Page := mkPage 595.28 841.89 (mkMargins 20 40 20 20).

Definition reportDoc (y0 : Q) : Doc :=
  mkDoc a4 y0 "Lato" 10 [BorderAndResetY] 0 [].

Definition gridMeasure (fontName : string) (size : Q) (s : string) (w : Q) : Q :=
  let chars := inject_Z (Z.of_nat (String.length s)) in
  inject_Z (Qceiling (chars * (size / 2) / w)) * (size * 1.2).

Section Layout.

(** [doc.heightOfString(text, {width})]: the wrapped height of [text] in
    the current font and size, a capability of the surface. *)
Variable heightOfString : string -> Q -> string -> Q -> Q.

Definition measure (d : Doc) (s : string) (w : Q) : Q :=
  heightOfString (font d) (fontSize d) s w.

(** [doc.currentLineHeight(true)] in a font and size, and the number of
    lines the wrapper breaks a string into in a given width: capabilities
    of the surface as well. *)
Variable lineHeight : string -> Q -> Q.
Variable lineCount : string -> Q -> string -> Q -> nat.

(** The line wrapper of the surface: every line moves the cursor down by the
    line height; after every line but the last, if the next line would end
    below the bottom margin, the text continues on a new page
    ([continueOnNewPage], which is [addPage]). *)
Fixpoint wrapLines (n : nat) (lh : Q) (d : Doc) : Doc :=
  match n with
  | O => d
  | S n' =>
      let d := withY d (y d + lh) in
      match n' with
      | O => d
      | S _ =>
          wrapLines n' lh
            (if Qlt_le_dec (pageBottom (page d)) (y d + lh) then addPage d
             else d)
      end
  end.

(** [doc.text(s, x, y, {width, align})]: the cursor is put at [y]. The
    wrapper is used for a positive width only; any other width counts as
    none, and the text is drawn as it is, on the page it is on. With the
    wrapper, if the cursor is below the bottom margin, or the first line
    would end below it, a new page is started before anything is drawn;
    then the lines follow, in the current font. *)
Definition text (s : string) (x0 y0 w : Q) (a : Align) (d : Doc) : Doc :=
  let lh := lineHeight (font d) (fontSize d) in
  let n := lineCount (font d) (fontSize d) s w in
  let d := withY (emit (Text (font d) (fontSize d) s x0 y0 w a) d) y0 in
  if Qlt_le_dec 0 w then
    let d := if Qlt_le_dec (pageBottom (page d)) (y d) then addPage d
             else if Qlt_le_dec (pageBottom (page d)) (y d + lh) then addPage d
             else d in
    wrapLines n lh d
  else d.

(** [insideWidth(doc)] *)
Definition insideWidth (d : Doc) : Q :=
  width (page d) - (leftMargin + rightMargin + 10).

(** *** [ensureSpace(doc, neededHeight = 80)] *)
Definition ensureSpace (d : Doc) (neededHeight : option Q) : Doc :=
  let needed := match neededHeight with Some n => n | None => 80 end in
  let bottomY := pageBottom (page d) in
  if Qlt_le_dec bottomY (y d + needed) then
    if Qlt_le_dec (top (margins (page d)) + 1) (y d) then addPage d
    else d
  else d.


(** *** The row primitives of the receipt and the tax invoice *)

Definition minCellHeight : Q := 14.

(** The [text.reduce((max, current) => ...)] of the row primitives: the
    largest measured height, starting from 0. *)
Definition reduceMaxHeight (d : Doc) (texts : list string) (textWidth : Q) : Q :=
  fold_left
    (fun max current =>
       let height := measure d current textWidth in
       if Qlt_le_dec max height then height else max)
    texts 0.

(** The height a row gets when none is supplied:
    [Math.max(text.reduce(...), minCellHeight)]. *)
Definition computedRowHeight (d : Doc) (texts : list string) (textWidth : Q) : Q :=
  Qmax (reduceMaxHeight d texts textWidth) minCellHeight.

Definition ofNat (i : nat) : Q := inject_Z (Z.of_nat i).

(** The vertical position of one cell's text: [let y = valueFromTop;
    if (height !== rowH) y += (rowH - height) / 2 - 1]. *)
Definition cellTextY (valueFromTop rowH height : Q) : Q :=
  if Qeq_dec height rowH then valueFromTop
  else valueFromTop + ((rowH - height) / 2 - 1).

(** The first loop of both row primitives: the text of column [i], for the
    cells from index [i] on. *)
Fixpoint drawCells (cells : list string) (i : nat) (fontName : string)
         (width textWidth valueFromTop rowH : Q) (d : Doc) : Doc :=
  match cells with
  | [] => d
  | c :: rest =>
      let x0 := if Nat.eqb i 0 then leftMargin
                else leftMargin + width * ofNat i + 2.5 in
      let height := measure d c textWidth in
      let y0 := cellTextY valueFromTop rowH height in
      let d := text c x0 y0 textWidth AlignCenter
                    (setFontSize 9 (setFont fontName d)) in
      drawCells rest (S i) fontName width textWidth valueFromTop rowH d
  end.

(** The second loop: a vertical line at the left edge of every column but
    the first, from [beginningPoint] down over [endingPoint - beginningPoint]. *)
Definition drawSeparators (n : nat) (width beginningPoint endingPoint : Q)
           (d : Doc) : Doc :=
  fold_left
    (fun d i =>
       if Nat.eqb i 0 then d
       else drawVerticalLine d (endingPoint - beginningPoint)
                             (leftMargin + width * ofNat i) beginningPoint)
    (seq 0 n) d.

Definition fontOr (fontName : option string) : string :=
  match fontName with Some f => f | None => "Normal"%string end.

(** [generateInformationLine(doc, text, valueFromTop, beginningPoint, font)]
    returns the document and [[endingPoint + 5, endingPoint]]. *)
Definition generateInformationLine (d : Doc) (texts : list string)
           (valueFromTop beginningPoint : Q) (fontName : option string)
  : Doc * (Q * Q) :=
  let width := insideWidth d / 6 in
  let textWidth := width - 5 in
  let maxHeight := computedRowHeight d texts textWidth in
  let d := drawCells texts 0 (fontOr fontName) width textWidth valueFromTop
                     maxHeight d in
  let endingPoint := valueFromTop + maxHeight + 5 in
  let d := drawSeparators (List.length texts) width beginningPoint endingPoint d in
  let d := drawLine d endingPoint in
  (d, (endingPoint + 5, endingPoint)).

(** [generateInformationLineWithFixedHeight(doc, text, valueFromTop,
    beginningPoint, font, fixedHeight, columns = 6)]; the receipt's copy has
    no [columns] parameter and divides by 6. *)
Definition generateInformationLineWithFixedHeight (d : Doc) (texts : list string)
           (valueFromTop beginningPoint : Q) (fontName : option string)
           (fixedHeight : Q) (columns : option nat) : Doc * (Q * Q) :=
  let cols := match columns with Some c => c | None => 6%nat end in
  let width := insideWidth d / ofNat cols in
  let textWidth := width - 5 in
  let d := drawCells texts 0 (fontOr fontName) width textWidth valueFromTop
                     fixedHeight d in
  let endingPoint := valueFromTop + fixedHeight + 5 in
  let d := drawSeparators (List.length texts) width beginningPoint endingPoint d in
  let d := drawLine d endingPoint in
  (d, (endingPoint + 5, endingPoint)).

Definition labelTexts : list string :=
  ["TIN No"; "VRN"; "TAX OFFICE"; "Z BRN No"; "Z VRN"; "VFD SERIAL"]%string.

Definition valueTexts : list string :=
  [tinNumber; vrnNumber; taxOffice; zBrnNumber; zVrnNumber; vfdSerial].

(** The uniform cell height of the tax table: labels measured in the bold
    font, values in the regular one, each floored at [minCellHeight]. *)
Definition uniformCellHeight (d : Doc) : Q :=
  let width := insideWidth d / 6 in
  let textWidth := width - 5 in
  let d := setFontSize 9 (setFont "Title" d) in
  let labelHeight := Qmax (reduceMaxHeight d labelTexts textWidth) minCellHeight in
  let d := setFontSize 9 (setFont "Normal" d) in
  let valueHeight := Qmax (reduceMaxHeight d valueTexts textWidth) minCellHeight in
  Qmax labelHeight valueHeight.

(** [generateTaxInformationTable(doc, y)] *)
Definition generateTaxInformationTable (d : Doc) (y0 : Q) : Doc * Q :=
  let valueFromTop := y0 in
  let d := drawLine d valueFromTop in
  let beginningPoint := valueFromTop in
  let valueFromTop := valueFromTop + 8 in
  let h := uniformCellHeight d in
  let d := setFontSize 9 (setFont "Normal" d) in
  let '(d, (valueFromTop, beginningPoint)) :=
    generateInformationLineWithFixedHeight d labelTexts valueFromTop
      beginningPoint (Some "Title"%string) h None in
  let '(d, (valueFromTop, beginningPoint)) :=
    generateInformationLineWithFixedHeight d valueTexts valueFromTop
      beginningPoint (Some "Normal"%string) h None in
  (d, valueFromTop).

(** Rows chained the way the callers do it,
    [[valueFromTop, beginningPoint] = generateInformationLine(...)]:
    the state after the rows of [table], starting from [(d, (vft, bp))]. *)
Definition chainInformationLines (fontName : option string)
           (table : list (list string)) (st : Doc * (Q * Q)) : Doc * (Q * Q) :=
  fold_left
    (fun st texts =>
       let '(d, (valueFromTop, beginningPoint)) := st in
       generateInformationLine d texts valueFromTop beginningPoint fontName)
    table st.

(** *** [drawWideLeftTable] *)

Record TableRow := mkRow { label : string; value : string }.

Definition tableX : Q := leftMargin.
Definition tableWidth (p : Page) : Q := width p - leftMargin - rightMargin.
Definition col1Width (p : Page) : Q := inject_Z (Qfloor (tableWidth p * 0.75)).
Definition col2Width (p : Page) : Q := tableWidth p - col1Width p.
Definition rowHeight : Q := 18.
Definition headerHeight : Q := 20.

(** The inner [drawHeader(yPos)]; [p] is the page the column widths were
    computed from. *)
Definition drawHeader (p : Page) (leftHeader rightHeader : string) (yPos : Q)
           (d : Doc) : Doc :=
  let d := setFontSize 10 (setFont "Lato-Bold" d) in
  let d := rect tableX yPos (col1Width p) headerHeight d in
  let d := rect (tableX + col1Width p) yPos (col2Width p) headerHeight d in
  let d := text leftHeader (tableX + 8) (yPos + 5) (col1Width p - 16) AlignLeft d in
  text rightHeader (tableX + col1Width p + 8) (yPos + 5) (col2Width p - 16)
       AlignRight d.

(** The state of the data-row loop: the document and the local [currentY]. *)
Record LoopState := mkLoop { ldoc : Doc; currentY : Q }.

(** The head of the loop body:
    [if (currentY + rowHeight + 10 > bottom) { addPage; redraw header }]. *)
Definition breakPageIfNeeded (p : Page) (leftHeader rightHeader : string)
           (s : LoopState) : LoopState :=
  if Qlt_le_dec (pageBottom p) (currentY s + rowHeight + 10) then
    let d := addPage (ldoc s) in
    let cy := top (margins (page d)) in
    let d := drawHeader p leftHeader rightHeader cy d in
    mkLoop d (cy + headerHeight)
  else s.

(** The rest of the loop body: both bordered cells, both texts, advance.
    [value] holds [String(value)]. *)
Definition drawDataRow (p : Page) (r : TableRow) (s : LoopState) : LoopState :=
  let cy := currentY s in
  let d := rect tableX cy (col1Width p) rowHeight (ldoc s) in
  let d := rect (tableX + col1Width p) cy (col2Width p) rowHeight d in
  let d := text (label r) (tableX + 8) (cy + 4) (col1Width p - 16) AlignLeft d in
  let d := text (value r) (tableX + col1Width p + 8) (cy + 4) (col2Width p - 16)
                AlignRight d in
  mkLoop d (cy + rowHeight).

Definition rowStep (p : Page) (leftHeader rightHeader : string)
           (s : LoopState) (r : TableRow) : LoopState :=
  drawDataRow p r (breakPageIfNeeded p leftHeader rightHeader s).

Definition drawRows (p : Page) (leftHeader rightHeader : string)
           (rows : list TableRow) (s : LoopState) : LoopState :=
  fold_left (rowStep p leftHeader rightHeader) rows s.

(** The prologue: header at [startY], then the regular font for the rows. *)
Definition tableStart (d : Doc) (leftHeader rightHeader : string)
           (y0 : option Q) : LoopState :=
  let startY := match y0 with Some v => v | None => y d end in
  let d1 := drawHeader (page d) leftHeader rightHeader startY d in
  mkLoop (setFontSize 10 (setFont "Lato" d1)) (startY + headerHeight).

(** [drawWideLeftTable(doc, rows, leftHeader, rightHeader, y)]; the
    [options] argument is never read by the source. *)
Definition drawWideLeftTable (d : Doc) (rows : list TableRow)
           (leftHeader rightHeader : string) (y0 : option Q) : Doc * Q :=
  let p := page d in
  let s := drawRows p leftHeader rightHeader rows
                    (tableStart d leftHeader rightHeader y0) in
  let d' := stroke tableX (currentY s) (tableX + tableWidth p) (currentY s)
                   (ldoc s) in
  (d', currentY s + 4).

(** *** [printKeyValueTable(data, col1Label, maxRows, options)]

    The key-value table inside [exportReportToPDF]. [entries] stands for
    [Object.entries(data).slice(0, maxRows)], every value already turned
    into its string by [toString]; the length of a key is counted in
    characters. *)

Record KeyValueOptions := mkKeyValueOptions {
  optCol2Label : option string;
  optCol1Width : option Q;
  optCol2Width : option Q;
  optGap : option Q;
  optAlign1 : option Align;
  optAlign2 : option Align
}.

(** [v || dflt] on a number: zero counts as absent. *)
Definition numberOr (v : option Q) (dflt : Q) : Q :=
  match v with
  | Some q => if Qeq_bool q 0 then dflt else q
  | None => dflt
  end.

(** [v || dflt] on a string: the empty string counts as absent. *)
Definition stringOr (v : option string) (dflt : string) : string :=
  match v with
  | Some EmptyString => dflt
  | Some s => s
  | None => dflt
  end.

Definition alignOr (v : option Align) (dflt : Align) : Align :=
  match v with Some a => a | None => dflt end.

(** [doc.moveDown(lines)]: the cursor goes down by [lines] line heights. *)
Definition moveDown (lines : Q) (d : Doc) : Doc :=
  withY d (y d + lineHeight (font d) (fontSize d) * lines).

(** [Math.max(...entries.map(([key]) => key.length), col1Label.length)] *)
Definition maxKeyLen (entries : list (string * string)) (col1Label : string)
  : nat :=
  fold_right Nat.max (String.length col1Label)
             (map (fun e => String.length (fst e)) entries).

(** The locals [col1Width], [col2Width] and [gap] of the function, and where
    its two columns start. *)
Definition keyWidth (options : KeyValueOptions)
           (entries : list (string * string)) (col1Label : string) : Q :=
  numberOr (optCol1Width options)
           (Qmax 80 (ofNat (maxKeyLen entries col1Label) * 7 + 10)).

Definition countWidth (options : KeyValueOptions) : Q :=
  numberOr (optCol2Width options) 38.

Definition columnGap (options : KeyValueOptions) : Q :=
  match optGap options with Some g => g | None => 18 end.

Definition keyX : Q := leftMargin + 20.

Definition countX (options : KeyValueOptions)
           (entries : list (string * string)) (col1Label : string) : Q :=
  leftMargin + 20 + keyWidth options entries col1Label + columnGap options.

(** The prologue: room for the estimated height, the header texts in the
    bold font at the cursor, a tenth of a line down, the regular font. *)
Definition keyValueStart (d : Doc) (entries : list (string * string))
           (col1Label : string) (options : KeyValueOptions) : Doc :=
  let neededHeight := 24 + ofNat (List.length entries) * 14 in
  let d := ensureSpace d (Some neededHeight) in
  let d := setFontSize 11 (setFont "Lato-Bold" d) in
  let headerY := y d in
  let d := text col1Label keyX headerY (keyWidth options entries col1Label)
                (alignOr (optAlign1 options) AlignLeft) d in
  let d := text (stringOr (optCol2Label options) "Count")
                (countX options entries col1Label) headerY (countWidth options)
                (alignOr (optAlign2 options) AlignRight) d in
  let d := moveDown 0.1 d in
  setFontSize 10 (setFont "Lato" d).

(** The body of [entries.forEach]: room for 14 units, then the key and the
    value, both at the [rowY] the cursor is at. *)
Definition keyValueRow (options : KeyValueOptions)
           (entries : list (string * string)) (col1Label : string)
           (d : Doc) (e : string * string) : Doc :=
  let d := ensureSpace d (Some 14) in
  let rowY := y d in
  let d := text (fst e) keyX rowY (keyWidth options entries col1Label)
                (alignOr (optAlign1 options) AlignLeft) d in
  text (snd e) (countX options entries col1Label) rowY (countWidth options)
       (alignOr (optAlign2 options) AlignRight) d.

Definition printKeyValueTable (d : Doc) (entries : list (string * string))
           (col1Label : string) (options : KeyValueOptions) : Doc :=
  let d := fold_left (keyValueRow options entries col1Label) entries
                     (keyValueStart d entries col1Label options) in
  moveDown 0.5 d.

(** ** Positions and the properties the theorems speak about *)

(** The pages the wrapper starts for [n] lines of height [lh], the cursor
    being at [cur]: what [wrapLines] does to the page counter. *)
Fixpoint wrapBreaks (n : nat) (lh maxY topY cur : Q) : nat :=
  match n with
  | O => O
  | S n' =>
      match n' with
      | O => O
      | S _ =>
          if Qlt_le_dec maxY (cur + lh + lh)
          then S (wrapBreaks n' lh maxY topY topY)
          else wrapBreaks n' lh maxY topY (cur + lh)
      end
  end.

(** The pages one call of [doc.text] at [y0] starts on the page [p]. *)
Definition textBreaks (p : Page) (f : string) (sz : Q) (s : string) (y0 w : Q)
  : nat :=
  let lh := lineHeight f sz in
  let n := lineCount f sz s w in
  let topY := top (margins p) in
  if Qlt_le_dec 0 w then
    if Qlt_le_dec (pageBottom p) y0 then S (wrapBreaks n lh (pageBottom p) topY topY)
    else if Qlt_le_dec (pageBottom p) (y0 + lh)
         then S (wrapBreaks n lh (pageBottom p) topY topY)
         else wrapBreaks n lh (pageBottom p) topY y0
  else O.

(** What [n] pages started in a row log: each a [NewPage] and what the
    listeners draw on it. *)
Fixpoint pageOps (p : Page) (ls : list Listener) (n : nat) : list Op :=
  match n with
  | O => []
  | S n' => NewPage :: listenerOps p ls ++ pageOps p ls n'
  end.

(** The log of a sequence of calls: every text call is followed by the
    pages the surface starts for it; rectangles and lines start none. *)
Definition callLog (p : Page) (ls : list Listener) (o : Op) : list Op :=
  match o with
  | Text f sz s x0 y0 w a => o :: pageOps p ls (textBreaks p f sz s y0 w)
  | _ => [o]
  end.

Definition withPages (p : Page) (ls : list Listener) (calls : list Op) : list Op :=
  flat_map (callLog p ls) calls.

(** The pages the text calls among [calls] start. *)
Definition callBreaks (p : Page) (o : Op) : nat :=
  match o with
  | Text f sz s x0 y0 w a => textBreaks p f sz s y0 w
  | _ => O
  end.

Definition breaksOf (p : Page) (calls : list Op) : nat :=
  fold_right (fun o n => (callBreaks p o + n)%nat) O calls.

(** The height a text takes when it is drawn: its lines, one at least (the
    wrapper wants room for a first line even for the empty string). *)
Definition textHeight (f : string) (sz : Q) (s : string) (w : Q) : Q :=
  ofNat (Nat.max 1 (lineCount f sz s w)) * lineHeight f sz.

(** A position in the document: the page and the offset on it. *)
Record Position := mkPos { onPage : nat; atY : Q }.

(** [b] is not above [a]: on a later page, or on the same page at an offset
    at least as large. *)
Definition notAbove (a b : Position) : Prop :=
  (onPage a < onPage b)%nat \/ (onPage a = onPage b /\ atY a <= atY b).

(** The loop state just before row [k] of the table is handled. *)
Definition stateBeforeRow (p : Page) (leftHeader rightHeader : string)
           (rows : list TableRow) (s0 : LoopState) (k : nat) : LoopState :=
  drawRows p leftHeader rightHeader (firstn k rows) s0.

(** Where row [k] is drawn: the position after its own page-break check. *)
Definition rowTop (p : Page) (leftHeader rightHeader : string)
           (rows : list TableRow) (s0 : LoopState) (k : nat) : Position :=
  let s := breakPageIfNeeded p leftHeader rightHeader
             (stateBeforeRow p leftHeader rightHeader rows s0 k) in
  mkPos (pageCount (ldoc s)) (currentY s).

(** Where row [k] ends: the position the loop holds once it is drawn. *)
Definition rowAfter (p : Page) (leftHeader rightHeader : string)
           (rows : list TableRow) (s0 : LoopState) (k : nat) : Position :=
  let s := stateBeforeRow p leftHeader rightHeader rows s0 (S k) in
  mkPos (pageCount (ldoc s)) (currentY s).

(** The four operations of a header row at [yPos]. *)
Definition headerOps (p : Page) (leftHeader rightHeader : string) (yPos : Q)
  : list Op :=
  [ Rect tableX yPos (col1Width p) headerHeight;
    Rect (tableX + col1Width p) yPos (col2Width p) headerHeight;
    Text "Lato-Bold" 10 leftHeader (tableX + 8) (yPos + 5) (col1Width p - 16)
         AlignLeft;
    Text "Lato-Bold" 10 rightHeader (tableX + col1Width p + 8) (yPos + 5)
         (col2Width p - 16) AlignRight ].

(** The four operations of a data row at [cy], in the font [f] of size [sz]. *)
Definition dataRowOps (p : Page) (f : string) (sz : Q) (r : TableRow) (cy : Q)
  : list Op :=
  [ Rect tableX cy (col1Width p) rowHeight;
    Rect (tableX + col1Width p) cy (col2Width p) rowHeight;
    Text f sz (label r) (tableX + 8) (cy + 4) (col1Width p - 16) AlignLeft;
    Text f sz (value r) (tableX + col1Width p + 8) (cy + 4) (col2Width p - 16)
         AlignRight ].

(** The text operations of the cells from column [i] on, the first of them
    measured in the font [f0] of size [sz0] current at that time, the later
    ones in the row's own font at size 9. *)
Fixpoint cellOps (cells : list string) (i : nat) (fontName : string)
         (width textWidth valueFromTop rowH : Q) (f0 : string) (sz0 : Q)
  : list Op :=
  match cells with
  | [] => []
  | c :: rest =>
      let x0 := if Nat.eqb i 0 then leftMargin
                else leftMargin + width * ofNat i + 2.5 in
      Text fontName 9 c x0
           (cellTextY valueFromTop rowH (heightOfString f0 sz0 c textWidth))
           textWidth AlignCenter
      :: cellOps rest (S i) fontName width textWidth valueFromTop rowH fontName 9
  end.

(** The separator at the left edge of column [i]. *)
Definition separatorOp (width beginningPoint endingPoint : Q) (i : nat) : Op :=
  let x0 := leftMargin + width * ofNat i in
  Line x0 beginningPoint x0 (beginningPoint + (endingPoint - beginningPoint)).

Definition isLine (o : Op) : bool :=
  match o with Line _ _ _ _ => true | _ => false end.

Definition isText (o : Op) : bool :=
  match o with Text _ _ _ _ _ _ _ => true | _ => false end.

Definition isNewPage (o : Op) : bool :=
  match o with NewPage => true | _ => false end.

(** Every page added while [ops] was logged starts with what the listeners
    draw, then the header at the top margin, then a data row right under it. *)
Definition headersRepeated (p : Page) (ls : list Listener) (lh rh : string)
           (rows : list TableRow) (ops : list Op) : Prop :=
  forall pre post,
    ops = pre ++ NewPage :: post ->
    exists r rest,
      In r rows /\
      post = listenerOps p ls
             ++ headerOps p lh rh (top (margins p))
             ++ dataRowOps p "Lato-Bold" 10 r (top (margins p) + headerHeight)
             ++ rest.

(** Three rows of a type/count listing, for the examples. *)
Definition sampleRows : list TableRow :=
  [mkRow "Type A" "10"; mkRow "Type B" "5"; mkRow "Type C" "7"].

(** The no-overlap property read literally, on the offsets alone: the next
    row's top offset is at least the previous row's ending offset. *)
Definition noOverlapAsStated (d : Doc) (rows : list TableRow)
           (lh rh : string) (y0 : option Q) : Prop :=
  forall k r1 r2,
    nth_error rows k = Some r1 ->
    nth_error rows (S k) = Some r2 ->
    atY (rowAfter (page d) lh rh rows (tableStart d lh rh y0) k)
    <= atY (rowTop (page d) lh rh rows (tableStart d lh rh y0) (S k)).

(** The row height as the specification words it: the largest of
    [minCellHeight] and the measured heights of the cells. *)
Definition rowHeightSpec (heights : list Q) : Q :=
  fold_right Qmax minCellHeight heights.

(** [usable page height]: from the top margin to the bottom margin. *)
Definition usableHeight (p : Page) : Q := pageBottom p - top (margins p).

Definition emitsNewPage (d d' : Doc) : Prop := pageCount d' = S (pageCount d).

(** Header repetition read literally, on the log of one table: every page
    added while the table is drawn starts with what the listeners draw,
    then the header at the top margin, then a data row right under it. *)
Definition headerRepetitionAsStated (d : Doc) (rows : list TableRow)
           (lh rh : string) (y0 : option Q) : Prop :=
  forall pre post,
    log (fst (drawWideLeftTable d rows lh rh y0)) = log d ++ pre ++ NewPage :: post ->
    exists r rest,
      In r rows /\
      post = listenerOps (page d) (pageAdded d)
             ++ headerOps (page d) lh rh (top (margins (page d)))
             ++ dataRowOps (page d) "Lato-Bold" 10 r
                           (top (margins (page d)) + headerHeight)
             ++ rest.

(** The empty table read literally: header cells and texts, the bottom rule
    right under them, no page added, the starting [y] plus 24 returned. *)
Definition emptyTableAsStated (d : Doc) (lh rh : string) (y0 : option Q) : Prop :=
  let p := page d in
  let startY := match y0 with Some v => v | None => y d end in
  let res := drawWideLeftTable d [] lh rh y0 in
  log (fst res) =
    log d ++ headerOps p lh rh startY
      ++ [Line tableX (startY + 20) (tableX + tableWidth p) (startY + 20)] /\
  pageCount (fst res) = pageCount d /\
  snd res = startY + 20 + 4.

(** The two fonts a data row can be drawn in. *)
Definition rowFont (f : string) : Prop :=
  f = "Lato"%string \/ f = "Lato-Bold"%string.

(** Every text of the table fits the room its cell leaves it: a header text
    the 15 units under its origin in the header row, a row text the 24
    units the loop's check keeps free under its origin; and the page holds
    a header, a row and the slack. *)
Definition tableTextsFit (p : Page) (rows : list TableRow) (lh rh : string)
  : Prop :=
  (forall f, rowFont f -> 0 <= lineHeight f 10) /\
  headerHeight + rowHeight + 10 <= usableHeight p /\
  textHeight "Lato-Bold" 10 lh (col1Width p - 16) <= 15 /\
  textHeight "Lato-Bold" 10 rh (col2Width p - 16) <= 15 /\
  (forall r f, In r rows -> rowFont f ->
     textHeight f 10 (label r) (col1Width p - 16) <= 24 /\
     textHeight f 10 (value r) (col2Width p - 16) <= 24).

(** The check at the head of the loop body. *)
Definition checkFires (p : Page) (s : LoopState) : bool :=
  if Qlt_le_dec (pageBottom p) (currentY s + rowHeight + 10) then true else false.

(** Some row up to row [k] broke the page. *)
Definition brokeUpTo (p : Page) (lh rh : string) (rows : list TableRow)
           (s0 : LoopState) (k : nat) : bool :=
  existsb (fun j => checkFires p (stateBeforeRow p lh rh rows s0 j)) (seq 0 (S k)).

(** A label of 180 characters: three lines in the label column of the A4
    page at size 10. *)
Definition longLabel : string :=
  String.concat "" (repeat "Comprehensive cover "%string 9).

Definition longRow : TableRow := mkRow longLabel "1".

(** The document just before entry [k] of a key-value table is handled. *)
Definition keyValueBefore (d : Doc) (entries : list (string * string))
           (col1Label : string) (options : KeyValueOptions) (k : nat) : Doc :=
  fold_left (keyValueRow options entries col1Label) (firstn k entries)
            (keyValueStart d entries col1Label options).

(** The string of a text operation. *)
Definition textString (o : Op) : string :=
  match o with Text _ _ s _ _ _ _ => s | _ => ""%string end.

(** A text operation in the regular font of the rows. *)
Definition inRowFont (o : Op) : Prop :=
  match o with
  | Text f sz _ _ _ _ _ => f = "Lato"%string /\ sz = 10
  | _ => True
  end.

(** Five counts of eight digits: each wraps to two lines in the count
    column of 38 units. *)
Definition wideCounts : list (string * string) :=
  [("Motor", "12345678"); ("Fire", "12345678"); ("Marine", "12345678");
   ("Travel", "12345678"); ("Health", "12345678")]%string.

Definition noOptions : KeyValueOptions :=
  mkKeyValueOptions None None None None None None.

(** The page-break contract read literally: a page is emitted exactly when
    the block does not fit and the cursor is not at the top margin. *)
Definition ensureSpaceContractAsStated (d : Doc) (n : Q) : Prop :=
  emitsNewPage d (ensureSpace d (Some n)) <->
  (pageBottom (page d) < y d + n /\ ~ y d == top (margins (page d))).

(** The oversized-block policy read literally: a block taller than the
    usable page always makes the room check emit a page. *)
Definition oversizedAlwaysBreaksAsStated (d : Doc) (n : Q) : Prop :=
  usableHeight (page d) < n -> emitsNewPage d (ensureSpace d (Some n)).

(** The gaps above and below a text of height [h] drawn at [textY] in a row
    band that starts at [valueFromTop] and is [rowH] high. *)
Definition topGap (valueFromTop textY : Q) : Q := textY - valueFromTop.
Definition bottomGap (valueFromTop rowH textY h : Q) : Q :=
  (valueFromTop + rowH) - (textY + h).

(** Vertical centering read literally: offset [(rowH - h) / 2] clamped at 0,
    and gaps equal to within one unit. *)
Definition centeringAsStated (valueFromTop rowH h : Q) : Prop :=
  h < rowH ->
  let textY := cellTextY valueFromTop rowH h in
  topGap valueFromTop textY == Qmax 0 ((rowH - h) / 2) /\
  Qabs (topGap valueFromTop textY - bottomGap valueFromTop rowH textY h) <= 1.

(** ** Further layout code of the same files *)

(** The pages added while [ops] was logged. *)
Definition newPages (ops : list Op) : nat := List.length (filter isNewPage ops).

(** [maxHeight(doc)] and [logoCenter(doc)] of [pdfLayoutUtils.js], with the
    logo constants of [constants.js]. *)
Definition logoPath : string := "./Logo.png".
Definition coverNoteLogoLeftOffset : Q := 30.
Definition coverNoteLogoTopOffset : Q := 0.
Definition coverNoteLogoSize : Q := 100.

Definition maxHeight (d : Doc) : Q := height (page d) - 60.

Definition logoCenter (d : Doc) : Q := (width (page d) - coverNoteLogoSize) / 2.

(** [doc.image(path, x, y, {width})] *)
Inductive ImageOp := Image (path : string) (x y w : Q).

(** [addHeritageLogo(doc)]: the image it places, if any. Nothing is placed
    when the cursor is below 725, nor when loading the logo throws
    ([logoFound = false]), which the [catch] swallows. *)
Definition addHeritageLogo (logoFound : bool) (d : Doc) : option ImageOp :=
  let valueFromTop := y d in
  if Qlt_le_dec 725 valueFromTop then None
  else
    let valueFromTop := valueFromTop + 5 in
    let remainingSpace := maxHeight d - valueFromTop in
    let remainingCenter := remainingSpace / 2 - 35 in
    let valueFromTop := valueFromTop + remainingCenter in
    if logoFound then
      Some (Image logoPath
                  (logoCenter d + coverNoteLogoLeftOffset)
                  (valueFromTop + coverNoteLogoTopOffset)
                  coverNoteLogoSize)
    else None.

(** ** The records and the aggregation helpers

    The records come from JSON files. A JavaScript object is an association
    list in which the first binding of a key is the one that counts, a
    number an exact rational. *)

#[warnings="-register-all"] Inductive JValue :=
| JUndefined
| JNull
| JBool (b : bool)
| JNum (q : Q)
| JStr (s : string)
| JArr (items : list JValue)
| JObj (fields : list (string * JValue)).

Inductive JKind := KObject | KArray | KString | KNumber | KBoolean.

(** [protoMember k name]: the runtime finds [name] on a value of kind [k]
    other than as JSON data: a member inherited from the prototype of the
    kind ([toString], [constructor], [__proto__], the array methods, ...)
    or, for a string, its [length] or one of its characters. Such members
    are outside the model: a lookup that reaches one gives [None]. *)
Variable protoMember : JKind -> string -> bool.

(** [JSON.stringify] and the conversion of a number to a string. *)
Variable stringify : JValue -> string.
Variable numberToString : Q -> string.

(** [dayjs(dateStr).isBetween(start, end, null, "[]")], for the [start] and
    [end] of the call. *)
Variable isBetween : JValue -> bool.

(** What [if (v)], [v && ...] and [v || ...] test. *)
Definition truthy (v : JValue) : bool :=
  match v with
  | JUndefined | JNull => false
  | JBool b => b
  | JNum q => negb (Qeq_bool q 0)
  | JStr s => negb (String.eqb s "")
  | JArr _ | JObj _ => true
  end.

Fixpoint lookupKey {A : Type} (k : string) (l : list (string * A)) : option A :=
  match l with
  | [] => None
  | (k', v) :: rest => if String.eqb k k' then Some v else lookupKey k rest
  end.

(** [s.split(".")]: never empty, the empty string gives one empty part. *)
Fixpoint splitDots (s : string) : list string :=
  match s with
  | EmptyString => [EmptyString]
  | String c rest =>
      if Ascii.eqb c "."%char then EmptyString :: splitDots rest
      else match splitDots rest with
           | [] => [String c EmptyString]
           | part :: parts => String c part :: parts
           end
  end.

Definition digitOf (c : ascii) : option nat :=
  let n := nat_of_ascii c in
  if andb (Nat.leb 48 n) (Nat.leb n 57) then Some (n - 48)%nat else None.

Fixpoint digitsToNat (s : string) (acc : nat) : option nat :=
  match s with
  | EmptyString => Some acc
  | String c rest =>
      match digitOf c with
      | Some dgt => digitsToNat rest (10 * acc + dgt)
      | None => None
      end
  end.

(** The array index a property name stands for: decimal digits without a
    leading zero. *)
Definition arrayIndex (name : string) : option nat :=
  match name with
  | EmptyString => None
  | String c rest =>
      if andb (Ascii.eqb c "0"%char) (negb (String.eqb rest "")) then None
      else digitsToNat name 0
  end.

(** [v[name]] for a [v] that is neither [null] nor [undefined]. *)
Definition getMember (v : JValue) (name : string) : option JValue :=
  match v with
  | JObj fields =>
      match lookupKey name fields with
      | Some x => Some x
      | None => if protoMember KObject name then None else Some JUndefined
      end
  | JArr items =>
      match arrayIndex name with
      | Some i =>
          match nth_error items i with
          | Some x => Some x
          | None => if protoMember KArray name then None else Some JUndefined
          end
      | None =>
          if String.eqb name "length" then Some (JNum (ofNat (List.length items)))
          else if protoMember KArray name then None else Some JUndefined
      end
  | JStr _ => if protoMember KString name then None else Some JUndefined
  | JNum _ => if protoMember KNumber name then None else Some JUndefined
  | JBool _ => if protoMember KBoolean name then None else Some JUndefined
  | JUndefined | JNull => None
  end.

(** [(acc, cur) => acc && acc[cur]] *)
Definition getPathStep (acc : option JValue) (cur : string) : option JValue :=
  match acc with
  | None => None
  | Some a => if truthy a then getMember a cur else Some a
  end.

(** [getPath(obj, path)] *)
Definition getPath (obj : JValue) (path : string) : option JValue :=
  fold_left getPathStep (splitDots path) (Some obj).

(** The property name a counted value is stored under. Numbers, arrays and
    objects as keys are outside the model. *)
Definition propertyKey (v : JValue) : option string :=
  match v with
  | JStr s => Some s
  | JBool true => Some "true"%string
  | _ => None
  end.

Fixpoint increment (k : string) (counts : list (string * nat))
  : list (string * nat) :=
  match counts with
  | [] => []
  | (k', n) :: rest =>
      if String.eqb k k' then (k', n + 1)%nat :: rest
      else (k', n) :: increment k rest
  end.

(** One record of [countByField]:
    [if (key) counts[key] = (counts[key] || 0) + 1]. The counts are listed
    in the order in which the keys were first met (the runtime enumerates
    keys that look like array indices first; nothing below depends on the
    order). *)
Definition countStep (fieldPath : string) (acc : option (list (string * nat)))
           (r : JValue) : option (list (string * nat)) :=
  match acc with
  | None => None
  | Some counts =>
      match getPath r fieldPath with
      | None => None
      | Some key =>
          if truthy key then
            match propertyKey key with
            | None => None
            | Some k =>
                match lookupKey k counts with
                | Some _ => Some (increment k counts)
                | None =>
                    if protoMember KObject k then None
                    else Some (counts ++ [(k, 1%nat)])
                end
            end
          else Some counts
      end
  end.

(** [countByField(records, fieldPath)] *)
Definition countByField (records : list JValue) (fieldPath : string)
  : option (list (string * nat)) :=
  fold_left (countStep fieldPath) records (Some []).

Definition numberOr0 (v : JValue) : Q :=
  match v with JNum q => q | _ => 0 end.

(** [sumByField(records, fieldPath)] *)
Definition sumByField (records : list JValue) (fieldPath : string) : option Q :=
  fold_left
    (fun total r =>
       match total, getPath r fieldPath with
       | Some t, Some val => Some (t + numberOr0 val)
       | _, _ => None
       end)
    records (Some 0).

(** The test of [filterByDateRange]:
    [dateStr && dayjs(dateStr).isBetween(...)]. *)
Definition inDateRange (dateField : string) (rec : JValue) : option bool :=
  match getPath rec dateField with
  | None => None
  | Some dateStr => Some (if truthy dateStr then isBetween dateStr else false)
  end.

Fixpoint filterM (test : JValue -> option bool) (l : list JValue)
  : option (list JValue) :=
  match l with
  | [] => Some []
  | x :: rest =>
      match test x, filterM test rest with
      | Some b, Some out => Some (if b then x :: out else out)
      | _, _ => None
      end
  end.

(** [filterByDateRange(records, start, end, dateField = "createdAt.$date")]:
    anything but an array gives the empty list. *)
Definition filterByDateRange (records : JValue) (dateField : option string)
  : option (list JValue) :=
  let field := match dateField with
               | Some f => f
               | None => "createdAt.$date"%string
               end in
  match records with
  | JArr items => filterM (inDateRange field) items
  | _ => Some []
  end.

(** *** [getValueByPath] and the worksheet of [exportToExcel] *)

Inductive Extracted := Value (s : string) | TypeError.

(** The loop over the parts: the value reached, or an early return. *)
Fixpoint walkParts (parts : list string) (current : JValue)
  : option (JValue + Extracted) :=
  match parts with
  | [] => Some (inl current)
  | part :: rest =>
      match current with
      | JUndefined | JNull => Some (inr (Value ""))
      | JObj fields =>
          match lookupKey "hasOwnProperty" fields with
          | Some _ => Some (inr TypeError)
          | None =>
              match lookupKey "$oid" fields with
              | Some x =>
                  if String.eqb part "$oid" then walkParts rest x
                  else Some (inr (Value ""))
              | None =>
                  match lookupKey "$date" fields with
                  | Some x =>
                      if String.eqb part "$date" then walkParts rest x
                      else Some (inr (Value ""))
                  | None =>
                      match getMember current part with
                      | Some x => walkParts rest x
                      | None => None
                      end
                  end
              end
          end
      | JArr _ =>
          match getMember current part with
          | Some x => walkParts rest x
          | None => None
          end
      | JBool _ | JNum _ | JStr _ => Some (inr (Value ""))
      end
  end.

(** The last lines: an object is serialised, [null] and [undefined] give
    the empty string, anything else goes through [String]. *)
Definition finishValue (current : JValue) : string :=
  match current with
  | JObj _ | JArr _ => stringify current
  | JUndefined | JNull => ""
  | JStr s => s
  | JNum q => numberToString q
  | JBool b => if b then "true" else "false"
  end.

(** [getValueByPath(obj, path)] *)
Definition getValueByPath (obj : JValue) (path : string) : option Extracted :=
  if orb (negb (truthy obj)) (String.eqb path "") then Some (Value "")
  else
    match walkParts (splitDots path) obj with
    | None => None
    | Some (inr early) => Some early
    | Some (inl current) => Some (Value (finishValue current))
    end.

Record Mapping := mkMapping { mLabel : string; mKey : string }.

Inductive Sheet := SheetData (rows : list (list string)) | SheetTypeError.

(** One row of cells; the first [TypeError] ends it. *)
Fixpoint extractRow (record : JValue) (mapping : list Mapping)
  : option (list string + unit) :=
  match mapping with
  | [] => Some (inl [])
  | m :: rest =>
      match getValueByPath record (mKey m) with
      | None => None
      | Some TypeError => Some (inr tt)
      | Some (Value s) =>
          match extractRow record rest with
          | None => None
          | Some (inr e) => Some (inr e)
          | Some (inl cells) => Some (inl (s :: cells))
          end
      end
  end.

Fixpoint extractRows (records : list JValue) (mapping : list Mapping)
  : option (list (list string) + unit) :=
  match records with
  | [] => Some (inl [])
  | r :: rest =>
      match extractRow r mapping with
      | None => None
      | Some (inr e) => Some (inr e)
      | Some (inl cells) =>
          match extractRows rest mapping with
          | None => None
          | Some (inr e) => Some (inr e)
          | Some (inl rows) => Some (inl (cells :: rows))
          end
      end
  end.

(** The [worksheetData] of [exportToExcel(records, mapping, fileName)]:
    the labels, then one row per record. *)
Definition worksheetData (records : list JValue) (mapping : list Mapping)
  : option Sheet :=
  match extractRows records mapping with
  | None => None
  | Some (inr _) => Some SheetTypeError
  | Some (inl rows) => Some (SheetData (map mLabel mapping :: rows))
  end.

(** A name without a dot is a path of one part. *)
Fixpoint dotFree (s : string) : bool :=
  match s with
  | EmptyString => true
  | String c rest => andb (negb (Ascii.eqb c "."%char)) (dotFree rest)
  end.

(** The key [countByField] counts a record under, if any. *)
Definition countedKey (fieldPath : string) (r : JValue) : option string :=
  match getPath r fieldPath with
  | Some key => if truthy key then propertyKey key else None
  | None => None
  end.

Definition countedAs (fieldPath k : string) (r : JValue) : bool :=
  match countedKey fieldPath r with
  | Some k' => String.eqb k k'
  | None => false
  end.

Definition countOf (k : string) (counts : list (string * nat)) : nat :=
  match lookupKey k counts with Some n => n | None => 0%nat end.

(** The number a record adds to [sumByField]. *)
Definition addend (fieldPath : string) (r : JValue) : Q :=
  match getPath r fieldPath with
  | Some val => numberOr0 val
  | None => 0
  end.

Definition sumQ (l : list Q) : Q := fold_right Qplus 0 l.

Definition sumCounts (counts : list (string * nat)) : nat :=
  fold_right (fun kn acc => (snd kn + acc)%nat) 0%nat counts.

Definition isCounted (fieldPath : string) (r : JValue) : bool :=
  match countedKey fieldPath r with Some _ => true | None => false end.

(** A record whose own fields do not interfere with the checks of
    [getValueByPath]: no field called [hasOwnProperty], [$oid] or [$date]. *)
Definition plainRecord (fields : list (string * JValue)) : Prop :=
  lookupKey "hasOwnProperty" fields = None /\
  lookupKey "$oid" fields = None /\
  lookupKey "$date" fields = None.

(** [wrapper] carries [v] under the tag [$oid], or under the tag [$date]. *)
Definition wraps (tag : string) (wrapper : list (string * JValue)) (v : JValue)
  : Prop :=
  lookupKey "hasOwnProperty" wrapper = None /\
  ((tag = "$oid"%string /\ lookupKey "$oid" wrapper = Some v) \/
   (tag = "$date"%string /\ lookupKey "$oid" wrapper = None /\
    lookupKey "$date" wrapper = Some v)).

(** *** A concrete runtime and sample records for the examples *)

(** The members every object inherits from [Object.prototype]. *)
Definition objectPrototype : list string :=
  ["constructor"; "hasOwnProperty"; "isPrototypeOf"; "propertyIsEnumerable";
   "toLocaleString"; "toString"; "valueOf"; "__proto__";
   "__defineGetter__"; "__defineSetter__"; "__lookupGetter__";
   "__lookupSetter__"]%string.

(** An over-approximation of the inherited members: those of
    [Object.prototype] for an object, every name for the other kinds. *)
Definition sampleProtoMember (k : JKind) (name : string) : bool :=
  match k with
  | KObject => existsb (String.eqb name) objectPrototype
  | _ => true
  end.

(** The examples serialise no object and print no number. *)
Definition sampleStringify (v : JValue) : string := "{}"%string.
Definition sampleNumberToString (q : Q) : string := "0"%string.

(** A date range that holds the August 2025 dates of the sample records. *)
Definition sampleIsBetween (v : JValue) : bool :=
  match v with
  | JStr s => String.prefix "2025-08" s
  | _ => false
  end.

Definition samplePolicy (kind : string) (premium : Q) (date : string) : JValue :=
  JObj [("_id", JObj [("$oid", JStr "64f0c0ffee")]);
        ("insuranceLabel", JStr kind);
        ("premium", JNum premium);
        ("createdAt", JObj [("$date", JStr date)])]%string.

Definition samplePolicies : list JValue :=
  [samplePolicy "Motor" 1000 "2025-08-02";
   samplePolicy "Fire" 250.5 "2025-08-15";
   samplePolicy "Motor" 300 "2025-09-01"]%string.

Definition sampleMapping : list Mapping :=
  [mkMapping "Id" "_id.$oid"; mkMapping "Type" "insuranceLabel";
   mkMapping "Issued" "createdAt.$date"]%string.

(** ** The rendering surface: what each call does to the document *)

Lemma runListeners_spec (ls : list Listener) (d1 : Doc) :
  let d2 := fold_left runListener ls d1 in
  page d2 = page d1 /\ font d2 = font d1 /\ fontSize d2 = fontSize d1 /\
  pageAdded d2 = pageAdded d1 /\ pageCount d2 = pageCount d1 /\
  log d2 = log d1 ++ listenerOps (page d1) ls /\
  (y d1 = top (margins (page d1)) -> y d2 = top (margins (page d1))).
Proof.
  revert d1; induction ls as [|l ls IH]; intro d1; cbn [fold_left].
  - cbn. rewrite app_nil_r. repeat split; auto.
  - destruct l. specialize (IH (runListener d1 BorderAndResetY)).
    cbn zeta in IH. destruct IH as (Hp & Hf & Hs & Ha & Hc & Hl & Hy).
    cbn [runListener withY drawPageBorder rect emit page font fontSize
         pageAdded pageCount log y] in *.
    repeat split; try assumption.
    + rewrite Hl. unfold listenerOps. cbn [map]. rewrite <- app_assoc.
      reflexivity.
    + intros _. apply Hy. reflexivity.
Qed.

Lemma addPage_spec (d : Doc) :
  page (addPage d) = page d /\ font (addPage d) = font d /\
  fontSize (addPage d) = fontSize d /\ pageAdded (addPage d) = pageAdded d /\
  pageCount (addPage d) = S (pageCount d) /\
  log (addPage d) = log d ++ NewPage :: listenerOps (page d) (pageAdded d) /\
  y (addPage d) = top (margins (page d)).
Proof.
  unfold addPage.
  destruct (runListeners_spec (pageAdded d)
              (mkDoc (page d) (top (margins (page d))) (font d) (fontSize d)
                     (pageAdded d) (S (pageCount d)) (log d ++ [NewPage])))
    as (Hp & Hf & Hs & Ha & Hc & Hl & Hy).
  cbn [page font fontSize pageAdded pageCount log y] in *.
  repeat split; try assumption.
  - rewrite Hl, <- app_assoc. reflexivity.
  - apply Hy. reflexivity.
Qed.

(** ** The page breaker *)

Lemma ensureSpace_cases (d : Doc) (n : Q) :
  (pageBottom (page d) < y d + n /\ top (margins (page d)) + 1 < y d /\
   ensureSpace d (Some n) = addPage d) \/
  (~ (pageBottom (page d) < y d + n /\ top (margins (page d)) + 1 < y d) /\
   ensureSpace d (Some n) = d).
Proof.
  unfold ensureSpace.
  destruct (Qlt_le_dec (pageBottom (page d)) (y d + n)) as [Hfit|Hfit];
    [destruct (Qlt_le_dec (top (margins (page d)) + 1) (y d)) as [Htop|Htop]|].
  - left. auto.
  - right. split; [|reflexivity]. intros [_ H]. lra.
  - right. split; [|reflexivity]. intros [H _]. lra.
Qed.

(** C2, as the code has it: [ensureSpace] emits a new page exactly when the
    block does not fit, [y + neededHeight > pageBottom], and the cursor is
    more than one unit below the top margin, [y > top + 1]. The new page
    puts the cursor at the top margin and runs the [pageAdded] listeners
    (the page border is redrawn); in every other case the document, cursor
    included, is returned unchanged. *)
Theorem ensureSpace_contract (d : Doc) (n : Q) :
  let breaks :=
    pageBottom (page d) < y d + n /\ top (margins (page d)) + 1 < y d in
  let d' := ensureSpace d (Some n) in
  (emitsNewPage d d' <-> breaks) /\
  (breaks ->
   y d' = top (margins (page d)) /\
   log d' = log d ++ NewPage :: listenerOps (page d) (pageAdded d)) /\
  (~ breaks -> d' = d) /\
  ensureSpace d None = ensureSpace d (Some 80).
Proof.
  cbv zeta. unfold emitsNewPage.
  destruct (addPage_spec d) as (_ & _ & _ & _ & Hc & Hl & Hy).
  destruct (ensureSpace_cases d n) as [(H1 & H2 & E)|(Hn & E)]; rewrite E.
  - split; [|split; [|split; [|reflexivity]]].
    + split; auto.
    + auto.
    + intro H; exfalso; apply H; auto.
  - split; [|split; [|split; [|reflexivity]]].
    + split; [intro H; exfalso; lia | intro H; exfalso; auto].
    + intro H; exfalso; auto.
    + reflexivity.
Qed.

(** Two ways of bracketing the same concatenation. *)
Ltac same_lists :=
  repeat (rewrite <- app_assoc || rewrite <- app_comm_cons); reflexivity.

Lemma ofNat_succ (n : nat) : ofNat (S n) == ofNat n + 1.
Proof.
  unfold ofNat. rewrite Nat2Z.inj_succ, <- Z.add_1_r, inject_Z_plus.
  reflexivity.
Qed.

Lemma ofNat_nonneg (n : nat) : 0 <= ofNat n.
Proof.
  unfold ofNat. change 0 with (inject_Z 0). rewrite <- Zle_Qle. lia.
Qed.

Lemma ofNat_le (n m : nat) : (n <= m)%nat -> ofNat n <= ofNat m.
Proof. intro H. unfold ofNat. rewrite <- Zle_Qle. lia. Qed.

(** ** The text wrapper: what a call of [doc.text] does to the document *)

Lemma wrapLines_spec (lh : Q) (n : nat) :
  forall d : Doc,
    let d' := wrapLines n lh d in
    let k := wrapBreaks n lh (pageBottom (page d)) (top (margins (page d))) (y d) in
    page d' = page d /\ font d' = font d /\ fontSize d' = fontSize d /\
    pageAdded d' = pageAdded d /\
    pageCount d' = (pageCount d + k)%nat /\
    log d' = log d ++ pageOps (page d) (pageAdded d) k.
Proof.
  induction n as [|n IH]; intro d; cbv zeta.
  - cbn. rewrite app_nil_r, Nat.add_0_r. repeat split.
  - destruct n as [|m].
    + cbn. rewrite app_nil_r, Nat.add_0_r. repeat split.
    + change (wrapLines (S (S m)) lh d)
        with (wrapLines (S m) lh
                (if Qlt_le_dec (pageBottom (page d)) (y d + lh + lh)
                 then addPage (withY d (y d + lh)) else withY d (y d + lh))).
      change (wrapBreaks (S (S m)) lh (pageBottom (page d))
                (top (margins (page d))) (y d))
        with (if Qlt_le_dec (pageBottom (page d)) (y d + lh + lh)
              then S (wrapBreaks (S m) lh (pageBottom (page d))
                        (top (margins (page d))) (top (margins (page d))))
              else wrapBreaks (S m) lh (pageBottom (page d))
                     (top (margins (page d))) (y d + lh)).
      destruct (Qlt_le_dec (pageBottom (page d)) (y d + lh + lh)) as [H|H].
      * destruct (addPage_spec (withY d (y d + lh)))
          as (Hp & Hf & Hs & Ha & Hc & Hl & Hy).
        cbn [withY page font fontSize pageAdded pageCount log] in Hp, Hf, Hs, Ha, Hc, Hl, Hy.
        specialize (IH (addPage (withY d (y d + lh)))). cbv zeta in IH.
        rewrite Hp, Hf, Hs, Ha, Hc, Hl, Hy in IH.
        destruct IH as (Ip & If & Is & Ia & Ic & Il).
        rewrite Ip, If, Is, Ia, Ic, Il.
        repeat split; [lia|].
        cbn [pageOps]. rewrite <- !app_assoc. reflexivity.
      * specialize (IH (withY d (y d + lh))). cbv zeta in IH.
        cbn [withY page font fontSize pageAdded pageCount log y] in IH.
        exact IH.
Qed.

Lemma text_spec (s : string) (x0 y0 w : Q) (a : Align) (d : Doc) :
  let d' := text s x0 y0 w a d in
  let call := Text (font d) (fontSize d) s x0 y0 w a in
  page d' = page d /\ font d' = font d /\ fontSize d' = fontSize d /\
  pageAdded d' = pageAdded d /\
  pageCount d' = (pageCount d + breaksOf (page d) [call])%nat /\
  log d' = log d ++ withPages (page d) (pageAdded d) [call].
Proof.
  cbv zeta. unfold text, withPages, breaksOf, textBreaks.
  cbn [flat_map callLog fold_right callBreaks].
  unfold textBreaks. cbv zeta.
  set (lh := lineHeight (font d) (fontSize d)).
  set (n := lineCount (font d) (fontSize d) s w).
  set (d0 := withY (emit (Text (font d) (fontSize d) s x0 y0 w a) d) y0).
  change (page d0) with (page d). change (y d0) with y0.
  rewrite app_nil_r, Nat.add_0_r.
  destruct (addPage_spec d0) as (Hp & Hf & Hs & Ha & Hc & Hl & Hy).
  change (page d0) with (page d) in *.
  change (font d0) with (font d) in *.
  change (fontSize d0) with (fontSize d) in *.
  change (pageAdded d0) with (pageAdded d) in *.
  change (pageCount d0) with (pageCount d) in *.
  change (log d0) with (log d ++ [Text (font d) (fontSize d) s x0 y0 w a]) in *.
  destruct (Qlt_le_dec 0 w) as [Hw|Hw];
    [|cbn [pageOps]; repeat split; apply plus_n_O].
  assert (Hbreak :
    let d' := wrapLines n lh (addPage d0) in
    page d' = page d /\ font d' = font d /\ fontSize d' = fontSize d /\
    pageAdded d' = pageAdded d /\
    pageCount d' =
      (pageCount d + S (wrapBreaks n lh (pageBottom (page d))
                          (top (margins (page d))) (top (margins (page d)))))%nat /\
    log d' = log d ++ Text (font d) (fontSize d) s x0 y0 w a
               :: pageOps (page d) (pageAdded d)
                    (S (wrapBreaks n lh (pageBottom (page d))
                          (top (margins (page d))) (top (margins (page d)))))).
  { cbv zeta.
    destruct (wrapLines_spec lh n (addPage d0)) as (Ip & If & Is & Ia & Ic & Il).
    rewrite Hp, Hf, Hs, Ha, Hc, Hl, Hy in *.
    rewrite Ip, If, Is, Ia, Ic, Il.
    repeat split; [lia|].
    cbn [pageOps]. rewrite <- !app_assoc. reflexivity. }
  cbv zeta in Hbreak.
  destruct (Qlt_le_dec (pageBottom (page d)) y0) as [H1|H1]; [exact Hbreak|].
  destruct (Qlt_le_dec (pageBottom (page d)) (y0 + lh)) as [H2|H2]; [exact Hbreak|].
  destruct (wrapLines_spec lh n d0) as (Ip & If & Is & Ia & Ic & Il).
  change (page d0) with (page d) in *.
  change (font d0) with (font d) in *.
  change (fontSize d0) with (fontSize d) in *.
  change (pageAdded d0) with (pageAdded d) in *.
  change (pageCount d0) with (pageCount d) in *.
  change (log d0) with (log d ++ [Text (font d) (fontSize d) s x0 y0 w a]) in *.
  change (y d0) with y0 in *.
  rewrite Ip, If, Is, Ia, Ic, Il.
  repeat split. rewrite <- app_assoc. reflexivity.
Qed.

(** ** Logs with their pages *)

Lemma withPages_app (p : Page) (ls : list Listener) (a b : list Op) :
  withPages p ls (a ++ b) = withPages p ls a ++ withPages p ls b.
Proof. unfold withPages. apply flat_map_app. Qed.

Lemma breaksOf_app (p : Page) (a b : list Op) :
  breaksOf p (a ++ b) = (breaksOf p a + breaksOf p b)%nat.
Proof.
  induction a as [|o a IH]; cbn [app breaksOf fold_right]; [reflexivity|].
  fold (breaksOf p (a ++ b)). fold (breaksOf p a). rewrite IH. lia.
Qed.

Lemma listenerOps_no_page (p : Page) (ls : list Listener) :
  existsb isNewPage (listenerOps p ls) = false.
Proof. induction ls as [|l ls IH]; cbn; auto. Qed.

Lemma filter_none (ops : list Op) :
  existsb isNewPage ops = false -> filter isNewPage ops = [].
Proof.
  induction ops as [|o ops IH]; cbn; [reflexivity|].
  intro H. apply orb_false_iff in H. destruct H as [Ho Hs].
  rewrite Ho. auto.
Qed.

Lemma pageOps_pages (p : Page) (ls : list Listener) (n : nat) :
  newPages (pageOps p ls n) = n /\
  filter isText (pageOps p ls n) = [] /\
  filter isLine (pageOps p ls n) = [].
Proof.
  assert (Hl : filter isNewPage (listenerOps p ls) = []
               /\ filter isText (listenerOps p ls) = []
               /\ filter isLine (listenerOps p ls) = []).
  { induction ls as [|l ls IH]; cbn; auto. }
  destruct Hl as (Hn & Ht & Hi).
  induction n as [|n (IH1 & IH2 & IH3)]; cbn [pageOps]; [cbn; auto|].
  unfold newPages in *. cbn [filter isNewPage isText isLine List.length].
  rewrite !filter_app, Hn, Ht, Hi, IH2, IH3. cbn [app].
  rewrite IH1. auto.
Qed.

(** The pages in the log of a sequence of calls are those of the calls
    themselves and those their texts start; the text calls and the lines
    are the ones of the sequence. *)
Lemma withPages_filters (p : Page) (ls : list Listener) (calls : list Op) :
  newPages (withPages p ls calls) = (newPages calls + breaksOf p calls)%nat /\
  filter isText (withPages p ls calls) = filter isText calls /\
  filter isLine (withPages p ls calls) = filter isLine calls.
Proof.
  induction calls as [|o calls (IH1 & IH2 & IH3)].
  - cbn. auto.
  - unfold withPages in *. cbn [flat_map breaksOf fold_right].
    fold (breaksOf p calls). unfold newPages in *.
    rewrite !filter_app, length_app, IH1, IH2, IH3.
    destruct o as [x0 y0 w h|f sz s x0 y0 w a|x1 y1 x2 y2|]; cbn [callLog callBreaks];
      try (cbn; split; [lia | auto]).
    destruct (pageOps_pages p ls (textBreaks p f sz s y0 w)) as (H1 & H2 & H3).
    unfold newPages in H1.
    cbn [filter isNewPage isText isLine List.length app].
    rewrite H1, H2, H3. cbn [app]. split; [lia | auto].
Qed.

(** Calls whose texts start no page are logged as they are. *)
Lemma withPages_fits (p : Page) (ls : list Listener) (calls : list Op) :
  breaksOf p calls = 0%nat -> withPages p ls calls = calls.
Proof.
  induction calls as [|o calls IH]; [reflexivity|].
  cbn [breaksOf fold_right]. fold (breaksOf p calls). intro H.
  unfold withPages in *. cbn [flat_map]. rewrite IH by lia.
  destruct o; cbn [callLog callBreaks] in *; try reflexivity.
  replace (textBreaks p fontName size s y0 w) with 0%nat by lia.
  reflexivity.
Qed.

Lemma wrapBreaks_fits (lh maxY topY : Q) (n : nat) :
  0 <= lh ->
  forall cur, cur + ofNat n * lh <= maxY -> wrapBreaks n lh maxY topY cur = 0%nat.
Proof.
  intro Hlh. induction n as [|n IH]; intros cur H; [reflexivity|].
  destruct n as [|m]; [reflexivity|].
  change (wrapBreaks (S (S m)) lh maxY topY cur)
    with (if Qlt_le_dec maxY (cur + lh + lh)
          then S (wrapBreaks (S m) lh maxY topY topY)
          else wrapBreaks (S m) lh maxY topY (cur + lh)).
  rewrite ofNat_succ in H.
  pose proof (ofNat_nonneg m) as Hm.
  assert (Hm' : 0 <= ofNat m * lh) by (apply Qmult_le_0_compat; assumption).
  rewrite ofNat_succ in H. 
  destruct (Qlt_le_dec maxY (cur + lh + lh)) as [Hb|Hb].
  - exfalso. lra.
  - apply IH. rewrite ofNat_succ. lra.
Qed.

(** A text whose lines, one at least, end at or above the bottom margin
    starts no page. *)
Lemma textBreaks_fits (p : Page) (f : string) (sz : Q) (s : string) (y0 w : Q) :
  0 <= lineHeight f sz ->
  y0 + textHeight f sz s w <= pageBottom p ->
  textBreaks p f sz s y0 w = 0%nat.
Proof.
  intros Hlh H. unfold textHeight in H. unfold textBreaks. cbv zeta.
  set (lh := lineHeight f sz) in *. set (n := lineCount f sz s w) in *.
  pose proof (ofNat_le 1 (Nat.max 1 n) (Nat.le_max_l 1 n)) as H1.
  pose proof (ofNat_le n (Nat.max 1 n) (Nat.le_max_r 1 n)) as Hn.
  change (ofNat 1) with 1 in H1.
  assert (Ha : lh <= ofNat (Nat.max 1 n) * lh) by nra.
  assert (Hb : ofNat n * lh <= ofNat (Nat.max 1 n) * lh) by nra.
  destruct (Qlt_le_dec 0 w) as [Hw|Hw]; [|reflexivity].
  destruct (Qlt_le_dec (pageBottom p) y0) as [Hx|Hx]; [exfalso; lra|].
  destruct (Qlt_le_dec (pageBottom p) (y0 + lh)) as [Hy|Hy]; [exfalso; lra|].
  apply wrapBreaks_fits; [exact Hlh | lra].
Qed.

(** ** The wide-left table: what each part of the loop does *)

Lemma drawHeader_spec (p : Page) (lh rh : string) (yPos : Q) (d : Doc) :
  let d' := drawHeader p lh rh yPos d in
  page d' = page d /\ font d' = "Lato-Bold"%string /\ fontSize d' = 10 /\
  pageAdded d' = pageAdded d /\
  pageCount d' = (pageCount d + breaksOf (page d) (headerOps p lh rh yPos))%nat /\
  log d' = log d ++ withPages (page d) (pageAdded d) (headerOps p lh rh yPos).
Proof.
  cbv zeta. unfold drawHeader. cbv zeta.
  set (d2 := rect (tableX + col1Width p) yPos (col2Width p) headerHeight
               (rect tableX yPos (col1Width p) headerHeight
                  (setFontSize 10 (setFont "Lato-Bold" d)))).
  destruct (text_spec lh (tableX + 8) (yPos + 5) (col1Width p - 16) AlignLeft d2)
    as (Hp & Hf & Hs & Ha & Hc & Hl).
  cbv zeta in Hp, Hf, Hs, Ha, Hc, Hl.
  set (d3 := text lh (tableX + 8) (yPos + 5) (col1Width p - 16) AlignLeft d2) in *.
  destruct (text_spec rh (tableX + col1Width p + 8) (yPos + 5) (col2Width p - 16)
              AlignRight d3) as (Hp' & Hf' & Hs' & Ha' & Hc' & Hl').
  cbv zeta in Hp', Hf', Hs', Ha', Hc', Hl'.
  rewrite Hp', Hf', Hs', Ha', Hc', Hl', Hp, Hf, Hs, Ha, Hc, Hl.
  change (page d2) with (page d). change (font d2) with "Lato-Bold"%string.
  change (fontSize d2) with 10. change (pageAdded d2) with (pageAdded d).
  change (pageCount d2) with (pageCount d).
  change (log d2)
    with ((log d ++ [Rect tableX yPos (col1Width p) headerHeight])
          ++ [Rect (tableX + col1Width p) yPos (col2Width p) headerHeight]).
  unfold headerOps.
  change [Rect tableX yPos (col1Width p) headerHeight;
          Rect (tableX + col1Width p) yPos (col2Width p) headerHeight;
          Text "Lato-Bold" 10 lh (tableX + 8) (yPos + 5) (col1Width p - 16) AlignLeft;
          Text "Lato-Bold" 10 rh (tableX + col1Width p + 8) (yPos + 5)
               (col2Width p - 16) AlignRight]
    with ([Rect tableX yPos (col1Width p) headerHeight;
           Rect (tableX + col1Width p) yPos (col2Width p) headerHeight]
          ++ [Text "Lato-Bold" 10 lh (tableX + 8) (yPos + 5) (col1Width p - 16)
                   AlignLeft]
          ++ [Text "Lato-Bold" 10 rh (tableX + col1Width p + 8) (yPos + 5)
                   (col2Width p - 16) AlignRight]).
  rewrite !withPages_app, !breaksOf_app.
  change (withPages (page d) (pageAdded d)
            [Rect tableX yPos (col1Width p) headerHeight;
             Rect (tableX + col1Width p) yPos (col2Width p) headerHeight])
    with [Rect tableX yPos (col1Width p) headerHeight;
          Rect (tableX + col1Width p) yPos (col2Width p) headerHeight].
  change (breaksOf (page d)
            [Rect tableX yPos (col1Width p) headerHeight;
             Rect (tableX + col1Width p) yPos (col2Width p) headerHeight])
    with 0%nat.
  repeat split; [lia|].
  rewrite <- !app_assoc. reflexivity.
Qed.

Lemma drawDataRow_spec (p : Page) (r : TableRow) (s : LoopState) :
  let s' := drawDataRow p r s in
  let calls := dataRowOps p (font (ldoc s)) (fontSize (ldoc s)) r (currentY s) in
  page (ldoc s') = page (ldoc s) /\ font (ldoc s') = font (ldoc s) /\
  fontSize (ldoc s') = fontSize (ldoc s) /\
  pageAdded (ldoc s') = pageAdded (ldoc s) /\
  pageCount (ldoc s') = (pageCount (ldoc s) + breaksOf (page (ldoc s)) calls)%nat /\
  log (ldoc s') =
    log (ldoc s) ++ withPages (page (ldoc s)) (pageAdded (ldoc s)) calls /\
  currentY s' = currentY s + rowHeight.
Proof.
  cbv zeta. unfold drawDataRow. cbv zeta. cbn [ldoc currentY].
  set (cy := currentY s). set (d := ldoc s).
  set (d2 := rect (tableX + col1Width p) cy (col2Width p) rowHeight
               (rect tableX cy (col1Width p) rowHeight d)).
  destruct (text_spec (label r) (tableX + 8) (cy + 4) (col1Width p - 16) AlignLeft d2)
    as (Hp & Hf & Hs & Ha & Hc & Hl).
  cbv zeta in Hp, Hf, Hs, Ha, Hc, Hl.
  set (d3 := text (label r) (tableX + 8) (cy + 4) (col1Width p - 16) AlignLeft d2) in *.
  destruct (text_spec (value r) (tableX + col1Width p + 8) (cy + 4) (col2Width p - 16)
              AlignRight d3) as (Hp' & Hf' & Hs' & Ha' & Hc' & Hl').
  cbv zeta in Hp', Hf', Hs', Ha', Hc', Hl'.
  rewrite Hp', Hf', Hs', Ha', Hc', Hl', Hp, Hf, Hs, Ha, Hc, Hl.
  change (page d2) with (page d). change (font d2) with (font d).
  change (fontSize d2) with (fontSize d). change (pageAdded d2) with (pageAdded d).
  change (pageCount d2) with (pageCount d).
  change (log d2)
    with ((log d ++ [Rect tableX cy (col1Width p) rowHeight])
          ++ [Rect (tableX + col1Width p) cy (col2Width p) rowHeight]).
  unfold dataRowOps.
  change [Rect tableX cy (col1Width p) rowHeight;
          Rect (tableX + col1Width p) cy (col2Width p) rowHeight;
          Text (font d) (fontSize d) (label r) (tableX + 8) (cy + 4)
               (col1Width p - 16) AlignLeft;
          Text (font d) (fontSize d) (value r) (tableX + col1Width p + 8) (cy + 4)
               (col2Width p - 16) AlignRight]
    with ([Rect tableX cy (col1Width p) rowHeight;
           Rect (tableX + col1Width p) cy (col2Width p) rowHeight]
          ++ [Text (font d) (fontSize d) (label r) (tableX + 8) (cy + 4)
                   (col1Width p - 16) AlignLeft]
          ++ [Text (font d) (fontSize d) (value r) (tableX + col1Width p + 8)
                   (cy + 4) (col2Width p - 16) AlignRight]).
  rewrite !withPages_app, !breaksOf_app.
  change (withPages (page d) (pageAdded d)
            [Rect tableX cy (col1Width p) rowHeight;
             Rect (tableX + col1Width p) cy (col2Width p) rowHeight])
    with [Rect tableX cy (col1Width p) rowHeight;
          Rect (tableX + col1Width p) cy (col2Width p) rowHeight].
  change (breaksOf (page d)
            [Rect tableX cy (col1Width p) rowHeight;
             Rect (tableX + col1Width p) cy (col2Width p) rowHeight])
    with 0%nat.
  repeat split; [lia|].
  rewrite <- !app_assoc. reflexivity.
Qed.

Lemma breakPageIfNeeded_cases (p : Page) (lh rh : string) (s : LoopState) :
  let s' := breakPageIfNeeded p lh rh s in
  let q := page (ldoc s) in
  let header := headerOps p lh rh (top (margins q)) in
  (pageBottom p < currentY s + rowHeight + 10 /\
   page (ldoc s') = q /\
   pageAdded (ldoc s') = pageAdded (ldoc s) /\
   font (ldoc s') = "Lato-Bold"%string /\ fontSize (ldoc s') = 10 /\
   pageCount (ldoc s') = (S (pageCount (ldoc s)) + breaksOf q header)%nat /\
   log (ldoc s') =
     log (ldoc s) ++ NewPage :: listenerOps q (pageAdded (ldoc s))
       ++ withPages q (pageAdded (ldoc s)) header /\
   currentY s' = top (margins q) + headerHeight) \/
  (currentY s + rowHeight + 10 <= pageBottom p /\ s' = s).
Proof.
  cbv zeta. unfold breakPageIfNeeded.
  destruct (Qlt_le_dec (pageBottom p) (currentY s + rowHeight + 10)) as [H|H];
    [left|right; auto].
  destruct (addPage_spec (ldoc s)) as (Hp & _ & _ & Ha & Hc & Hl & _).
  split; [exact H|]. cbn [ldoc currentY].
  destruct (drawHeader_spec p lh rh (top (margins (page (addPage (ldoc s)))))
              (addPage (ldoc s))) as (Hp' & Hf' & Hs' & Ha' & Hc' & Hl').
  cbv zeta in Hp', Hf', Hs', Ha', Hc', Hl'.
  rewrite Hp', Hf', Hs', Ha', Hc', Hl', Hp, Ha, Hc, Hl, <- app_assoc.
  repeat split.
Qed.

Lemma rowStep_page (p : Page) (lh rh : string) (s : LoopState) (r : TableRow) :
  page (ldoc (rowStep p lh rh s r)) = page (ldoc s) /\
  pageAdded (ldoc (rowStep p lh rh s r)) = pageAdded (ldoc s).
Proof.
  unfold rowStep.
  destruct (drawDataRow_spec p r (breakPageIfNeeded p lh rh s))
    as (Hp & _ & _ & Ha & _).
  rewrite Hp, Ha.
  destruct (breakPageIfNeeded_cases p lh rh s)
    as [(_ & Hp' & Ha' & _)|(_ & E)]; [auto | rewrite E; auto].
Qed.

Lemma drawRows_page (p : Page) (lh rh : string) (rows : list TableRow) :
  forall s, page (ldoc (drawRows p lh rh rows s)) = page (ldoc s) /\
            pageAdded (ldoc (drawRows p lh rh rows s)) = pageAdded (ldoc s).
Proof.
  induction rows as [|r rows IH]; intro s; cbn [drawRows fold_left]; [auto|].
  destruct (IH (rowStep p lh rh s r)) as [Hp Ha].
  destruct (rowStep_page p lh rh s r) as [Hp' Ha'].
  unfold drawRows in *. rewrite Hp, Ha. auto.
Qed.

Lemma firstn_succ {A : Type} (l : list A) :
  forall k x, nth_error l k = Some x -> firstn (S k) l = firstn k l ++ [x].
Proof.
  induction l as [|a l IH]; intros [|k] x H; cbn in H; try discriminate.
  - injection H as ->. reflexivity.
  - rewrite (firstn_cons (S k)), (firstn_cons k), (IH k x H). reflexivity.
Qed.

Lemma stateBeforeRow_succ (p : Page) (lh rh : string) (rows : list TableRow)
      (s0 : LoopState) (k : nat) (r : TableRow) :
  nth_error rows k = Some r ->
  stateBeforeRow p lh rh rows s0 (S k) =
  drawDataRow p r (breakPageIfNeeded p lh rh (stateBeforeRow p lh rh rows s0 k)).
Proof.
  intro H. unfold stateBeforeRow, drawRows.
  rewrite (firstn_succ rows k r H), fold_left_app. reflexivity.
Qed.

Lemma stateBeforeRow_page (p : Page) (lh rh : string) (rows : list TableRow)
      (s0 : LoopState) (k : nat) :
  page (ldoc (stateBeforeRow p lh rh rows s0 k)) = page (ldoc s0) /\
  pageAdded (ldoc (stateBeforeRow p lh rh rows s0 k)) = pageAdded (ldoc s0).
Proof. apply drawRows_page. Qed.

Lemma tableStart_spec (d : Doc) (lh rh : string) (y0 : option Q) :
  let startY := match y0 with Some v => v | None => y d end in
  let s := tableStart d lh rh y0 in
  let header := headerOps (page d) lh rh startY in
  page (ldoc s) = page d /\ pageAdded (ldoc s) = pageAdded d /\
  pageCount (ldoc s) = (pageCount d + breaksOf (page d) header)%nat /\
  font (ldoc s) = "Lato"%string /\ fontSize (ldoc s) = 10 /\
  log (ldoc s) = log d ++ withPages (page d) (pageAdded d) header /\
  currentY s = startY + headerHeight.
Proof.
  cbv zeta. unfold tableStart. cbv zeta. cbn [ldoc currentY].
  destruct (drawHeader_spec (page d) lh rh
              (match y0 with Some v => v | None => y d end) d)
    as (Hp & _ & _ & Ha & Hc & Hl).
  cbv zeta in Hp, Ha, Hc, Hl.
  cbn [setFontSize setFont page pageAdded pageCount font fontSize log].
  repeat split; assumption.
Qed.

Lemma stateBeforeRow_all (p : Page) (lh rh : string) (rows : list TableRow)
      (s0 : LoopState) :
  stateBeforeRow p lh rh rows s0 (List.length rows) = drawRows p lh rh rows s0.
Proof. unfold stateBeforeRow. rewrite firstn_all. reflexivity. Qed.

Lemma col1Width_bounds (p : Page) :
  0.75 * tableWidth p - 1 < col1Width p /\ col1Width p <= 0.75 * tableWidth p.
Proof.
  unfold col1Width.
  pose proof (Qfloor_le (tableWidth p * 0.75)) as Hle.
  pose proof (Qlt_floor (tableWidth p * 0.75)) as Hlt.
  rewrite inject_Z_plus in Hlt. change (inject_Z 1) with 1 in Hlt.
  split; lra.
Qed.

(** C7: the table spans the usable width, split at
    [tableX + floor(0.75 * tableWidth)] into a label column and a value
    column that add up to the table width; every data row is drawn with the
    fixed height 18 whatever its content, after its own check
    [currentY + 18 + 10 > bottom], which adds a page, and redraws the
    header on it, exactly when it holds. The log of a row is its two
    bordered cells and its two text calls, each text followed by the pages
    the surface starts for it. *)
Theorem wideLeftTable_geometry (d : Doc) (rows : list TableRow)
        (lh rh : string) (y0 : option Q) :
  let p := page d in
  let s0 := tableStart d lh rh y0 in
  (tableX = leftMargin /\
   tableWidth p = width p - leftMargin - rightMargin /\
   tableX + col1Width p == tableX + inject_Z (Qfloor (0.75 * tableWidth p)) /\
   col1Width p + col2Width p == tableWidth p /\
   0.75 * tableWidth p - 1 < col1Width p <= 0.75 * tableWidth p) /\
  rowHeight = 18 /\
  (forall k r,
      nth_error rows k = Some r ->
      let s := stateBeforeRow p lh rh rows s0 k in
      let s' := breakPageIfNeeded p lh rh s in
      let s'' := stateBeforeRow p lh rh rows s0 (S k) in
      let header := headerOps p lh rh (top (margins p)) in
      ((pageCount (ldoc s) < pageCount (ldoc s'))%nat <->
       pageBottom p < currentY s + 18 + 10) /\
      (pageBottom p < currentY s + 18 + 10 ->
       pageCount (ldoc s') = (S (pageCount (ldoc s)) + breaksOf p header)%nat /\
       log (ldoc s') =
         log (ldoc s) ++ NewPage :: listenerOps p (pageAdded d)
           ++ withPages p (pageAdded d) header) /\
      (currentY s + 18 + 10 <= pageBottom p -> s' = s) /\
      log (ldoc s'') =
        log (ldoc s') ++
        withPages p (pageAdded d)
          [ Rect tableX (currentY s') (col1Width p) 18;
            Rect (tableX + col1Width p) (currentY s') (col2Width p) 18;
            Text (font (ldoc s')) (fontSize (ldoc s')) (label r)
                 (tableX + 8) (currentY s' + 4) (col1Width p - 16) AlignLeft;
            Text (font (ldoc s')) (fontSize (ldoc s')) (value r)
                 (tableX + col1Width p + 8) (currentY s' + 4) (col2Width p - 16)
                 AlignRight ] /\
      currentY s'' = currentY s' + 18) /\
  drawWideLeftTable d rows lh rh y0 =
    (let s := stateBeforeRow p lh rh rows s0 (List.length rows) in
     (stroke tableX (currentY s) (tableX + tableWidth p) (currentY s) (ldoc s),
      currentY s + 4)).
Proof.
  cbv zeta. split; [|split; [reflexivity|split]].
  - split; [reflexivity|split; [reflexivity|split; [|split]]].
    + unfold col1Width.
      rewrite (Qfloor_comp _ _ (Qmult_comm (tableWidth (page d)) 0.75)).
      reflexivity.
    + unfold col2Width. ring.
    + apply col1Width_bounds.
  - intros k r Hk.
    rewrite (stateBeforeRow_succ _ _ _ _ _ _ _ Hk).
    destruct (tableStart_spec d lh rh y0) as (Hp0 & Ha0 & _).
    destruct (stateBeforeRow_page (page d) lh rh rows (tableStart d lh rh y0) k)
      as [Hpk Hak].
    rewrite Hp0 in Hpk. rewrite Ha0 in Hak.
    set (s := stateBeforeRow (page d) lh rh rows (tableStart d lh rh y0) k) in *.
    destruct (drawDataRow_spec (page d) r (breakPageIfNeeded (page d) lh rh s))
      as (_ & _ & _ & _ & _ & Hl & Hy).
    cbv zeta in Hl.
    assert (Hs' : page (ldoc (breakPageIfNeeded (page d) lh rh s)) = page d
                  /\ pageAdded (ldoc (breakPageIfNeeded (page d) lh rh s))
                     = pageAdded d).
    { destruct (breakPageIfNeeded_cases (page d) lh rh s)
        as [(_ & Hp & Ha & _)|(_ & E)]; [|rewrite E; auto].
      rewrite Hp, Ha. auto. }
    destruct Hs' as [Hp' Ha']. rewrite Hp', Ha' in Hl.
    split; [|split; [|split; [|split; [exact Hl | exact Hy]]]].
    + destruct (breakPageIfNeeded_cases (page d) lh rh s)
        as [(Hb & _ & _ & _ & _ & Hc & _)|(Hb & E)].
      * split; [intros _; exact Hb | intros _; lia].
      * rewrite E. split; [intro H; exfalso; lia|].
        intro H. exfalso. change rowHeight with 18 in Hb. lra.
    + intro Hb.
      destruct (breakPageIfNeeded_cases (page d) lh rh s)
        as [(_ & _ & _ & _ & _ & Hc & Hlog & _)|(Hfit & _)].
      * cbv zeta in Hc, Hlog. rewrite Hpk, Hak in *. auto.
      * exfalso. change rowHeight with 18 in Hfit. lra.
    + intro Hfit.
      destruct (breakPageIfNeeded_cases (page d) lh rh s)
        as [(Hb & _)|(_ & E)]; [|exact E].
      exfalso. change rowHeight with 18 in Hb. lra.
  - unfold drawWideLeftTable. rewrite stateBeforeRow_all. reflexivity.
Qed.

Lemma textBreaks_overflow (p : Page) (f : string) (sz : Q) (s : string) (y0 w : Q) :
  0 < w ->
  pageBottom p < y0 + lineHeight f sz -> (1 <= textBreaks p f sz s y0 w)%nat.
Proof.
  intros Hw H. unfold textBreaks. cbv zeta.
  destruct (Qlt_le_dec 0 w) as [_|Hn]; [|exfalso; lra].
  destruct (Qlt_le_dec (pageBottom p) y0); [lia|].
  destruct (Qlt_le_dec (pageBottom p) (y0 + lineHeight f sz)); [lia|].
  exfalso. lra.
Qed.

Lemma drawWideLeftTable_nil (d : Doc) (lh rh : string) (y0 : option Q) :
  drawWideLeftTable d [] lh rh y0 =
    (stroke tableX (currentY (tableStart d lh rh y0))
            (tableX + tableWidth (page d)) (currentY (tableStart d lh rh y0))
            (ldoc (tableStart d lh rh y0)),
     currentY (tableStart d lh rh y0) + 4).
Proof. reflexivity. Qed.

(** C10, as the code has it: with no rows, the two bordered header cells
    are drawn at the starting [y] and the two header texts are issued at
    [y + 5]; the bottom rule is drawn at [y + 20] and the result is
    [y + 20 + 4]. No page is added when both header texts fit above the
    bottom margin; a header text whose first line does not fit makes the
    surface start a new page for it (the columns being wider than the 16
    units of padding). *)
Theorem wideLeftTable_empty (d : Doc) (lh rh : string) (y0 : option Q) :
  let p := page d in
  let startY := match y0 with Some v => v | None => y d end in
  let res := drawWideLeftTable d [] lh rh y0 in
  let header :=
    [ Rect tableX startY (col1Width p) 20;
      Rect (tableX + col1Width p) startY (col2Width p) 20;
      Text "Lato-Bold" 10 lh (tableX + 8) (startY + 5) (col1Width p - 16)
           AlignLeft;
      Text "Lato-Bold" 10 rh (tableX + col1Width p + 8) (startY + 5)
           (col2Width p - 16) AlignRight ] in
  let rule := Line tableX (startY + 20) (tableX + tableWidth p) (startY + 20) in
  log (fst res) = log d ++ withPages p (pageAdded d) header ++ [rule] /\
  pageCount (fst res) = (pageCount d + breaksOf p header)%nat /\
  snd res = startY + 20 + 4 /\
  (breaksOf p header = 0%nat ->
   log (fst res) = log d ++ header ++ [rule] /\
   pageCount (fst res) = pageCount d) /\
  (0 <= lineHeight "Lato-Bold" 10 ->
   startY + 5 + textHeight "Lato-Bold" 10 lh (col1Width p - 16) <= pageBottom p ->
   startY + 5 + textHeight "Lato-Bold" 10 rh (col2Width p - 16) <= pageBottom p ->
   breaksOf p header = 0%nat) /\
  (16 < col1Width p -> 16 < col2Width p ->
   pageBottom p < startY + 5 + lineHeight "Lato-Bold" 10 ->
   (pageCount d + 2 <= pageCount (fst res))%nat).
Proof.
  cbv zeta. rewrite drawWideLeftTable_nil.
  destruct (tableStart_spec d lh rh y0) as (_ & _ & Hc & _ & _ & Hl & Hy).
  cbv zeta in Hc, Hl, Hy. unfold headerOps in Hc, Hl.
  change headerHeight with 20 in Hc, Hl, Hy.
  revert Hc Hl Hy. generalize (tableStart d lh rh y0). intros s Hc Hl Hy.
  cbn [fst snd stroke emit log pageCount].
  rewrite Hl, Hc, Hy.
  split; [rewrite <- app_assoc; reflexivity|].
  split; [reflexivity|]. split; [reflexivity|]. split; [|split].
  - intro H0. rewrite H0, (withPages_fits _ _ _ H0), Nat.add_0_r, <- app_assoc.
    auto.
  - intros Hlh H1 H2. cbn [breaksOf fold_right callBreaks].
    rewrite (textBreaks_fits _ _ _ _ _ _ Hlh H1),
            (textBreaks_fits _ _ _ _ _ _ Hlh H2).
    reflexivity.
  - intros Hw1 Hw2 Hov. cbn [breaksOf fold_right callBreaks].
    assert (Hp1 : 0 < col1Width (page d) - 16) by lra.
    assert (Hp2 : 0 < col2Width (page d) - 16) by lra.
    pose proof (textBreaks_overflow (page d) "Lato-Bold" 10 lh _
                  (col1Width (page d) - 16) Hp1 Hov).
    pose proof (textBreaks_overflow (page d) "Lato-Bold" 10 rh _
                  (col2Width (page d) - 16) Hp2 Hov).
    lia.
Qed.

(** ** The row primitives *)

Lemma drawCells_spec (cells : list string) (fontName : string)
      (width textWidth valueFromTop rowH : Q) :
  forall (i : nat) (d : Doc),
    let d' := drawCells cells i fontName width textWidth valueFromTop rowH d in
    let calls := cellOps cells i fontName width textWidth valueFromTop rowH
                         (font d) (fontSize d) in
    page d' = page d /\ pageAdded d' = pageAdded d /\
    pageCount d' = (pageCount d + breaksOf (page d) calls)%nat /\
    log d' = log d ++ withPages (page d) (pageAdded d) calls.
Proof.
  induction cells as [|c rest IH]; intros i d; cbv zeta; cbn [drawCells cellOps].
  - cbn. rewrite app_nil_r, Nat.add_0_r. auto.
  - cbv zeta.
    set (x0 := if Nat.eqb i 0 then leftMargin
               else leftMargin + width * ofNat i + 2.5).
    set (y0 := cellTextY valueFromTop rowH (measure d c textWidth)).
    destruct (text_spec c x0 y0 textWidth AlignCenter
                (setFontSize 9 (setFont fontName d)))
      as (Hp & Hf & Hs & Ha & Hc & Hl).
    cbv zeta in Hp, Hf, Hs, Ha, Hc, Hl.
    cbn [setFontSize setFont page font fontSize pageAdded pageCount log]
      in Hp, Hf, Hs, Ha, Hc, Hl.
    destruct (IH (S i) (text c x0 y0 textWidth AlignCenter
                          (setFontSize 9 (setFont fontName d))))
      as (Ip & Ia & Ic & Il).
    cbv zeta in Ip, Ia, Ic, Il.
    rewrite Hp, Hf, Hs, Ha, Hc, Hl in *.
    rewrite Ip, Ia, Ic, Il.
    change (Text fontName 9 c x0
              (cellTextY valueFromTop rowH (heightOfString (font d) (fontSize d) c textWidth))
              textWidth AlignCenter
            :: cellOps rest (S i) fontName width textWidth valueFromTop rowH fontName 9)
      with ([Text fontName 9 c x0 y0 textWidth AlignCenter]
            ++ cellOps rest (S i) fontName width textWidth valueFromTop rowH fontName 9).
    rewrite withPages_app, breaksOf_app, <- app_assoc.
    repeat split. lia.
Qed.

Lemma separators_fold (width bp e : Q) (l : list nat) :
  Forall (fun i => i <> 0%nat) l ->
  forall d : Doc,
    let d' := fold_left
                (fun d i =>
                   if Nat.eqb i 0 then d
                   else drawVerticalLine d (e - bp) (leftMargin + width * ofNat i) bp)
                l d in
    page d' = page d /\ pageAdded d' = pageAdded d /\
    pageCount d' = pageCount d /\
    log d' = log d ++ map (separatorOp width bp e) l.
Proof.
  induction 1 as [|i l Hi _ IH]; intro d; cbn [fold_left map].
  - cbn. rewrite app_nil_r. auto.
  - destruct (Nat.eqb_spec i 0) as [E|_]; [contradiction|].
    cbv zeta in IH.
    destruct (IH (drawVerticalLine d (e - bp) (leftMargin + width * ofNat i) bp))
      as (Hp & Ha & Hc & Hl).
    rewrite Hp, Ha, Hc, Hl. cbn. rewrite <- app_assoc. auto.
Qed.

Lemma drawSeparators_spec (n : nat) (width bp e : Q) (d : Doc) :
  let d' := drawSeparators n width bp e d in
  page d' = page d /\ pageAdded d' = pageAdded d /\
  pageCount d' = pageCount d /\
  log d' = log d ++ map (separatorOp width bp e) (seq 1 (n - 1)).
Proof.
  unfold drawSeparators. destruct n as [|n].
  - cbn. rewrite app_nil_r. auto.
  - cbn [seq fold_left Nat.eqb]. replace (S n - 1)%nat with n by lia.
    apply separators_fold. apply Forall_forall. intros i Hi.
    apply in_seq in Hi. lia.
Qed.

Lemma row_spec (cells : list string) (fontName : string)
      (w valueFromTop beginningPoint rowH : Q) (d : Doc) :
  let textWidth := w - 5 in
  let e := valueFromTop + rowH + 5 in
  let d' := drawLine
              (drawSeparators (List.length cells) w beginningPoint e
                 (drawCells cells 0 fontName w textWidth valueFromTop rowH d))
              e in
  let calls := cellOps cells 0 fontName w textWidth valueFromTop rowH
                       (font d) (fontSize d) in
  page d' = page d /\ pageAdded d' = pageAdded d /\
  pageCount d' = (pageCount d + breaksOf (page d) calls)%nat /\
  log d' = log d
           ++ withPages (page d) (pageAdded d) calls
           ++ map (separatorOp w beginningPoint e)
                  (seq 1 (List.length cells - 1))
           ++ [Line leftMargin e (width (page d) - rightMargin) e].
Proof.
  cbv zeta.
  set (e := valueFromTop + rowH + 5).
  destruct (drawCells_spec cells fontName w (w - 5) valueFromTop rowH 0 d)
    as (Hp & Ha & Hc & Hl).
  cbv zeta in Hp, Ha, Hc, Hl.
  match goal with |- context [drawSeparators ?n _ _ _ ?d1] =>
    destruct (drawSeparators_spec n w beginningPoint e d1)
      as (Hp' & Ha' & Hc' & Hl') end.
  cbv zeta in Hp', Ha', Hc', Hl'.
  unfold drawLine, stroke.
  cbn [emit page pageAdded pageCount log].
  rewrite Hp', Ha', Hc', Hl', Hp, Ha, Hc, Hl, <- !app_assoc. auto.
Qed.

Lemma cellOps_length (cells : list string) (fontName : string)
      (w textWidth valueFromTop rowH : Q) :
  forall i f0 sz0,
    List.length (cellOps cells i fontName w textWidth valueFromTop rowH f0 sz0)
    = List.length cells /\
    forallb isText (cellOps cells i fontName w textWidth valueFromTop rowH f0 sz0)
    = true.
Proof.
  induction cells as [|c rest IH]; intros i f0 sz0; cbn; [auto|].
  destruct (IH (S i) fontName 9) as [Hl Ht]. rewrite Hl, Ht. auto.
Qed.

(** The horizontal position of the text of column [i]. *)
Lemma cellOps_nth (cells : list string) (fontName : string)
      (w textWidth valueFromTop rowH : Q) :
  forall i f0 sz0 k c,
    nth_error cells k = Some c ->
    nth_error (cellOps cells i fontName w textWidth valueFromTop rowH f0 sz0) k
    = Some (Text fontName 9 c
                 (if Nat.eqb (i + k) 0 then leftMargin
                  else leftMargin + w * ofNat (i + k) + 2.5)
                 (cellTextY valueFromTop rowH
                    (heightOfString (if Nat.eqb k 0 then f0 else fontName)
                                    (if Nat.eqb k 0 then sz0 else 9)
                                    c textWidth))
                 textWidth AlignCenter).
Proof.
  induction cells as [|c0 rest IH]; intros i f0 sz0 [|k] c H; cbn in H;
    try discriminate.
  - injection H as ->. cbn [cellOps nth_error Nat.eqb]. rewrite Nat.add_0_r.
    reflexivity.
  - cbn [cellOps nth_error Nat.eqb]. rewrite (IH (S i) fontName 9 k c H).
    replace (S i + k)%nat with (i + S k)%nat by lia.
    destruct k; reflexivity.
Qed.

Lemma cellOps_texts (cells : list string) (fontName : string)
      (w textWidth valueFromTop rowH : Q) (p : Page) (ls : list Listener) :
  forall i f0 sz0,
    let calls := cellOps cells i fontName w textWidth valueFromTop rowH f0 sz0 in
    filter isText (withPages p ls calls) = calls /\
    filter isLine (withPages p ls calls) = [] /\
    newPages (withPages p ls calls) = breaksOf p calls.
Proof.
  intros i f0 sz0. cbv zeta.
  destruct (withPages_filters p ls
              (cellOps cells i fontName w textWidth valueFromTop rowH f0 sz0))
    as (H1 & H2 & H3).
  destruct (cellOps_length cells fontName w textWidth valueFromTop rowH i f0 sz0)
    as [_ Ht].
  assert (Hall : forall l, forallb isText l = true ->
                           filter isText l = l /\ filter isLine l = []
                           /\ newPages l = 0%nat).
  { induction l as [|o l IH]; [cbn; auto|].
    cbn [forallb]. intro H. apply andb_true_iff in H. destruct H as [Ho Hl].
    destruct (IH Hl) as (I1 & I2 & I3). unfold newPages in *.
    destruct o; try discriminate Ho. cbn. rewrite I1, I2, I3. auto. }
  destruct (Hall _ Ht) as (A1 & A2 & A3).
  rewrite H1, H2, H3, A1, A2, A3. auto.
Qed.

Lemma reduce_fold (d : Doc) (textWidth m : Q) (texts : list string) :
  forall acc,
    Qmax (fold_left
            (fun max current =>
               let height := measure d current textWidth in
               if Qlt_le_dec max height then height else max)
            texts acc) m
    == Qmax acc (fold_right Qmax m (map (fun t => measure d t textWidth) texts)).
Proof.
  induction texts as [|t texts IH]; intro acc; cbn [fold_left fold_right map].
  - reflexivity.
  - cbv zeta. rewrite IH.
    set (X := fold_right Qmax m (map (fun t0 => measure d t0 textWidth) texts)).
    destruct (Qlt_le_dec acc (measure d t textWidth)) as [H|H].
    + destruct (Q.max_spec (measure d t textWidth) X) as [[? E]|[? E]];
        destruct (Q.max_spec acc (Qmax (measure d t textWidth) X)) as [[? E']|[? E']];
        lra.
    + destruct (Q.max_spec (measure d t textWidth) X) as [[? E]|[? E]];
        destruct (Q.max_spec acc (Qmax (measure d t textWidth) X)) as [[? E']|[? E']];
        destruct (Q.max_spec acc X) as [[? E'']|[? E'']];
        lra.
Qed.

Lemma rowHeightSpec_floor (hs : list Q) : minCellHeight <= rowHeightSpec hs.
Proof.
  induction hs as [|h hs IH]; cbn [rowHeightSpec fold_right].
  - lra.
  - fold (rowHeightSpec hs).
    destruct (Q.max_spec h (rowHeightSpec hs)) as [[? E]|[? E]]; lra.
Qed.

Lemma computedRowHeight_spec (d : Doc) (texts : list string) (textWidth : Q) :
  computedRowHeight d texts textWidth
  == rowHeightSpec (map (fun t => measure d t textWidth) texts).
Proof.
  unfold computedRowHeight, reduceMaxHeight. rewrite reduce_fold.
  fold (rowHeightSpec (map (fun t => measure d t textWidth) texts)).
  pose proof (rowHeightSpec_floor (map (fun t => measure d t textWidth) texts)) as Hf.
  unfold minCellHeight in Hf.
  destruct (Q.max_spec 0 (rowHeightSpec (map (fun t => measure d t textWidth) texts)))
    as [[? E]|[? E]]; lra.
Qed.


Lemma rowHeightSpec_upper (hs : list Q) :
  Forall (fun h => h <= rowHeightSpec hs) hs.
Proof.
  induction hs as [|h hs IH]; [constructor|].
  cbn [rowHeightSpec fold_right]. fold (rowHeightSpec hs). constructor.
  - apply Q.le_max_l.
  - eapply Forall_impl; [|exact IH]. cbv beta. intros a Ha.
    pose proof (Q.le_max_r h (rowHeightSpec hs)). lra.
Qed.







(** C5, as the code has it: in the fixed-height row every cell's text is
    drawn at [valueFromTop] when its measured height equals the row height,
    and otherwise at the offset [(fixedHeight - ownHeight) / 2 - 1], with no
    clamping; within the row band the gap above the text is then 2 units
    smaller than the gap below it. *)
Theorem fixedHeightRow_centering (d : Doc) (texts : list string) (vft bp : Q)
        (f : option string) (F : Q) (cols : option nat) :
  let w := insideWidth d / ofNat (match cols with Some c => c | None => 6%nat end) in
  let res := generateInformationLineWithFixedHeight d texts vft bp f F cols in
  let cells := cellOps texts 0 (fontOr f) w (w - 5) vft F (font d) (fontSize d) in
  (exists rest,
      log (fst res) = log d ++ withPages (page d) (pageAdded d) cells ++ rest) /\
  filter isText (withPages (page d) (pageAdded d) cells) = cells /\
  (forall k c,
      nth_error texts k = Some c ->
      let h := heightOfString (if Nat.eqb k 0 then font d else fontOr f)
                              (if Nat.eqb k 0 then fontSize d else 9) c (w - 5) in
      let textY := cellTextY vft F h in
      nth_error cells k =
        Some (Text (fontOr f) 9 c
                   (if Nat.eqb k 0 then leftMargin
                    else leftMargin + w * ofNat k + 2.5)
                   textY (w - 5) AlignCenter) /\
      (h == F -> textY = vft) /\
      (~ h == F ->
       textY == vft + ((F - h) / 2 - 1) /\
       topGap vft textY == (F - h) / 2 - 1 /\
       bottomGap vft F textY h == (F - h) / 2 + 1 /\
       bottomGap vft F textY h - topGap vft textY == 2)).
Proof.
  cbv zeta. split; [|split].
  - unfold generateInformationLineWithFixedHeight. cbv zeta. cbn [fst].
    match goal with |- context [drawLine (drawSeparators _ ?w _ _ (drawCells _ _ ?fn _ _ _ _ _)) _] =>
      destruct (row_spec texts fn w vft bp F d) as (_ & _ & _ & Hl) end.
    cbv zeta in Hl. rewrite Hl. eexists. reflexivity.
  - apply cellOps_texts.
  - intros k c Hk. split; [|split].
    + rewrite (cellOps_nth texts _ _ _ _ _ 0%nat _ _ k c Hk). reflexivity.
    + intro E. unfold cellTextY.
      destruct (Qeq_dec _ F) as [_|N]; [reflexivity | contradiction].
    + intro N. unfold topGap, bottomGap, cellTextY.
      match goal with |- context [Qeq_dec ?h F] => generalize dependent h end.
      intros h N. destruct (Qeq_dec h F) as [E|_]; [contradiction|].
      split; [|split; [|split]].
      all: field.
Qed.

(** C6: the fixed-height row logs the cell texts first (each followed by
    the pages the surface starts for it, if any), then exactly [N - 1]
    vertical separators, one at the left edge of every column but the
    first, each from the row's beginning point to its ending point
    [valueFromTop + fixedHeight + 5], then the bottom rule at the ending
    point; no other line is drawn; the ending point is returned with the
    next cursor. *)
Theorem fixedHeightRow_separators (d : Doc) (texts : list string) (vft bp : Q)
        (f : option string) (F : Q) (cols : option nat) :
  let n := List.length texts in
  let w := insideWidth d / ofNat (match cols with Some c => c | None => 6%nat end) in
  let e := vft + F + 5 in
  let res := generateInformationLineWithFixedHeight d texts vft bp f F cols in
  let cells := cellOps texts 0 (fontOr f) w (w - 5) vft F (font d) (fontSize d) in
  let cellLog := withPages (page d) (pageAdded d) cells in
  let seps := map (separatorOp w bp e) (seq 1 (n - 1)) in
  snd res = (e + 5, e) /\
  log (fst res) =
    log d ++ cellLog ++ seps ++ [Line leftMargin e (width (page d) - rightMargin) e] /\
  List.length cells = n /\ forallb isText cells = true /\
  filter isText cellLog = cells /\ filter isLine cellLog = [] /\
  List.length seps = (n - 1)%nat /\
  Forall (fun o => exists x y2, o = Line x bp x y2 /\ y2 == e) seps /\
  pageCount (fst res) = (pageCount d + newPages cellLog)%nat.
Proof.
  cbv zeta.
  unfold generateInformationLineWithFixedHeight. cbv zeta. cbn [fst snd].
  match goal with |- context [drawLine (drawSeparators _ ?w _ _ (drawCells _ _ ?fn _ _ _ _ _)) _] =>
    destruct (row_spec texts fn w vft bp F d) as (_ & _ & Hc & Hl);
    destruct (cellOps_length texts fn w (w - 5) vft F 0%nat (font d) (fontSize d))
      as (Hn & Ht);
    destruct (cellOps_texts texts fn w (w - 5) vft F (page d) (pageAdded d)
                0%nat (font d) (fontSize d)) as (T1 & T2 & T3)
  end.
  cbv zeta in Hl, Hc, T1, T2, T3.
  split; [reflexivity|]. split; [exact Hl|]. split; [exact Hn|].
  split; [exact Ht|]. split; [exact T1|]. split; [exact T2|].
  split; [|split; [|rewrite T3; exact Hc]].
  - rewrite length_map, length_seq. reflexivity.
  - apply Forall_map. apply Forall_forall. intros i _. unfold separatorOp.
    cbv zeta. eexists. eexists. split; [reflexivity|]. ring.
Qed.

Lemma generateInformationLine_spec (d : Doc) (texts : list string) (vft bp : Q)
      (f : option string) :
  let w := insideWidth d / 6 in
  let H := computedRowHeight d texts (w - 5) in
  let e := vft + H + 5 in
  let res := generateInformationLine d texts vft bp f in
  let calls := cellOps texts 0 (fontOr f) w (w - 5) vft H (font d) (fontSize d) in
  snd res = (e + 5, e) /\
  pageCount (fst res) = (pageCount d + breaksOf (page d) calls)%nat /\
  page (fst res) = page d /\
  log (fst res) =
    log d ++ withPages (page d) (pageAdded d) calls
      ++ map (separatorOp w bp e) (seq 1 (List.length texts - 1))
      ++ [Line leftMargin e (width (page d) - rightMargin) e].
Proof.
  cbv zeta. unfold generateInformationLine. cbv zeta. cbn [fst snd].
  match goal with |- context [drawLine (drawSeparators _ ?w _ _ (drawCells _ _ ?fn _ _ _ ?h _)) _] =>
    destruct (row_spec texts fn w vft bp h d) as (Hp & _ & Hc & Hl) end.
  cbv zeta in Hp, Hc, Hl. auto.
Qed.

Lemma chain_succ (f : option string) (table : list (list string))
      (st : Doc * (Q * Q)) (k : nat) (t : list string) :
  nth_error table k = Some t ->
  let a := chainInformationLines f (firstn k table) st in
  chainInformationLines f (firstn (S k) table) st =
  generateInformationLine (fst a) t (fst (snd a)) (snd (snd a)) f.
Proof.
  intros H a. unfold chainInformationLines.
  rewrite (firstn_succ table k t H), fold_left_app. cbn [fold_left].
  fold (chainInformationLines f (firstn k table) st). fold a.
  destruct a as [d' [v b]]. reflexivity.
Qed.

(** C1, as the code has it: rows drawn one after the other never go back up
    in the document. In [drawWideLeftTable], row [k] is drawn at its top
    position with the fixed row height and ends on the page its texts left
    the document on; when the next row passes its check it is drawn on that
    page exactly where row [k] ended; when it does not, the page is broken
    and the row is drawn at the top margin plus the header height, on the
    page that follows (pages the header texts start, if they do not fit,
    come on top). In a chain of [generateInformationLine] calls, each fed
    with the values the previous one returned, the next row starts 5 units
    below the previous row's ending point, on the page the previous row
    left the document on, and the calls add no page but those their texts
    start. *)
Theorem rows_never_overlap :
  (forall (d : Doc) (rows : list TableRow) (lh rh : string) (y0 : option Q)
          (k : nat) (r1 r2 : TableRow),
      nth_error rows k = Some r1 ->
      nth_error rows (S k) = Some r2 ->
      let p := page d in
      let s0 := tableStart d lh rh y0 in
      let before1 := stateBeforeRow p lh rh rows s0 k in
      let drawn1 := breakPageIfNeeded p lh rh before1 in
      let before2 := stateBeforeRow p lh rh rows s0 (S k) in
      let after2 := stateBeforeRow p lh rh rows s0 (S (S k)) in
      let header := headerOps p lh rh (top (margins p)) in
      before2 = drawDataRow p r1 drawn1 /\
      after2 = drawDataRow p r2 (breakPageIfNeeded p lh rh before2) /\
      rowAfter p lh rh rows s0 k =
        mkPos (onPage (rowTop p lh rh rows s0 k)
               + breaksOf p (dataRowOps p (font (ldoc drawn1)) (fontSize (ldoc drawn1))
                                        r1 (currentY drawn1)))
              (atY (rowTop p lh rh rows s0 k) + rowHeight) /\
      notAbove (rowAfter p lh rh rows s0 k) (rowTop p lh rh rows s0 (S k)) /\
      (atY (rowAfter p lh rh rows s0 k) + rowHeight + 10 <= pageBottom p ->
       rowTop p lh rh rows s0 (S k) = rowAfter p lh rh rows s0 k) /\
      (pageBottom p < atY (rowAfter p lh rh rows s0 k) + rowHeight + 10 ->
       onPage (rowTop p lh rh rows s0 (S k))
       = (S (onPage (rowAfter p lh rh rows s0 k)) + breaksOf p header)%nat /\
       atY (rowTop p lh rh rows s0 (S k)) = top (margins p) + headerHeight) /\
      (onPage (rowTop p lh rh rows s0 (S k)) = onPage (rowAfter p lh rh rows s0 k) ->
       atY (rowTop p lh rh rows s0 (S k)) = atY (rowAfter p lh rh rows s0 k)))
  /\
  (forall (d : Doc) (f : option string) (table : list (list string))
          (vft bp : Q) (k : nat) (t1 t2 : list string),
      nth_error table k = Some t1 ->
      nth_error table (S k) = Some t2 ->
      let a := chainInformationLines f (firstn k table) (d, (vft, bp)) in
      let b := chainInformationLines f (firstn (S k) table) (d, (vft, bp)) in
      let c := chainInformationLines f (firstn (S (S k)) table) (d, (vft, bp)) in
      let w := insideWidth (fst b) / 6 in
      let cells2 :=
        cellOps t2 0 (fontOr f) w (w - 5) (fst (snd b))
                (computedRowHeight (fst b) t2 (w - 5))
                (font (fst b)) (fontSize (fst b)) in
      b = generateInformationLine (fst a) t1 (fst (snd a)) (snd (snd a)) f /\
      c = generateInformationLine (fst b) t2 (fst (snd b)) (snd (snd b)) f /\
      fst (snd b) = snd (snd b) + 5 /\
      pageCount (fst c) = (pageCount (fst b) + breaksOf (page (fst b)) cells2)%nat /\
      notAbove (mkPos (pageCount (fst b)) (snd (snd b)))
               (mkPos (pageCount (fst b)) (fst (snd b))) /\
      notAbove (mkPos (pageCount (fst b)) (snd (snd b)))
               (mkPos (pageCount (fst c)) (fst (snd b)))).
Proof.
  split.
  - intros d rows lh rh y0 k r1 r2 H1 H2. cbv zeta.
    pose proof (stateBeforeRow_succ (page d) lh rh rows (tableStart d lh rh y0)
                  k r1 H1) as E1.
    pose proof (stateBeforeRow_succ (page d) lh rh rows (tableStart d lh rh y0)
                  (S k) r2 H2) as E2.
    split; [exact E1|]. split; [exact E2|].
    unfold rowAfter, rowTop. cbv zeta. cbn [onPage atY].
    destruct (tableStart_spec d lh rh y0) as (Hp0 & _).
    destruct (stateBeforeRow_page (page d) lh rh rows (tableStart d lh rh y0) k)
      as [Hpk _].
    destruct (stateBeforeRow_page (page d) lh rh rows (tableStart d lh rh y0) (S k))
      as [Hpk1 _].
    rewrite Hp0 in Hpk, Hpk1.
    set (s := stateBeforeRow (page d) lh rh rows (tableStart d lh rh y0) k) in *.
    set (s1 := stateBeforeRow (page d) lh rh rows (tableStart d lh rh y0) (S k)) in *.
    assert (Hpd : page (ldoc (breakPageIfNeeded (page d) lh rh s)) = page d).
    { destruct (breakPageIfNeeded_cases (page d) lh rh s)
        as [(_ & Hp & _)|(_ & E)]; [|rewrite E; auto].
      rewrite Hp. exact Hpk. }
    split; [|split; [|split; [|split]]].
    + rewrite E1.
      destruct (drawDataRow_spec (page d) r1 (breakPageIfNeeded (page d) lh rh s))
        as (_ & _ & _ & _ & Hc & _ & Hy).
      cbv zeta in Hc. rewrite Hc, Hy, Hpd. reflexivity.
    + unfold notAbove. cbn [onPage atY].
      destruct (breakPageIfNeeded_cases (page d) lh rh s1)
        as [(_ & _ & _ & _ & _ & Hc & _)|(_ & E)].
      * left. rewrite Hc. lia.
      * right. rewrite E. split; [reflexivity | apply Qle_refl].
    + intro Hfit.
      destruct (breakPageIfNeeded_cases (page d) lh rh s1)
        as [(Hb & _)|(_ & E)]; [exfalso; lra | rewrite E; reflexivity].
    + intro Hb.
      destruct (breakPageIfNeeded_cases (page d) lh rh s1)
        as [(_ & _ & _ & _ & _ & Hc & _ & Hy)|(Hfit & _)]; [|exfalso; lra].
      cbv zeta in Hc, Hy. rewrite Hpk1 in Hc, Hy. auto.
    + destruct (breakPageIfNeeded_cases (page d) lh rh s1)
        as [(_ & _ & _ & _ & _ & Hc & _)|(_ & E)].
      * intro H. rewrite Hc in H. exfalso. lia.
      * intros _. rewrite E. reflexivity.
  - intros d f table vft bp k t1 t2 H1 H2. cbv zeta.
    pose proof (chain_succ f table (d, (vft, bp)) k t1 H1) as E1.
    pose proof (chain_succ f table (d, (vft, bp)) (S k) t2 H2) as E2.
    cbv zeta in E1, E2.
    split; [exact E1|]. split; [exact E2|].
    set (a := chainInformationLines f (firstn k table) (d, (vft, bp))) in *.
    set (b := chainInformationLines f (firstn (S k) table) (d, (vft, bp))) in *.
    destruct (generateInformationLine_spec (fst a) t1 (fst (snd a)) (snd (snd a)) f)
      as (Hs & _ & _).
    destruct (generateInformationLine_spec (fst b) t2 (fst (snd b)) (snd (snd b)) f)
      as (_ & Hc & _).
    cbv zeta in Hs, Hc. rewrite <- E1 in Hs.
    split; [|split; [|split]].
    + rewrite Hs. reflexivity.
    + rewrite E2. exact Hc.
    + unfold notAbove. cbn [onPage atY]. right. split; [reflexivity|].
      rewrite Hs. cbn [fst snd]. lra.
    + rewrite E2, Hc. unfold notAbove. cbn [onPage atY].
      match goal with |- context [breaksOf ?q ?l] =>
        destruct (breaksOf q l) as [|n] end.
      * right. split; [lia|]. rewrite Hs. cbn [fst snd]. lra.
      * left. lia.
Qed.

(** ** Page breaks inside the table *)

Lemma split_after_prefix (a b pre post : list Op) :
  existsb isNewPage a = false ->
  a ++ b = pre ++ NewPage :: post ->
  exists pre', pre = a ++ pre' /\ b = pre' ++ NewPage :: post.
Proof.
  revert pre. induction a as [|x a IH]; intros pre Ha E.
  - exists pre. auto.
  - cbn in Ha. apply orb_false_iff in Ha. destruct Ha as [Hx Ha].
    destruct pre as [|o pre]; cbn in E.
    + injection E as -> _. discriminate Hx.
    + injection E as -> E. destruct (IH pre Ha E) as (pre' & -> & Hb).
      exists pre'. auto.
Qed.

Lemma headersRepeated_more (p : Page) (ls : list Listener) (lh rh : string)
      (rows : list TableRow) (r0 : TableRow) (ops : list Op) :
  headersRepeated p ls lh rh rows ops ->
  headersRepeated p ls lh rh (r0 :: rows) ops.
Proof.
  intros H pre post E. destruct (H pre post E) as (r & rest & Hin & Hp).
  exists r, rest. split; [right; exact Hin | exact Hp].
Qed.

(** When every text fits its cell, one turn of the loop logs what its calls
    say and nothing else: the header is redrawn after a page break, and no
    text starts a page. *)
Lemma rowStep_fit (p : Page) (lh rh : string) (rows : list TableRow)
      (s : LoopState) (r : TableRow) :
  tableTextsFit p rows lh rh -> In r rows ->
  page (ldoc s) = p -> fontSize (ldoc s) = 10 -> rowFont (font (ldoc s)) ->
  let s2 := rowStep p lh rh s r in
  let ls := pageAdded (ldoc s) in
  fontSize (ldoc s2) = 10 /\ rowFont (font (ldoc s2)) /\
  ((pageBottom p < currentY s + rowHeight + 10 /\
    pageCount (ldoc s2) = S (pageCount (ldoc s)) /\
    log (ldoc s2) =
      log (ldoc s) ++ NewPage :: listenerOps p ls
        ++ headerOps p lh rh (top (margins p))
        ++ dataRowOps p "Lato-Bold" 10 r (top (margins p) + headerHeight)) \/
   (currentY s + rowHeight + 10 <= pageBottom p /\
    pageCount (ldoc s2) = pageCount (ldoc s) /\
    log (ldoc s2) =
      log (ldoc s) ++ dataRowOps p (font (ldoc s)) 10 r (currentY s))).
Proof.
  intros (Hlh & Hu & Hh1 & Hh2 & Hrows) Hin Hp Hs Hf. cbv zeta.
  unfold usableHeight, headerHeight, rowHeight in Hu.
  assert (Hrow : forall f cy,
             rowFont f -> cy + rowHeight + 10 <= pageBottom p ->
             breaksOf p (dataRowOps p f 10 r cy) = 0%nat).
  { intros f cy Hfont Hcy. unfold rowHeight in Hcy.
    destruct (Hrows r f Hin Hfont) as [H1 H2].
    unfold dataRowOps. cbn [breaksOf fold_right callBreaks].
    rewrite (textBreaks_fits p f 10 (label r) (cy + 4) _ (Hlh f Hfont))
      by lra.
    rewrite (textBreaks_fits p f 10 (value r) (cy + 4) _ (Hlh f Hfont))
      by lra.
    reflexivity. }
  assert (Hhead : breaksOf p (headerOps p lh rh (top (margins p))) = 0%nat).
  { unfold headerOps. cbn [breaksOf fold_right callBreaks].
    rewrite (textBreaks_fits p "Lato-Bold" 10 lh (top (margins p) + 5) _
               (Hlh _ (or_intror eq_refl))) by lra.
    rewrite (textBreaks_fits p "Lato-Bold" 10 rh (top (margins p) + 5) _
               (Hlh _ (or_intror eq_refl))) by lra.
    reflexivity. }
  unfold rowStep.
  destruct (drawDataRow_spec p r (breakPageIfNeeded p lh rh s))
    as (_ & Hf2 & Hs2 & _ & Hc2 & Hl2 & _).
  cbv zeta in Hc2, Hl2. rewrite Hf2, Hs2, Hc2, Hl2.
  destruct (breakPageIfNeeded_cases p lh rh s)
    as [(Hb & Hp1 & Ha1 & Hf1 & Hs1 & Hc1 & Hl1 & Hy1)|(Hfit & E)].
  - cbv zeta in Hc1, Hl1, Hy1. rewrite Hp in Hc1, Hl1, Hy1, Hp1.
    rewrite Hp1, Ha1, Hf1, Hs1, Hc1, Hl1, Hy1, Hhead.
    rewrite (withPages_fits _ _ _ Hhead).
    assert (Hr : breaksOf p (dataRowOps p "Lato-Bold" 10 r
                               (top (margins p) + headerHeight)) = 0%nat).
    { apply Hrow; [right; reflexivity|]. unfold headerHeight, rowHeight. lra. }
    rewrite Hr, (withPages_fits _ _ _ Hr).
    split; [reflexivity|]. split; [right; reflexivity|]. left.
    split; [exact Hb|]. split; [lia|].
    same_lists.
  - rewrite E, Hp, Hs.
    rewrite (Hrow _ _ Hf Hfit), (withPages_fits _ _ _ (Hrow _ _ Hf Hfit)).
    split; [reflexivity|]. split; [exact Hf|]. right.
    split; [exact Hfit|]. split; [lia | reflexivity].
Qed.

Lemma drawRows_headers (p : Page) (ls : list Listener) (lh rh : string)
      (all : list TableRow) (tail : list Op) (rows : list TableRow) :
  tableTextsFit p all lh rh -> incl rows all ->
  headersRepeated p ls lh rh [] tail ->
  forall s,
    page (ldoc s) = p -> pageAdded (ldoc s) = ls ->
    fontSize (ldoc s) = 10 -> rowFont (font (ldoc s)) ->
    exists T,
      log (ldoc (drawRows p lh rh rows s)) = log (ldoc s) ++ T /\
      (pageCount (ldoc (drawRows p lh rh rows s))
       <= pageCount (ldoc s) + List.length rows)%nat /\
      pageCount (ldoc (drawRows p lh rh rows s))
      = (pageCount (ldoc s) + newPages T)%nat /\
      headersRepeated p ls lh rh rows (T ++ tail).
Proof.
  intros Hfit Hincl Htail. induction rows as [|r rows IH]; intros s Hp Ha Hs Hf.
  - exists []. cbn. rewrite app_nil_r. repeat split; auto; lia.
  - cbn [drawRows fold_left]. fold (drawRows p lh rh rows (rowStep p lh rh s r)).
    destruct (rowStep_page p lh rh s r) as [Hp1 Ha1].
    assert (Hr : In r all) by (apply Hincl; left; reflexivity).
    destruct (rowStep_fit p lh rh all s r Hfit Hr Hp Hs Hf) as (Hs1 & Hf1 & Hcase).
    cbv zeta in Hs1, Hf1, Hcase. rewrite Ha in Hcase.
    destruct (IH (fun x Hx => Hincl x (or_intror Hx)) (rowStep p lh rh s r))
      as (T & Hl & Hle & Hc & HT);
      [congruence | congruence | exact Hs1 | exact Hf1 |].
    rewrite Hl, Hc. cbn [List.length].
    destruct Hcase as [(Hb & Hc1 & Hl1)|(Hb & Hc1 & Hl1)]; rewrite Hl1.
    + eexists. split; [rewrite <- !app_assoc; reflexivity|].
      split; [rewrite Hc, Hc1 in Hle; lia|].
      split.
      { rewrite Hc1. unfold newPages.
        cbn [app filter isNewPage List.length].
        rewrite !filter_app, (filter_none _ (listenerOps_no_page _ _)).
        cbn. lia. }
      intros pre post E. cbn [app] in E.
      destruct pre as [|o pre]; cbn [app] in E.
      * injection E as <-. exists r. eexists. split; [left; reflexivity|].
        rewrite <- !app_assoc. reflexivity.
      * injection E as _ E. rewrite <- !app_assoc in E.
        apply split_after_prefix in E; [|apply listenerOps_no_page].
        destruct E as (pre1 & _ & E).
        apply (split_after_prefix (headerOps p lh rh (top (margins p)))) in E;
          [|reflexivity].
        destruct E as (pre2 & _ & E).
        apply (split_after_prefix
                 (dataRowOps p "Lato-Bold" 10 r (top (margins p) + headerHeight))
                 (T ++ tail)) in E; [|reflexivity].
        destruct E as (pre3 & _ & E).
        apply (headersRepeated_more p ls lh rh rows r _ HT pre3 post E).
    + eexists. split; [rewrite <- !app_assoc; reflexivity|].
      split; [rewrite Hc, Hc1 in Hle; lia|].
      split.
      { rewrite Hc1. unfold newPages. rewrite filter_app, length_app.
        cbn. lia. }
      intros pre post E'.
      apply (split_after_prefix
               (dataRowOps p (font (ldoc s)) 10 r (currentY s))
               (T ++ tail)) in E'; [|reflexivity].
      destruct E' as (pre1 & _ & E').
      apply (headersRepeated_more p ls lh rh rows r _ HT pre1 post E').
Qed.

(** The header at the start of the table, when its texts fit. *)
Lemma tableStart_fit (d : Doc) (rows : list TableRow) (lh rh : string)
      (y0 : option Q) :
  let startY := match y0 with Some v => v | None => y d end in
  tableTextsFit (page d) rows lh rh ->
  startY + headerHeight <= pageBottom (page d) ->
  breaksOf (page d) (headerOps (page d) lh rh startY) = 0%nat.
Proof.
  cbv zeta. intros (Hlh & _ & Hh1 & Hh2 & _) Hy. unfold headerHeight in Hy.
  unfold headerOps. cbn [breaksOf fold_right callBreaks].
  rewrite (textBreaks_fits (page d) "Lato-Bold" 10 lh _ _
             (Hlh _ (or_intror eq_refl))) by lra.
  rewrite (textBreaks_fits (page d) "Lato-Bold" 10 rh _ _
             (Hlh _ (or_intror eq_refl))) by lra.
  reflexivity.
Qed.

(** C3, as the code has it: [drawWideLeftTable] draws the header first, at
    the starting [y]; whenever the check of a data row breaks the page, the
    new page gets what the [pageAdded] listeners draw, then the same header
    at the top margin, and only then the data row, right under the header.
    When every text of the table fits its cell, these are the only pages
    the table adds, so every page added starts with the header. A page the
    surface starts by itself, for a text that does not fit above the bottom
    margin, gets no header. *)
Theorem wideLeftTable_header_repeated (d : Doc) (rows : list TableRow)
        (lh rh : string) (y0 : option Q) :
  let p := page d in
  let ls := pageAdded d in
  let startY := match y0 with Some v => v | None => y d end in
  let s0 := tableStart d lh rh y0 in
  let ops := log (fst (drawWideLeftTable d rows lh rh y0)) in
  let header := headerOps p lh rh (top (margins p)) in
  (exists rest, ops = log d ++ withPages p ls (headerOps p lh rh startY) ++ rest) /\
  (forall k r,
      nth_error rows k = Some r ->
      let s := stateBeforeRow p lh rh rows s0 k in
      pageBottom p < currentY s + rowHeight + 10 ->
      log (ldoc (stateBeforeRow p lh rh rows s0 (S k))) =
        log (ldoc s) ++ NewPage :: listenerOps p ls
          ++ withPages p ls header
          ++ withPages p ls
               (dataRowOps p "Lato-Bold" 10 r (top (margins p) + headerHeight))) /\
  (tableTextsFit p rows lh rh ->
   startY + headerHeight <= pageBottom p ->
   headerRepetitionAsStated d rows lh rh y0 /\
   (pageCount (fst (drawWideLeftTable d rows lh rh y0))
    <= pageCount d + List.length rows)%nat).
Proof.
  cbv zeta.
  destruct (tableStart_spec d lh rh y0) as (Hp & Ha & Hc0 & Hf0 & Hs0 & Hl & _).
  cbv zeta in Hl, Hc0.
  set (line := Line tableX
                 (currentY (drawRows (page d) lh rh rows (tableStart d lh rh y0)))
                 (tableX + tableWidth (page d))
                 (currentY (drawRows (page d) lh rh rows (tableStart d lh rh y0)))).
  split; [|split].
  - unfold drawWideLeftTable. cbv zeta. cbn [fst stroke emit log]. fold line.
    assert (Hpre : forall l s,
               exists T, log (ldoc (drawRows (page d) lh rh l s)) = log (ldoc s) ++ T).
    { induction l as [|r l IH]; intro s; cbn [drawRows fold_left].
      - exists []. rewrite app_nil_r. reflexivity.
      - fold (drawRows (page d) lh rh l (rowStep (page d) lh rh s r)).
        destruct (IH (rowStep (page d) lh rh s r)) as (T & HT). rewrite HT.
        unfold rowStep.
        destruct (drawDataRow_spec (page d) r (breakPageIfNeeded (page d) lh rh s))
          as (_ & _ & _ & _ & _ & Hrow & _).
        cbv zeta in Hrow. rewrite Hrow.
        destruct (breakPageIfNeeded_cases (page d) lh rh s)
          as [(_ & _ & _ & _ & _ & _ & Hlog & _)|(_ & E)].
        + cbv zeta in Hlog. rewrite Hlog. eexists.
          rewrite <- !app_assoc. reflexivity.
        + rewrite E. eexists. rewrite <- !app_assoc. reflexivity. }
    destruct (Hpre rows (tableStart d lh rh y0)) as (T & HT).
    rewrite HT, Hl. eexists. rewrite <- !app_assoc. reflexivity.
  - intros k r Hk Hb.
    rewrite (stateBeforeRow_succ _ _ _ _ _ _ _ Hk).
    destruct (stateBeforeRow_page (page d) lh rh rows (tableStart d lh rh y0) k)
      as [Hpk Hak].
    rewrite Hp in Hpk. rewrite Ha in Hak.
    set (s := stateBeforeRow (page d) lh rh rows (tableStart d lh rh y0) k) in *.
    destruct (drawDataRow_spec (page d) r (breakPageIfNeeded (page d) lh rh s))
      as (_ & _ & _ & _ & _ & Hrow & _).
    cbv zeta in Hrow. rewrite Hrow.
    destruct (breakPageIfNeeded_cases (page d) lh rh s)
      as [(_ & Hp1 & Ha1 & Hf1 & Hs1 & _ & Hlog & Hy1)|(Hfit & _)];
      [|exfalso; lra].
    cbv zeta in Hlog, Hy1.
    rewrite Hp1, Ha1, Hf1, Hs1, Hlog, Hy1, Hpk, Hak.
    same_lists.
  - intros Hfit Hy.
    pose proof (tableStart_fit d rows lh rh y0 Hfit Hy) as Hh. cbv zeta in Hh.
    rewrite Hh, Nat.add_0_r in Hc0. rewrite (withPages_fits _ _ _ Hh) in Hl.
    assert (Htail : headersRepeated (page d) (pageAdded d) lh rh [] [line]).
    { intros pre0 post0 E0. exfalso.
      destruct pre0 as [|o [|o' pre0]]; cbn in E0; discriminate E0. }
    destruct (drawRows_headers (page d) (pageAdded d) lh rh rows [line] rows
                Hfit (incl_refl rows) Htail (tableStart d lh rh y0) Hp Ha Hs0
                (or_introl Hf0)) as (T & HT & Hle & _ & Hrep).
    assert (Hops : log (fst (drawWideLeftTable d rows lh rh y0))
                   = log d ++ headerOps (page d) lh rh
                                (match y0 with Some v => v | None => y d end)
                     ++ T ++ [line]).
    { unfold drawWideLeftTable. cbv zeta. cbn [fst stroke emit log].
      fold line. rewrite HT, Hl, <- !app_assoc. reflexivity. }
    split.
    + intros pre post E. rewrite Hops in E.
      apply app_inv_head in E.
      apply split_after_prefix in E; [|reflexivity].
      destruct E as (pre' & _ & E).
      exact (Hrep pre' post E).
    + unfold drawWideLeftTable. cbv zeta. cbn [fst stroke emit pageCount].
      rewrite Hc0 in Hle. exact Hle.
Qed.

(** ** Blocks taller than a page *)

Lemma rowStep_below_top (p : Page) (lh rh : string) (s : LoopState) (r : TableRow) :
  page (ldoc s) = p -> top (margins p) <= currentY s ->
  top (margins p) <= currentY (rowStep p lh rh s r).
Proof.
  intros Hp Hy. unfold rowStep.
  destruct (drawDataRow_spec p r (breakPageIfNeeded p lh rh s))
    as (_ & _ & _ & _ & _ & _ & Hc).
  rewrite Hc.
  destruct (breakPageIfNeeded_cases p lh rh s)
    as [(_ & _ & _ & _ & _ & _ & _ & Hy')|(_ & E)].
  - cbv zeta in Hy'. rewrite Hy', Hp. unfold headerHeight, rowHeight. lra.
  - rewrite E. unfold rowHeight. lra.
Qed.

Lemma drawRows_below_top (p : Page) (lh rh : string) (rows : list TableRow) :
  forall s, page (ldoc s) = p -> top (margins p) <= currentY s ->
            top (margins p) <= currentY (drawRows p lh rh rows s).
Proof.
  induction rows as [|r rows IH]; intros s Hp Hy; cbn [drawRows fold_left];
    [exact Hy|].
  apply IH.
  - destruct (rowStep_page p lh rh s r) as [Hp' _]. congruence.
  - apply rowStep_below_top; assumption.
Qed.

Lemma oversized_row_breaks (p : Page) (lh rh : string) (s : LoopState) :
  page (ldoc s) = p -> usableHeight p < rowHeight + 10 ->
  top (margins p) <= currentY s ->
  let s' := breakPageIfNeeded p lh rh s in
  pageCount (ldoc s')
  = (S (pageCount (ldoc s)) + breaksOf p (headerOps p lh rh (top (margins p))))%nat /\
  currentY s' = top (margins p) + headerHeight /\
  font (ldoc s') = "Lato-Bold"%string /\ fontSize (ldoc s') = 10 /\
  page (ldoc s') = p.
Proof.
  intros Hp Hu Hy. cbv zeta.
  destruct (breakPageIfNeeded_cases p lh rh s)
    as [(_ & Hp1 & _ & Hf & Hs & Hc & _ & Hy')|(Hfit & _)].
  - cbv zeta in Hc, Hy'. rewrite Hc, Hy', Hp1, Hp. auto.
  - exfalso. unfold usableHeight in Hu. lra.
Qed.

(** On a page too small for one row every row breaks the page and is drawn
    right under the header; the pages added are one per row, and those the
    texts start for themselves. *)
Lemma oversized_rows_all_break (p : Page) (lh rh : string) (rows : list TableRow) :
  usableHeight p < rowHeight + 10 ->
  forall s, page (ldoc s) = p -> top (margins p) <= currentY s ->
            pageCount (ldoc (drawRows p lh rh rows s))
            = (pageCount (ldoc s)
               + List.length rows
                 * S (breaksOf p (headerOps p lh rh (top (margins p))))
               + list_sum
                   (map (fun r =>
                           breaksOf p (dataRowOps p "Lato-Bold" 10 r
                                         (top (margins p) + headerHeight)))
                        rows))%nat.
Proof.
  intro Hu. induction rows as [|r rows IH]; intros s Hp Hy;
    cbn [drawRows fold_left List.length map]; [cbn; lia|].
  fold (drawRows p lh rh rows (rowStep p lh rh s r)).
  destruct (rowStep_page p lh rh s r) as [Hp' _].
  rewrite IH; [| congruence | apply rowStep_below_top; assumption].
  unfold rowStep.
  destruct (drawDataRow_spec p r (breakPageIfNeeded p lh rh s))
    as (_ & _ & _ & _ & Hc & _).
  cbv zeta in Hc.
  destruct (oversized_row_breaks p lh rh s Hp Hu Hy) as (Hc' & Hy' & Hf' & Hs' & Hp1).
  cbv zeta in Hc'. rewrite Hc, Hc', Hy', Hf', Hs', Hp1.
  unfold list_sum. cbn [fold_right]. lia.
Qed.

(** C8, as the code has it: for a block taller than the usable page and a
    cursor at or below the top margin, the room check
    [y + neededHeight > pageBottom] always holds. [ensureSpace] then adds a
    page exactly when the cursor is more than one unit below the top margin
    and leaves the document as it is otherwise; either way the block still
    does not fit below the cursor it is left with. In [drawWideLeftTable] a
    page too small for one row makes every row break the page, and each row
    is still drawn whole, right under the repeated header: the table adds
    one page per row, and the pages the surface starts for the texts that
    do not fit. Nothing shortens the block. *)
Theorem oversized_block_policy :
  (forall (d : Doc) (n : Q),
      usableHeight (page d) < n ->
      top (margins (page d)) <= y d ->
      let d' := ensureSpace d (Some n) in
      pageBottom (page d) < y d + n /\
      (emitsNewPage d d' <-> top (margins (page d)) + 1 < y d) /\
      (y d <= top (margins (page d)) + 1 -> d' = d) /\
      page d' = page d /\
      pageBottom (page d') < y d' + n)
  /\
  (forall (d : Doc) (rows : list TableRow) (lh rh : string) (y0 : option Q),
      let p := page d in
      let s0 := tableStart d lh rh y0 in
      let startY := match y0 with Some v => v | None => y d end in
      let header := headerOps p lh rh (top (margins p)) in
      usableHeight p < rowHeight + 10 ->
      top (margins p) <= currentY s0 ->
      pageCount (fst (drawWideLeftTable d rows lh rh y0))
      = (pageCount d + List.length rows
         + (breaksOf p (headerOps p lh rh startY)
            + List.length rows * breaksOf p header
            + list_sum
                (map (fun r =>
                        breaksOf p (dataRowOps p "Lato-Bold" 10 r
                                      (top (margins p) + headerHeight)))
                     rows)))%nat /\
      (forall k r,
          nth_error rows k = Some r ->
          let sk := stateBeforeRow p lh rh rows s0 k in
          let s := breakPageIfNeeded p lh rh sk in
          currentY s = top (margins p) + headerHeight /\
          stateBeforeRow p lh rh rows s0 (S k) = drawDataRow p r s /\
          pageBottom p < currentY s + rowHeight + 10 /\
          pageCount (ldoc s) = (S (pageCount (ldoc sk)) + breaksOf p header)%nat)).
Proof.
  split.
  - intros d n Hu Hy. cbv zeta. unfold usableHeight in Hu.
    assert (Hcheck : pageBottom (page d) < y d + n) by lra.
    split; [exact Hcheck|].
    destruct (addPage_spec d) as (Hp & _ & _ & _ & Hc & _ & Hy').
    unfold emitsNewPage.
    destruct (ensureSpace_cases d n) as [(_ & Htop & E)|(Hn & E)]; rewrite E.
    + split; [split; auto|]. split; [intro; exfalso; lra|].
      split; [exact Hp|]. rewrite Hp, Hy'. lra.
    + assert (Hle : y d <= top (margins (page d)) + 1).
      { destruct (Qlt_le_dec (top (margins (page d)) + 1) (y d)); [|assumption].
        exfalso. apply Hn. auto. }
      split; [split; [intro; exfalso; lia | intro; exfalso; lra]|].
      split; [reflexivity|]. split; [reflexivity | exact Hcheck].
  - intros d rows lh rh y0. cbv zeta. intros Hu Hy.
    destruct (tableStart_spec d lh rh y0) as (Hp & _ & Hc & _).
    cbv zeta in Hc.
    split.
    + unfold drawWideLeftTable. cbv zeta. cbn [fst stroke emit pageCount].
      rewrite (oversized_rows_all_break (page d) lh rh rows Hu _ Hp Hy), Hc.
      lia.
    + intros k r Hk. cbv zeta.
      destruct (stateBeforeRow_page (page d) lh rh rows (tableStart d lh rh y0) k)
        as [Hpk _].
      assert (Hyk : top (margins (page d))
                    <= currentY (stateBeforeRow (page d) lh rh rows
                                   (tableStart d lh rh y0) k)).
      { apply drawRows_below_top; assumption. }
      destruct (oversized_row_breaks (page d) lh rh _ (eq_trans Hpk Hp) Hu Hyk)
        as (Hc' & Hcy & _).
      cbv zeta in Hc'.
      split; [exact Hcy|]. split; [apply stateBeforeRow_succ; exact Hk|].
      split; [|exact Hc'].
      rewrite Hcy. unfold usableHeight in Hu. unfold headerHeight. lra.
Qed.

(** ** More on the page breaker *)

(** X1: a block no taller than the usable page always finds room after
    [ensureSpace], up to the one unit of tolerance of its guard: the block
    ends at most one unit below the page bottom, and not below it at all
    unless the cursor was within the last unit under the top margin. *)
Theorem ensureSpace_room (d : Doc) (n : Q) :
  n <= usableHeight (page d) ->
  let d' := ensureSpace d (Some n) in
  page d' = page d /\
  y d' + n <= pageBottom (page d) + 1 /\
  (y d <= top (margins (page d)) \/ top (margins (page d)) + 1 < y d ->
   y d' + n <= pageBottom (page d)).
Proof.
  intros Hn. cbv zeta. unfold usableHeight in Hn.
  destruct (addPage_spec d) as (Hp & _ & _ & _ & _ & _ & Hy').
  destruct (ensureSpace_cases d n) as [(H1 & H2 & E)|(Hno & E)]; rewrite E.
  - rewrite Hy'. split; [exact Hp|]. split; [lra | intros _; lra].
  - split; [reflexivity|].
    destruct (Qlt_le_dec (pageBottom (page d)) (y d + n)) as [Hover|Hfit].
    + assert (Hnear : y d <= top (margins (page d)) + 1).
      { destruct (Qlt_le_dec (top (margins (page d)) + 1) (y d)); [|assumption].
        exfalso. apply Hno. auto. }
      split; [lra|]. intros [Ht|Ht]; lra.
    + split; [lra | intros _; exact Hfit].
Qed.

(** X2: two [ensureSpace] calls in a row add at most one page. When the
    first call breaks the page the second one, whatever it asks for, leaves
    the document alone, so no blank page can come out of back-to-back
    checks; asking twice for the same height is the same as asking once. *)
Theorem ensureSpace_twice (d : Doc) (n m : Q) :
  let d1 := ensureSpace d (Some n) in
  let d2 := ensureSpace d1 (Some m) in
  (emitsNewPage d d1 -> d2 = d1) /\
  (pageCount d <= pageCount d2 <= S (pageCount d))%nat /\
  ensureSpace d1 (Some n) = d1.
Proof.
  cbv zeta. unfold emitsNewPage.
  destruct (addPage_spec d) as (Hp & _ & _ & _ & Hc & _ & Hy).
  assert (Hstay : forall k, ensureSpace (addPage d) (Some k) = addPage d).
  { intro k. destruct (ensureSpace_cases (addPage d) k) as [(_ & H & _)|(_ & E)];
      [|exact E].
    exfalso. rewrite Hp, Hy in H. lra. }
  destruct (ensureSpace_cases d n) as [(H1 & H2 & E)|(Hno & E)]; rewrite E.
  - rewrite !Hstay, Hc. repeat split; lia.
  - split; [intro H; exfalso; lia|]. split.
    + destruct (ensureSpace_cases d m) as [(_ & _ & E')|(_ & E')]; rewrite E';
        [rewrite Hc|]; lia.
    + exact E.
Qed.

(** ** More on the wide-left table *)

Lemma drawRows_all_fit (p : Page) (lh rh : string) (rows : list TableRow) :
  forall s,
    (rows = [] \/
     currentY s + rowHeight * ofNat (List.length rows) + 10 <= pageBottom p) ->
    let s' := drawRows p lh rh rows s in
    font (ldoc s') = font (ldoc s) /\
    fontSize (ldoc s') = fontSize (ldoc s) /\
    currentY s' == currentY s + rowHeight * ofNat (List.length rows).
Proof.
  induction rows as [|r rows IH]; intros s H; cbv zeta.
  - cbn [drawRows fold_left List.length]. split; [reflexivity|].
    split; [reflexivity|]. change (ofNat 0) with 0. ring.
  - destruct H as [H|H]; [discriminate H|].
    cbn [List.length] in H |- *. rewrite ofNat_succ in H.
    pose proof (ofNat_nonneg (List.length rows)) as Hn.
    unfold rowHeight in H.
    cbn [drawRows fold_left]. fold (drawRows p lh rh rows (rowStep p lh rh s r)).
    assert (Hstep : rowStep p lh rh s r = drawDataRow p r s).
    { unfold rowStep.
      destruct (breakPageIfNeeded_cases p lh rh s) as [(Hb & _)|(_ & E)];
        [|rewrite E; reflexivity].
      exfalso. unfold rowHeight in Hb. nra. }
    rewrite Hstep.
    destruct (drawDataRow_spec p r s) as (_ & Hf & Hs & _ & _ & _ & Hy).
    destruct (IH (drawDataRow p r s)) as (Hf' & Hs' & Hy').
    { right. rewrite Hy. unfold rowHeight. lra. }
    rewrite Hf', Hs', Hy', Hf, Hs, Hy, ofNat_succ.
    split; [reflexivity|]. split; [reflexivity|]. ring.
Qed.

Lemma firstn_incl {A : Type} (k : nat) (l : list A) : incl (firstn k l) l.
Proof.
  intros x Hx. rewrite <- (firstn_skipn k l). apply in_or_app. left. exact Hx.
Qed.

Lemma drawRows_all_fit_pages (p : Page) (lh rh : string) (all : list TableRow)
      (rows : list TableRow) :
  tableTextsFit p all lh rh -> incl rows all ->
  forall s,
    page (ldoc s) = p -> fontSize (ldoc s) = 10 -> rowFont (font (ldoc s)) ->
    (rows = [] \/
     currentY s + rowHeight * ofNat (List.length rows) + 10 <= pageBottom p) ->
    pageCount (ldoc (drawRows p lh rh rows s)) = pageCount (ldoc s).
Proof.
  intros Hfit. induction rows as [|r rows IH]; intros Hincl s Hp Hs Hf H;
    cbn [drawRows fold_left]; [reflexivity|].
  fold (drawRows p lh rh rows (rowStep p lh rh s r)).
  destruct H as [H|H]; [discriminate H|].
  cbn [List.length] in H. rewrite ofNat_succ in H.
  pose proof (ofNat_nonneg (List.length rows)) as Hn.
  unfold rowHeight in H.
  destruct (rowStep_page p lh rh s r) as [Hp1 _].
  destruct (rowStep_fit p lh rh all s r Hfit (Hincl r (or_introl eq_refl)) Hp Hs Hf)
    as (Hs1 & Hf1 & Hcase).
  cbv zeta in Hs1, Hf1, Hcase.
  assert (Hy : currentY (rowStep p lh rh s r) = currentY s + rowHeight).
  { unfold rowStep.
    destruct (drawDataRow_spec p r (breakPageIfNeeded p lh rh s))
      as (_ & _ & _ & _ & _ & _ & Hy).
    rewrite Hy.
    destruct (breakPageIfNeeded_cases p lh rh s) as [(Hb & _)|(_ & E)];
      [|rewrite E; reflexivity].
    exfalso. unfold rowHeight in Hb. nra. }
  rewrite IH; [| intros x Hx; apply Hincl; right; exact Hx | congruence
               | exact Hs1 | exact Hf1
               | right; rewrite Hy; unfold rowHeight; lra].
  destruct Hcase as [(Hb & _)|(_ & Hc & _)]; [|exact Hc].
  exfalso. unfold rowHeight in Hb. nra.
Qed.

(** X3: when the whole table fits below its starting point, the header
    (20), every row (18 each) and the 10 units of slack, the check of the
    loop never breaks the page: row [k] is drawn at [startY + 20 + 18 k] in
    the regular font, and the result is [startY + 20 + 18 n + 4]. If
    moreover every text fits its cell, no page is added at all and every
    row is drawn on the starting page. *)
Theorem wideLeftTable_fits (d : Doc) (rows : list TableRow) (lh rh : string)
        (y0 : option Q) :
  let p := page d in
  let startY := match y0 with Some v => v | None => y d end in
  let n := ofNat (List.length rows) in
  let s0 := tableStart d lh rh y0 in
  let res := drawWideLeftTable d rows lh rh y0 in
  startY + 20 + 18 * n + 10 <= pageBottom p ->
  snd res == startY + 20 + 18 * n + 4 /\
  (forall k r,
      nth_error rows k = Some r ->
      let sk := stateBeforeRow p lh rh rows s0 k in
      breakPageIfNeeded p lh rh sk = sk /\
      atY (rowTop p lh rh rows s0 k) == startY + 20 + 18 * ofNat k /\
      log (ldoc (stateBeforeRow p lh rh rows s0 (S k))) =
        log (ldoc sk)
        ++ withPages p (pageAdded d) (dataRowOps p "Lato" 10 r (currentY sk))) /\
  (tableTextsFit p rows lh rh ->
   pageCount (fst res) = pageCount d /\
   forall k r, nth_error rows k = Some r ->
               onPage (rowTop p lh rh rows s0 k) = pageCount d).
Proof.
  cbv zeta. intro Hfit.
  destruct (tableStart_spec d lh rh y0) as (Hp & Ha & Hc & Hf & Hs & _ & Hy).
  cbv zeta in Hy, Hc.
  set (startY := match y0 with Some v => v | None => y d end) in *.
  set (s0 := tableStart d lh rh y0) in *.
  pose proof (ofNat_nonneg (List.length rows)) as Hn0.
  destruct (drawRows_all_fit (page d) lh rh rows s0) as (_ & _ & Hy').
  { right. rewrite Hy. unfold headerHeight, rowHeight. lra. }
  assert (Hrow : forall k r,
             nth_error rows k = Some r ->
             let sk := stateBeforeRow (page d) lh rh rows s0 k in
             font (ldoc sk) = "Lato"%string /\ fontSize (ldoc sk) = 10 /\
             currentY sk == startY + 20 + 18 * ofNat k /\
             breakPageIfNeeded (page d) lh rh sk = sk).
  { intros k r Hk. cbv zeta.
    assert (Hlen : (k < List.length rows)%nat)
      by (apply nth_error_Some; congruence).
    pose proof (ofNat_le (S k) (List.length rows) Hlen) as Hle.
    rewrite ofNat_succ in Hle.
    pose proof (ofNat_nonneg k) as Hk0.
    destruct (drawRows_all_fit (page d) lh rh (firstn k rows) s0)
      as (Hfk & Hsk & Hyk).
    { right. rewrite length_firstn, Nat.min_l by lia.
      rewrite Hy. unfold headerHeight, rowHeight. lra. }
    rewrite length_firstn, Nat.min_l in Hyk by lia.
    fold (stateBeforeRow (page d) lh rh rows s0 k) in Hfk, Hsk, Hyk.
    split; [congruence|]. split; [congruence|]. split.
    - rewrite Hyk, Hy. unfold headerHeight, rowHeight. ring.
    - destruct (breakPageIfNeeded_cases (page d) lh rh
                  (stateBeforeRow (page d) lh rh rows s0 k))
        as [(Hb & _)|(_ & E)]; [|exact E].
      exfalso. rewrite Hyk, Hy in Hb. unfold headerHeight, rowHeight in Hb. lra. }
  split; [|split].
  - unfold drawWideLeftTable. cbv zeta. cbn [snd]. fold s0.
    rewrite Hy', Hy. unfold headerHeight, rowHeight. ring.
  - intros k r Hk. cbv zeta.
    destruct (Hrow k r Hk) as (Hfk & Hsk & Hyk & E).
    split; [exact E|]. unfold rowTop. cbv zeta. cbn [atY]. rewrite E.
    split; [exact Hyk|].
    rewrite (stateBeforeRow_succ _ _ _ _ _ _ _ Hk), E.
    destruct (stateBeforeRow_page (page d) lh rh rows s0 k) as [Hpk Hak].
    destruct (drawDataRow_spec (page d) r (stateBeforeRow (page d) lh rh rows s0 k))
      as (_ & _ & _ & _ & _ & Hl & _).
    cbv zeta in Hl. rewrite Hl, Hfk, Hsk, Hpk, Hak, Hp, Ha. reflexivity.
  - intro Htexts.
    assert (Hstart : startY + headerHeight <= pageBottom (page d))
      by (unfold headerHeight; lra).
    pose proof (tableStart_fit d rows lh rh y0 Htexts Hstart) as Hh.
    cbv zeta in Hh. fold startY in Hh. rewrite Hh, Nat.add_0_r in Hc.
    split.
    + unfold drawWideLeftTable. cbv zeta. cbn [fst stroke emit pageCount].
      fold s0.
      rewrite (drawRows_all_fit_pages (page d) lh rh rows rows Htexts
                 (incl_refl rows) s0 Hp Hs (or_introl Hf)); [exact Hc|].
      right. rewrite Hy. unfold headerHeight, rowHeight. lra.
    + intros k r Hk. unfold rowTop. cbv zeta. cbn [onPage].
      destruct (Hrow k r Hk) as (_ & _ & _ & E). rewrite E.
      assert (Hlen : (k < List.length rows)%nat)
        by (apply nth_error_Some; congruence).
      pose proof (ofNat_le k (List.length rows) ltac:(lia)) as Hle.
      unfold stateBeforeRow.
      rewrite (drawRows_all_fit_pages (page d) lh rh rows (firstn k rows) Htexts
                 (firstn_incl k rows) s0 Hp Hs (or_introl Hf));
        [exact Hc|].
      right. rewrite length_firstn, Nat.min_l by lia.
      rewrite Hy. unfold headerHeight, rowHeight.
      pose proof (ofNat_nonneg k). lra.
Qed.

Lemma rowStep_above_bottom (p : Page) (lh rh : string) (s : LoopState) (r : TableRow) :
  page (ldoc s) = p ->
  headerHeight + rowHeight + 10 <= usableHeight p ->
  currentY (breakPageIfNeeded p lh rh s) + rowHeight + 10 <= pageBottom p /\
  currentY (rowStep p lh rh s r) + 10 <= pageBottom p.
Proof.
  intros Hp Hu. unfold rowStep, usableHeight in *.
  destruct (drawDataRow_spec p r (breakPageIfNeeded p lh rh s))
    as (_ & _ & _ & _ & _ & _ & Hy).
  rewrite Hy.
  destruct (breakPageIfNeeded_cases p lh rh s)
    as [(_ & _ & _ & _ & _ & _ & _ & Hy')|(Hfit & E)].
  - rewrite Hy', Hp. split; lra.
  - rewrite E. split; lra.
Qed.

Lemma drawRows_below_header (p : Page) (lh rh : string) (rows : list TableRow) :
  forall s, page (ldoc s) = p ->
            top (margins p) + headerHeight <= currentY s ->
            top (margins p) + headerHeight <= currentY (drawRows p lh rh rows s).
Proof.
  induction rows as [|r rows IH]; intros s Hp Hy; cbn [drawRows fold_left];
    [exact Hy|].
  apply IH.
  - destruct (rowStep_page p lh rh s r) as [Hp' _]. congruence.
  - unfold rowStep.
    destruct (drawDataRow_spec p r (breakPageIfNeeded p lh rh s))
      as (_ & _ & _ & _ & _ & _ & Hc).
    rewrite Hc.
    destruct (breakPageIfNeeded_cases p lh rh s)
      as [(_ & _ & _ & _ & _ & _ & _ & Hy')|(_ & E)].
    + rewrite Hy', Hp. unfold rowHeight. lra.
    + rewrite E. unfold rowHeight. lra.
Qed.

(** X5: on a page that can hold the header, one row and the slack
    (48 units between the margins), every data row of [drawWideLeftTable]
    ends at least 10 units above the bottom margin, wherever the table was
    started; started at or below the top margin, every row also begins at
    least 20 units below it; and the result stays 6 units above the bottom
    margin once a row was drawn. *)
Theorem wideLeftTable_rows_inside (d : Doc) (rows : list TableRow)
        (lh rh : string) (y0 : option Q) :
  let p := page d in
  let startY := match y0 with Some v => v | None => y d end in
  let s0 := tableStart d lh rh y0 in
  48 <= usableHeight p ->
  (forall k r,
      nth_error rows k = Some r ->
      atY (rowAfter p lh rh rows s0 k) + 10 <= pageBottom p /\
      (top (margins p) <= startY ->
       top (margins p) + 20 <= atY (rowTop p lh rh rows s0 k))) /\
  (rows <> [] -> snd (drawWideLeftTable d rows lh rh y0) + 6 <= pageBottom p).
Proof.
  cbv zeta. intro Hu.
  destruct (tableStart_spec d lh rh y0) as (Hp & _ & _ & _ & _ & _ & Hy0).
  cbv zeta in Hy0.
  assert (Hu' : headerHeight + rowHeight + 10 <= usableHeight (page d))
    by (unfold headerHeight, rowHeight; lra).
  assert (Hstep : forall k r,
             nth_error rows k = Some r ->
             currentY (stateBeforeRow (page d) lh rh rows
                         (tableStart d lh rh y0) (S k)) + 10
             <= pageBottom (page d)).
  { intros k r Hk.
    rewrite (stateBeforeRow_succ _ _ _ _ _ _ _ Hk).
    destruct (stateBeforeRow_page (page d) lh rh rows (tableStart d lh rh y0) k)
      as [Hpk _].
    apply (rowStep_above_bottom (page d) lh rh _ r (eq_trans Hpk Hp) Hu'). }
  split.
  - intros k r Hk. unfold rowAfter, rowTop. cbv zeta. cbn [atY].
    split; [exact (Hstep k r Hk)|].
    intro Htop.
    destruct (stateBeforeRow_page (page d) lh rh rows (tableStart d lh rh y0) k)
      as [Hpk _].
    assert (Hk' : top (margins (page d)) + headerHeight
                  <= currentY (stateBeforeRow (page d) lh rh rows
                                 (tableStart d lh rh y0) k)).
    { apply drawRows_below_header; [exact Hp|]. rewrite Hy0. lra. }
    destruct (breakPageIfNeeded_cases (page d) lh rh
                (stateBeforeRow (page d) lh rh rows (tableStart d lh rh y0) k))
      as [(_ & _ & _ & _ & _ & _ & _ & Hy')|(_ & E)].
    + rewrite Hy', Hpk, Hp. unfold headerHeight. lra.
    + rewrite E. unfold headerHeight in Hk'. exact Hk'.
  - intro Hne.
    unfold drawWideLeftTable. cbv zeta. cbn [snd].
    rewrite <- stateBeforeRow_all.
    destruct (List.length rows) as [|k] eqn:Hlen.
    + exfalso. apply Hne. apply length_zero_iff_nil. exact Hlen.
    + destruct (nth_error rows k) as [r|] eqn:Hk.
      * pose proof (Hstep k r Hk). lra.
      * exfalso. apply nth_error_None in Hk. lia.
Qed.

(** The font the loop holds before row [k]: the regular one until the check
    of a row breaks the page, the header's bold one from then on. *)
Lemma loop_font_invariant (p : Page) (lh rh : string) (rows : list TableRow)
      (s0 : LoopState) :
  font (ldoc s0) = "Lato"%string -> fontSize (ldoc s0) = 10 ->
  forall k,
    (k <= List.length rows)%nat ->
    let sk := stateBeforeRow p lh rh rows s0 k in
    fontSize (ldoc sk) = 10 /\
    (pageCount (ldoc s0) <= pageCount (ldoc sk))%nat /\
    font (ldoc sk) =
      (if existsb (fun j => checkFires p (stateBeforeRow p lh rh rows s0 j)) (seq 0 k)
       then "Lato-Bold" else "Lato")%string.
Proof.
  intros Hf0 Hs0. induction k as [|k IH]; intro Hk; cbv zeta.
  - cbn. auto.
  - destruct (nth_error rows k) as [r|] eqn:Hr;
      [|apply nth_error_None in Hr; lia].
    destruct (IH ltac:(lia)) as (Hs & Hc & Hf). cbv zeta in Hs, Hc, Hf.
    rewrite (stateBeforeRow_succ _ _ _ _ _ _ _ Hr).
    rewrite seq_S, existsb_app. cbn [Nat.add existsb]. rewrite orb_false_r.
    set (sk := stateBeforeRow p lh rh rows s0 k) in *.
    destruct (drawDataRow_spec p r (breakPageIfNeeded p lh rh sk))
      as (_ & Hf' & Hs' & _ & Hc' & _).
    cbv zeta in Hc'. rewrite Hf', Hs', Hc'.
    unfold checkFires.
    destruct (breakPageIfNeeded_cases p lh rh sk)
      as [(Hb & _ & _ & Hbf & Hbs & Hbc & _)|(Hfit & E)].
    + cbv zeta in Hbc. rewrite Hbf, Hbs, Hbc.
      destruct (Qlt_le_dec (pageBottom p) (currentY sk + rowHeight + 10));
        [|exfalso; lra].
      rewrite orb_true_r. split; [reflexivity|]. split; [lia | reflexivity].
    + rewrite E, Hs, Hf.
      destruct (Qlt_le_dec (pageBottom p) (currentY sk + rowHeight + 10));
        [exfalso; lra|].
      rewrite orb_false_r. split; [reflexivity|]. split; [lia | reflexivity].
Qed.

(** X6: the regular font is set once, before the loop, and the header that
    is redrawn after a page break leaves its bold font behind: a data row
    is set in Lato at size 10 as long as no check of the loop has broken
    the page, its own included, and in Lato-Bold at size 10 from the first
    such break on. *)
Theorem wideLeftTable_row_font (d : Doc) (rows : list TableRow)
        (lh rh : string) (y0 : option Q) (k : nat) (r : TableRow) :
  let p := page d in
  let s0 := tableStart d lh rh y0 in
  let s := breakPageIfNeeded p lh rh (stateBeforeRow p lh rh rows s0 k) in
  let f := (if brokeUpTo p lh rh rows s0 k then "Lato-Bold" else "Lato")%string in
  nth_error rows k = Some r ->
  (pageCount d <= pageCount (ldoc s))%nat /\
  font (ldoc s) = f /\ fontSize (ldoc s) = 10 /\
  log (ldoc (stateBeforeRow p lh rh rows s0 (S k))) =
    log (ldoc s) ++ withPages p (pageAdded d) (dataRowOps p f 10 r (currentY s)).
Proof.
  cbv zeta. intro Hk.
  destruct (tableStart_spec d lh rh y0) as (Hp & Ha & Hc & Hf & Hs & _).
  cbv zeta in Hc.
  assert (Hlen : (k < List.length rows)%nat) by (apply nth_error_Some; congruence).
  destruct (loop_font_invariant (page d) lh rh rows (tableStart d lh rh y0)
              Hf Hs k ltac:(lia)) as (Hsk & Hck & Hfk).
  cbv zeta in Hsk, Hck, Hfk.
  destruct (stateBeforeRow_page (page d) lh rh rows (tableStart d lh rh y0) k)
    as [Hpk Hak].
  rewrite Hp in Hpk. rewrite Ha in Hak.
  rewrite (stateBeforeRow_succ _ _ _ _ _ _ _ Hk).
  unfold brokeUpTo. rewrite seq_S, existsb_app. cbn [Nat.add existsb].
  rewrite orb_false_r.
  set (sk := stateBeforeRow (page d) lh rh rows (tableStart d lh rh y0) k) in *.
  destruct (drawDataRow_spec (page d) r (breakPageIfNeeded (page d) lh rh sk))
    as (_ & _ & _ & _ & _ & Hl & _).
  cbv zeta in Hl. rewrite Hl. unfold checkFires.
  destruct (breakPageIfNeeded_cases (page d) lh rh sk)
    as [(Hb & Hbp & Hba & Hbf & Hbs & Hbc & _)|(Hfit & E)].
  - cbv zeta in Hbc. rewrite Hbp, Hba, Hbf, Hbs, Hbc, Hpk, Hak.
    destruct (Qlt_le_dec (pageBottom (page d)) (currentY sk + rowHeight + 10));
      [|exfalso; lra].
    rewrite orb_true_r. repeat split. lia.
  - rewrite E, Hfk, Hsk, Hpk, Hak.
    destruct (Qlt_le_dec (pageBottom (page d)) (currentY sk + rowHeight + 10));
      [exfalso; lra|].
    rewrite orb_false_r. repeat split. lia.
Qed.

(** ** The closing logo *)

(** X10: [addHeritageLogo] places the logo only when the cursor is at 725
    or above it and the image loads; its top edge is then the middle of
    the space left between [cursor + 5] and [pageHeight - 60], minus 35,
    so it clears the cursor by 5 exactly when 75 units are left above
    [pageHeight - 60]; closer to the end of the page it is drawn over what
    precedes the cursor. Its left edge is the centred position shifted
    right by 30. *)
Theorem addHeritageLogo_placement (found : bool) (d : Doc) :
  (725 < y d \/ found = false -> addHeritageLogo found d = None) /\
  (y d <= 725 -> found = true ->
   exists x0 y1,
     addHeritageLogo found d = Some (Image logoPath x0 y1 100) /\
     x0 == (width (page d) - 100) / 2 + 30 /\
     y1 == (y d + 5 + maxHeight d) / 2 - 35 /\
     (y d + 5 <= y1 <-> y d + 75 <= maxHeight d)).
Proof.
  unfold addHeritageLogo. cbv zeta. split.
  - intros [H|H].
    + destruct (Qlt_le_dec 725 (y d)); [reflexivity | exfalso; lra].
    + rewrite H. destruct (Qlt_le_dec 725 (y d)); reflexivity.
  - intros Hy ->.
    destruct (Qlt_le_dec 725 (y d)); [exfalso; lra|].
    eexists. eexists. split; [reflexivity|].
    unfold logoCenter, coverNoteLogoSize, coverNoteLogoLeftOffset,
      coverNoteLogoTopOffset.
    set (h := (maxHeight d - (y d + 5)) / 2).
    assert (Hh : 2 * h == maxHeight d - (y d + 5)) by (unfold h; field).
    split; [reflexivity|]. split.
    + setoid_replace ((y d + 5 + maxHeight d) / 2) with (y d + 5 + h)
        by (unfold h; field). ring.
    + split; intro H; lra.
Qed.

(** ** More on the row primitives *)

Lemma drawCells_font (cells : list string) (fontName : string)
      (w textWidth valueFromTop rowH : Q) :
  forall (i : nat) (d : Doc),
    cells <> [] ->
    let d' := drawCells cells i fontName w textWidth valueFromTop rowH d in
    font d' = fontName /\ fontSize d' = 9.
Proof.
  induction cells as [|c rest IH]; intros i d Hne; [contradiction|].
  cbn [drawCells]. cbv zeta.
  destruct rest as [|c' rest'].
  - cbn [drawCells].
    match goal with |- context [text ?s ?x ?y ?w ?a ?d0] =>
      destruct (text_spec s x y w a d0) as (_ & Hf & Hs & _) end.
    cbv zeta in Hf, Hs. rewrite Hf, Hs. cbn. auto.
  - apply IH. discriminate.
Qed.

Lemma separators_font (w bp e : Q) (l : list nat) :
  forall d : Doc,
    let d' := fold_left
                (fun d i =>
                   if Nat.eqb i 0 then d
                   else drawVerticalLine d (e - bp) (leftMargin + w * ofNat i) bp)
                l d in
    font d' = font d /\ fontSize d' = fontSize d.
Proof.
  induction l as [|i l IH]; intro d; cbn [fold_left]; [auto|].
  cbv zeta in IH. destruct (Nat.eqb i 0); [apply IH|].
  destruct (IH (drawVerticalLine d (e - bp) (leftMargin + w * ofNat i) bp))
    as [Hf Hs].
  rewrite Hf, Hs. auto.
Qed.

(** One fixed-height row, as a whole. *)
Lemma fixedRow_spec (d : Doc) (texts : list string) (vft bp : Q)
      (f : option string) (F : Q) (cols : option nat) :
  let w := insideWidth d / ofNat (match cols with Some c => c | None => 6%nat end) in
  let e := vft + F + 5 in
  let res := generateInformationLineWithFixedHeight d texts vft bp f F cols in
  let cells := cellOps texts 0 (fontOr f) w (w - 5) vft F (font d) (fontSize d) in
  snd res = (e + 5, e) /\
  page (fst res) = page d /\ pageAdded (fst res) = pageAdded d /\
  pageCount (fst res) = (pageCount d + breaksOf (page d) cells)%nat /\
  (texts <> [] -> font (fst res) = fontOr f /\ fontSize (fst res) = 9) /\
  log (fst res) =
    log d
    ++ withPages (page d) (pageAdded d) cells
    ++ map (separatorOp w bp e) (seq 1 (List.length texts - 1))
    ++ [Line leftMargin e (width (page d) - rightMargin) e].
Proof.
  cbv zeta.
  unfold generateInformationLineWithFixedHeight. cbv zeta. cbn [fst snd].
  match goal with |- context [drawLine (drawSeparators _ ?w _ _ (drawCells _ _ ?fn _ _ _ _ _)) _] =>
    destruct (row_spec texts fn w vft bp F d) as (Hp & Ha & Hc & Hl);
    pose proof (drawCells_font texts fn w (w - 5) vft F 0 d) as Hfont;
    pose proof (separators_font w bp (vft + F + 5) (seq 0 (List.length texts))
                  (drawCells texts 0 fn w (w - 5) vft F d)) as Hsep
  end.
  cbv zeta in Hp, Ha, Hc, Hl, Hfont, Hsep.
  split; [reflexivity|]. split; [exact Hp|]. split; [exact Ha|].
  split; [exact Hc|]. split; [|exact Hl].
  intro Hne. destruct (Hfont Hne) as [Hf Hs]. destruct Hsep as [Hf' Hs'].
  unfold drawLine, stroke. cbn [emit font fontSize]. unfold drawSeparators.
  rewrite Hf', Hs'. auto.
Qed.

Lemma reduceMaxHeight_fonts (d d' : Doc) (texts : list string) (tw : Q) :
  font d = font d' -> fontSize d = fontSize d' ->
  reduceMaxHeight d texts tw = reduceMaxHeight d' texts tw.
Proof.
  intros Hf Hs. unfold reduceMaxHeight, measure. rewrite Hf, Hs. reflexivity.
Qed.

Lemma uniformCellHeight_page (d d' : Doc) :
  page d = page d' -> uniformCellHeight d = uniformCellHeight d'.
Proof.
  intro Hp. unfold uniformCellHeight, insideWidth. cbv zeta. rewrite Hp.
  rewrite (reduceMaxHeight_fonts (setFontSize 9 (setFont "Title" d))
             (setFontSize 9 (setFont "Title" d')) _ _ eq_refl eq_refl).
  rewrite (reduceMaxHeight_fonts
             (setFontSize 9 (setFont "Normal" (setFontSize 9 (setFont "Title" d))))
             (setFontSize 9 (setFont "Normal" (setFontSize 9 (setFont "Title" d'))))
             _ _ eq_refl eq_refl).
  reflexivity.
Qed.

(** X7: the tax table is one rule at [y], then two rows of the same height
    [H], the uniform cell height, at least 14: the labels in the bold font
    and the values in the regular one. The separators of the first row
    start on the top rule and those of the second row on the first row's
    bottom rule, so the grid has no gap; each row has five separators. The
    table returns [y + 2 H + 28]; it calls for no page itself, so the pages
    it adds are those the surface starts for cell texts that do not fit
    above the bottom margin. The first cell of each row is measured in the
    font the previous step left behind: the regular one for the first
    label, the bold one for the first value. *)
Theorem taxTable_layout (d : Doc) (y0 : Q) :
  let H := uniformCellHeight d in
  let w := insideWidth d / 6 in
  let e1 := y0 + 8 + H + 5 in
  let e2 := e1 + 5 + H + 5 in
  let rule := fun v => Line leftMargin v (width (page d) - rightMargin) v in
  let labels := cellOps labelTexts 0 "Title" w (w - 5) (y0 + 8) H "Normal" 9 in
  let values := cellOps valueTexts 0 "Normal" w (w - 5) (e1 + 5) H "Title" 9 in
  let res := generateTaxInformationTable d y0 in
  snd res == y0 + 2 * H + 28 /\
  y0 + 56 <= snd res /\
  pageCount (fst res)
  = (pageCount d + breaksOf (page d) labels + breaksOf (page d) values)%nat /\
  log (fst res) =
    log d
    ++ [rule y0]
    ++ withPages (page d) (pageAdded d) labels
    ++ map (separatorOp w y0 e1) (seq 1 5)
    ++ [rule e1]
    ++ withPages (page d) (pageAdded d) values
    ++ map (separatorOp w e1 e2) (seq 1 5)
    ++ [rule e2].
Proof.
  cbv zeta.
  assert (H14 : 14 <= uniformCellHeight d).
  { unfold uniformCellHeight. cbv zeta.
    match goal with |- 14 <= Qmax ?a ?b =>
      pose proof (Q.le_max_l a b) as H1 end.
    match type of H1 with Qmax ?x ?m <= _ =>
      pose proof (Q.le_max_r x m) as H2 end.
    unfold minCellHeight in *. lra. }
  remember (uniformCellHeight d) as H eqn:EH.
  set (d2 := setFontSize 9 (setFont "Normal" (drawLine d y0))).
  destruct (fixedRow_spec d2 labelTexts (y0 + 8) y0 (Some "Title"%string) H None)
    as (Hs1 & Hp1 & Ha1 & Hc1 & Hf1 & Hl1).
  cbv zeta in Hs1, Hl1, Hc1.
  destruct (generateInformationLineWithFixedHeight d2 labelTexts (y0 + 8) y0
              (Some "Title"%string) H None) as [d3 [v3 b3]] eqn:E3.
  cbn [fst snd] in Hs1, Hp1, Ha1, Hc1, Hf1, Hl1. injection Hs1 as -> ->.
  destruct (Hf1 ltac:(discriminate)) as [Hf3 Hz3].
  destruct (fixedRow_spec d3 valueTexts (y0 + 8 + H + 5 + 5) (y0 + 8 + H + 5)
              (Some "Normal"%string) H None)
    as (Hs2 & Hp2 & Ha2 & Hc2 & _ & Hl2).
  cbv zeta in Hs2, Hl2, Hc2.
  destruct (generateInformationLineWithFixedHeight d3 valueTexts
              (y0 + 8 + H + 5 + 5) (y0 + 8 + H + 5)
              (Some "Normal"%string) H None) as [d4 [v4 b4]] eqn:E4.
  cbn [fst snd] in Hs2, Hp2, Ha2, Hc2, Hl2. injection Hs2 as -> ->.
  assert (E : generateTaxInformationTable d y0
              = (d4, y0 + 8 + H + 5 + 5 + H + 5 + 5)).
  { unfold generateTaxInformationTable. cbv zeta.
    rewrite (uniformCellHeight_page (drawLine d y0) d eq_refl), <- EH.
    fold d2. rewrite E3, E4. reflexivity. }
  clear EH E3 E4. rewrite E. cbn [fst snd].
  split; [clear - H; lra|]. split; [clear - H14; lra|].
  rewrite Hc2, Hc1, Hl2, Hl1, Hf3, Hz3, Hp1, Ha1.
  unfold insideWidth. rewrite Hp1.
  cbn [drawLine stroke emit setFont setFontSize page pageAdded pageCount log
       font fontSize d2].
  split; [reflexivity|].
  rewrite <- !app_assoc. reflexivity.
Qed.

Lemma separators_filters (w bp e : Q) (l : list nat) :
  filter isText (map (separatorOp w bp e) l) = [] /\
  filter isLine (map (separatorOp w bp e) l) = map (separatorOp w bp e) l.
Proof.
  induction l as [|i l [IH1 IH2]]; cbn; [auto|].
  rewrite IH1. unfold separatorOp in *. cbv zeta in *. rewrite IH2. auto.
Qed.

(** The text calls and the lines in what a row logs. *)
Lemma row_filters (p : Page) (ls : list Listener) (cells : list Op)
      (rule : Op) (w bp e : Q) (l : list nat) :
  forallb isText cells = true -> isLine rule = true ->
  filter isText (withPages p ls cells ++ map (separatorOp w bp e) l ++ [rule])
  = cells /\
  filter isLine (withPages p ls cells ++ map (separatorOp w bp e) l ++ [rule])
  = map (separatorOp w bp e) l ++ [rule].
Proof.
  intros Hc Hr.
  destruct (withPages_filters p ls cells) as (_ & H2 & H3).
  destruct (separators_filters w bp e l) as [S1 S2].
  assert (Hall : filter isText cells = cells /\ filter isLine cells = []).
  { clear - Hc. induction cells as [|o l IH]; [cbn; auto|].
    cbn [forallb] in Hc. apply andb_true_iff in Hc. destruct Hc as [Ho Hl].
    destruct (IH Hl) as [I1 I2].
    destruct o; try discriminate Ho. cbn. rewrite I1, I2. auto. }
  destruct Hall as [A1 A2].
  rewrite !filter_app, H2, H3, S1, S2, A1, A2.
  destruct rule; try discriminate Hr. cbn. rewrite app_nil_r. auto.
Qed.

(** X8: when the document is already in the row's font at size 9, so that
    the heights [generateInformationLine] measures for the row height are
    the heights it centres with, every cell's text is asked to be drawn
    inside the row: it starts at most one unit above [valueFromTop] and its
    measured height ends at or above [valueFromTop + rowHeight], five units
    or more above the bottom rule. The call returns the next cursor,
    [valueFromTop + rowHeight + 10], and the ending point,
    [valueFromTop + rowHeight + 5]. *)
Theorem informationLine_text_inside (d : Doc) (texts : list string)
        (vft bp : Q) (f : option string) (k : nat) (c : string) :
  let w := insideWidth d / 6 in
  let H := computedRowHeight d texts (w - 5) in
  let h := heightOfString (fontOr f) 9 c (w - 5) in
  let res := generateInformationLine d texts vft bp f in
  font d = fontOr f ->
  fontSize d = 9 ->
  nth_error texts k = Some c ->
  exists x0 textY rest,
    log (fst res) = log d ++ rest /\
    nth_error (filter isText rest) k
    = Some (Text (fontOr f) 9 c x0 textY (w - 5) AlignCenter) /\
    vft - 1 <= textY /\
    textY + h <= vft + H /\
    snd res = (vft + H + 5 + 5, vft + H + 5).
Proof.
  cbv zeta. intros Hf Hs Hk.
  set (w := insideWidth d / 6).
  assert (Hh : heightOfString (fontOr f) 9 c (w - 5)
               <= computedRowHeight d texts (w - 5)).
  { pose proof (computedRowHeight_spec d texts (w - 5)) as E.
    pose proof (rowHeightSpec_upper (map (fun t => measure d t (w - 5)) texts)) as U.
    rewrite Forall_forall in U.
    assert (Hin : In (measure d c (w - 5)) (map (fun t => measure d t (w - 5)) texts)).
    { apply (in_map (fun t => measure d t (w - 5))).
      eapply nth_error_In. exact Hk. }
    specialize (U _ Hin). unfold measure in U at 1. rewrite Hf, Hs in U.
    clear - U E. lra. }
  destruct (generateInformationLine_spec d texts vft bp f)
    as (Hsnd & _ & _ & Hlog).
  cbv zeta in Hsnd, Hlog. fold w in Hsnd, Hlog.
  remember (computedRowHeight d texts (w - 5)) as H eqn:EH.
  remember (heightOfString (fontOr f) 9 c (w - 5)) as h eqn:Eh.
  pose proof (cellOps_nth texts (fontOr f) w (w - 5) vft H 0%nat
                (font d) (fontSize d) k c Hk) as Hn.
  assert (Hm : heightOfString (if Nat.eqb k 0 then font d else fontOr f)
                              (if Nat.eqb k 0 then fontSize d else 9) c (w - 5) = h).
  { rewrite Eh, Hf, Hs. destruct (Nat.eqb k 0); reflexivity. }
  rewrite Hm in Hn.
  destruct (cellOps_length texts (fontOr f) w (w - 5) vft H 0%nat
              (font d) (fontSize d)) as [_ Ht].
  eexists. exists (cellTextY vft H h). eexists.
  split; [exact Hlog|]. split.
  { rewrite (proj1 (row_filters (page d) (pageAdded d) _
                      (Line leftMargin (vft + H + 5) (width (page d) - rightMargin)
                            (vft + H + 5))
                      w bp (vft + H + 5) (seq 1 (List.length texts - 1))
                      Ht eq_refl)).
    exact Hn. }
  split; [|split].
  - unfold cellTextY. destruct (Qeq_dec h H) as [E|N]; [clear - Hh; lra|].
    set (z := (H - h) / 2). assert (Hz : 2 * z == H - h) by (unfold z; field).
    clear - Hh Hz. lra.
  - unfold cellTextY. destruct (Qeq_dec h H) as [E|N]; [clear - E; lra|].
    set (z := (H - h) / 2). assert (Hz : 2 * z == H - h) by (unfold z; field).
    clear - Hh Hz. lra.
  - exact Hsnd.
Qed.

(** X9: in a fixed-height row the text box of a column never crosses a
    separator. Column [k] lies between the separators at
    [leftMargin + width k] and [leftMargin + width (k + 1)]; from the second
    column on the box starts 2.5 after the left one and ends 2.5 before the
    right one, while the first column's box starts on the left margin and
    ends 5 before the first separator. Separator [i] is drawn at
    [leftMargin + width i], and with as many columns as cells the last
    column ends at [leftMargin + insideWidth]. *)
Theorem fixedHeightRow_columns (d : Doc) (texts : list string) (vft bp : Q)
        (f : option string) (F : Q) (cols : option nat) (k : nat) (c : string) :
  let n := match cols with Some c => c | None => 6%nat end in
  let w := insideWidth d / ofNat n in
  let e := vft + F + 5 in
  let res := generateInformationLineWithFixedHeight d texts vft bp f F cols in
  let sepX := fun i => leftMargin + w * ofNat i in
  nth_error texts k = Some c ->
  exists x0 textY rest,
    log (fst res) = log d ++ rest /\
    nth_error (filter isText rest) k
    = Some (Text (fontOr f) 9 c x0 textY (w - 5) AlignCenter) /\
    (k = 0%nat -> x0 = leftMargin /\ x0 + (w - 5) == sepX 1%nat - 5) /\
    (k <> 0%nat -> x0 == sepX k + 2.5 /\ x0 + (w - 5) == sepX (S k) - 2.5) /\
    (forall i, (i < List.length texts - 1)%nat ->
               nth_error (filter isLine rest) i
               = Some (Line (sepX (S i)) bp (sepX (S i)) (bp + (e - bp)))) /\
    (n <> 0%nat -> sepX n == leftMargin + insideWidth d).
Proof.
  cbv zeta. intro Hk.
  set (n := match cols with Some c0 => c0 | None => 6%nat end).
  set (w := insideWidth d / ofNat n).
  destruct (fixedRow_spec d texts vft bp f F cols) as (_ & _ & _ & _ & _ & Hl).
  cbv zeta in Hl. fold n in Hl. fold w in Hl.
  pose proof (cellOps_nth texts (fontOr f) w (w - 5) vft F 0%nat
                (font d) (fontSize d) k c Hk) as Hn.
  destruct (cellOps_length texts (fontOr f) w (w - 5) vft F 0%nat
              (font d) (fontSize d)) as [Hlen Ht].
  eexists. eexists. eexists.
  split; [exact Hl|].
  destruct (row_filters (page d) (pageAdded d) _
              (Line leftMargin (vft + F + 5) (width (page d) - rightMargin)
                    (vft + F + 5))
              w bp (vft + F + 5) (seq 1 (List.length texts - 1)) Ht eq_refl)
    as [R1 R2].
  rewrite R1, R2.
  split; [exact Hn|].
  split; [|split; [|split]].
  - intros ->. cbn [Nat.add Nat.eqb]. split; [reflexivity|].
    change (ofNat 1) with 1. ring.
  - intro Hk0. cbn [Nat.add].
    destruct (Nat.eqb_spec k 0) as [E|_]; [contradiction|].
    split; [ring|]. rewrite ofNat_succ. ring.
  - intros i Hi.
    rewrite nth_error_app1 by (rewrite length_map, length_seq; exact Hi).
    rewrite nth_error_map.
    rewrite (nth_error_nth' _ 0%nat) by (rewrite length_seq; exact Hi).
    rewrite seq_nth by exact Hi. reflexivity.
  - intro Hn0.
    assert (Hq : ~ ofNat n == 0).
    { unfold ofNat. change 0 with (inject_Z 0). rewrite inject_Z_injective. lia. }
    unfold w. field. exact Hq.
Qed.
(** ** The key-value table *)

Lemma ensureSpace_frame (d : Doc) (n : Q) :
  let d' := ensureSpace d (Some n) in
  page d' = page d /\ font d' = font d /\ fontSize d' = fontSize d /\
  pageAdded d' = pageAdded d.
Proof.
  cbv zeta. destruct (ensureSpace_cases d n) as [(_ & _ & ->)|(_ & ->)]; [|auto].
  destruct (addPage_spec d) as (Hp & Hf & Hs & Ha & _). auto.
Qed.

Lemma listenerOps_no_text (p : Page) (ls : list Listener) :
  filter isText (listenerOps p ls) = [].
Proof.
  unfold listenerOps. induction ls as [|l ls IH]; [reflexivity|exact IH].
Qed.

Lemma pageOps_rowFont (p : Page) (ls : list Listener) (n : nat) :
  Forall inRowFont (pageOps p ls n).
Proof.
  induction n as [|n IH]; cbn [pageOps]; [constructor|].
  constructor; [exact I|]. apply Forall_app. split; [|exact IH].
  unfold listenerOps. apply Forall_forall. intros o Ho.
  apply in_map_iff in Ho. destruct Ho as (l & <- & _). exact I.
Qed.

Lemma withPages_rowFont (p : Page) (ls : list Listener) (calls : list Op) :
  Forall inRowFont calls -> Forall inRowFont (withPages p ls calls).
Proof.
  induction 1 as [|o calls Ho _ IH]; [constructor|].
  unfold withPages. cbn [flat_map]. apply Forall_app. split; [|exact IH].
  destruct o; cbn [callLog]; try (constructor; [exact Ho|constructor]).
  constructor; [exact Ho|apply pageOps_rowFont].
Qed.

Lemma keyValueRow_spec (options : KeyValueOptions)
      (entries : list (string * string)) (col1Label : string)
      (d : Doc) (e : string * string) :
  let d' := keyValueRow options entries col1Label d e in
  let p := page d in
  let calls := fun rowY =>
    [ Text (font d) (fontSize d) (fst e) keyX rowY
           (keyWidth options entries col1Label)
           (alignOr (optAlign1 options) AlignLeft);
      Text (font d) (fontSize d) (snd e) (countX options entries col1Label) rowY
           (countWidth options) (alignOr (optAlign2 options) AlignRight) ] in
  page d' = p /\ font d' = font d /\ fontSize d' = fontSize d /\
  pageAdded d' = pageAdded d /\
  ((pageBottom p < y d + 14 /\ top (margins p) + 1 < y d /\
    log d' = log d ++ NewPage :: listenerOps p (pageAdded d)
               ++ withPages p (pageAdded d) (calls (top (margins p)))) \/
   (~ (pageBottom p < y d + 14 /\ top (margins p) + 1 < y d) /\
    log d' = log d ++ withPages p (pageAdded d) (calls (y d)))).
Proof.
  cbv zeta. unfold keyValueRow. cbv zeta.
  destruct (ensureSpace_frame d 14) as (Hp & Hf & Hs & Ha). cbv zeta in Hp, Hf, Hs, Ha.
  set (d0 := ensureSpace d (Some 14)) in *.
  destruct (text_spec (fst e) keyX (y d0) (keyWidth options entries col1Label)
              (alignOr (optAlign1 options) AlignLeft) d0)
    as (Hp1 & Hf1 & Hs1 & Ha1 & _ & Hl1).
  cbv zeta in Hl1.
  set (d1 := text (fst e) keyX (y d0) (keyWidth options entries col1Label)
               (alignOr (optAlign1 options) AlignLeft) d0) in *.
  destruct (text_spec (snd e) (countX options entries col1Label) (y d0)
              (countWidth options) (alignOr (optAlign2 options) AlignRight) d1)
    as (Hp2 & Hf2 & Hs2 & Ha2 & _ & Hl2).
  cbv zeta in Hl2.
  rewrite Hp2, Hf2, Hs2, Ha2, Hp1, Hf1, Hs1, Ha1, Hp, Hf, Hs, Ha.
  repeat (split; [reflexivity|]).
  rewrite Hl2, Hl1, Hp1, Hf1, Hs1, Ha1, Hp, Hf, Hs, Ha.
  unfold d0.
  destruct (ensureSpace_cases d 14) as [(Hb & Ht & E)|(Hn & E)]; rewrite E.
  - left. split; [exact Hb|]. split; [exact Ht|].
    destruct (addPage_spec d) as (_ & _ & _ & _ & _ & Hl & Hy).
    rewrite Hl, Hy. unfold withPages. cbn [flat_map]. same_lists.
  - right. split; [exact Hn|]. unfold withPages. cbn [flat_map]. same_lists.
Qed.

Lemma keyValueStart_spec (d : Doc) (entries : list (string * string))
      (col1Label : string) (options : KeyValueOptions) :
  let s := keyValueStart d entries col1Label options in
  let d0 := ensureSpace d (Some (24 + ofNat (List.length entries) * 14)) in
  page s = page d /\ pageAdded s = pageAdded d /\
  font s = "Lato"%string /\ fontSize s = 10 /\
  log s = log d0 ++ withPages (page d) (pageAdded d)
            [ Text "Lato-Bold" 11 col1Label keyX (y d0)
                   (keyWidth options entries col1Label)
                   (alignOr (optAlign1 options) AlignLeft);
              Text "Lato-Bold" 11 (stringOr (optCol2Label options) "Count")
                   (countX options entries col1Label) (y d0)
                   (countWidth options)
                   (alignOr (optAlign2 options) AlignRight) ].
Proof.
  cbv zeta. unfold keyValueStart. cbv zeta.
  destruct (ensureSpace_frame d (24 + ofNat (List.length entries) * 14))
    as (Hp & _ & _ & Ha).
  cbv zeta in Hp, Ha.
  set (d0 := ensureSpace d (Some (24 + ofNat (List.length entries) * 14))) in *.
  set (d1 := setFontSize 11 (setFont "Lato-Bold" d0)).
  change (y d1) with (y d0).
  destruct (text_spec col1Label keyX (y d0) (keyWidth options entries col1Label)
              (alignOr (optAlign1 options) AlignLeft) d1)
    as (Hp1 & Hf1 & Hs1 & Ha1 & _ & Hl1).
  cbv zeta in Hl1.
  set (d2 := text col1Label keyX (y d0) (keyWidth options entries col1Label)
               (alignOr (optAlign1 options) AlignLeft) d1) in *.
  destruct (text_spec (stringOr (optCol2Label options) "Count")
              (countX options entries col1Label) (y d0) (countWidth options)
              (alignOr (optAlign2 options) AlignRight) d2)
    as (Hp2 & Hf2 & Hs2 & Ha2 & _ & Hl2).
  cbv zeta in Hl2.
  cbn [setFontSize setFont moveDown withY page pageAdded font fontSize log].
  rewrite Hp2, Ha2, Hp1, Ha1.
  change (page d1) with (page d0). change (pageAdded d1) with (pageAdded d0).
  rewrite Hp, Ha.
  repeat (split; [reflexivity|]).
  rewrite Hl2, Hl1, Hp1, Hf1, Hs1, Ha1.
  change (page d1) with (page d0). change (pageAdded d1) with (pageAdded d0).
  change (font d1) with "Lato-Bold"%string. change (fontSize d1) with 11.
  change (log d1) with (log d0).
  rewrite Hp, Ha. unfold withPages. cbn [flat_map]. same_lists.
Qed.

Lemma keyValueRows_spec (options : KeyValueOptions)
      (entries : list (string * string)) (col1Label : string)
      (l : list (string * string)) :
  forall d : Doc,
    font d = "Lato"%string -> fontSize d = 10 ->
    let d' := fold_left (keyValueRow options entries col1Label) l d in
    page d' = page d /\ font d' = font d /\ fontSize d' = fontSize d /\
    pageAdded d' = pageAdded d /\
    exists T,
      log d' = log d ++ T /\
      Forall inRowFont T /\
      map textString (filter isText T) = flat_map (fun e => [fst e; snd e]) l.
Proof.
  induction l as [|e l IH]; intros d Hf Hs; cbn [fold_left].
  - repeat (split; [reflexivity|]). exists []. rewrite app_nil_r.
    repeat split; constructor.
  - destruct (keyValueRow_spec options entries col1Label d e)
      as (Hp1 & Hf1 & Hs1 & Ha1 & Hlog).
    cbv zeta in Hp1, Hlog.
    set (d1 := keyValueRow options entries col1Label d e) in *.
    destruct (IH d1) as (Hp2 & Hf2 & Hs2 & Ha2 & T & HT & HF & HM);
      [congruence|congruence|].
    cbv zeta. rewrite Hp2, Hf2, Hs2, Ha2, Hp1, Hf1, Hs1, Ha1.
    repeat (split; [reflexivity|]).
    rewrite Hf, Hs in Hlog.
    assert (Hcalls : forall rowY,
               Forall inRowFont
                 [ Text "Lato" 10 (fst e) keyX rowY
                        (keyWidth options entries col1Label)
                        (alignOr (optAlign1 options) AlignLeft);
                   Text "Lato" 10 (snd e) (countX options entries col1Label)
                        rowY (countWidth options)
                        (alignOr (optAlign2 options) AlignRight) ]).
    { intro rowY. repeat constructor. }
    destruct Hlog as [(_ & _ & Hl)|(_ & Hl)].
    + eexists. split; [rewrite HT, Hl, <- app_assoc; reflexivity|]. split.
      * apply Forall_app. split; [|exact HF].
        constructor; [exact I|]. apply Forall_app. split.
        -- unfold listenerOps. apply Forall_forall. intros o Ho.
           apply in_map_iff in Ho. destruct Ho as (x & <- & _). exact I.
        -- apply withPages_rowFont. apply Hcalls.
      * rewrite filter_app, map_app, HM.
        cbn [filter isText isNewPage]. rewrite filter_app.
        destruct (withPages_filters (page d) (pageAdded d)
                    [ Text "Lato" 10 (fst e) keyX (top (margins (page d)))
                           (keyWidth options entries col1Label)
                           (alignOr (optAlign1 options) AlignLeft);
                      Text "Lato" 10 (snd e) (countX options entries col1Label)
                           (top (margins (page d))) (countWidth options)
                           (alignOr (optAlign2 options) AlignRight) ])
          as (_ & Ht & _).
        rewrite Ht.
        rewrite listenerOps_no_text. reflexivity.
    + eexists. split; [rewrite HT, Hl, <- app_assoc; reflexivity|]. split.
      * apply Forall_app. split; [|exact HF].
        apply withPages_rowFont. apply Hcalls.
      * rewrite filter_app, map_app, HM.
        destruct (withPages_filters (page d) (pageAdded d)
                    [ Text "Lato" 10 (fst e) keyX (y d)
                           (keyWidth options entries col1Label)
                           (alignOr (optAlign1 options) AlignLeft);
                      Text "Lato" 10 (snd e) (countX options entries col1Label)
                           (y d) (countWidth options)
                           (alignOr (optAlign2 options) AlignRight) ])
          as (_ & Ht & _).
        rewrite Ht. reflexivity.
Qed.

(** X20: [printKeyValueTable] draws its header once, in the bold font at
    size 11, after making room for the height it estimates. Everything it
    logs after the header is a page, a page border or a text in the regular
    font at size 10, the keys and values of the entries in order. When
    [ensureSpace(doc, 14)] breaks the page before an entry, the new page
    gets the border and then the entry's key and value at the top margin:
    this table repeats no header. *)
Theorem keyValueTable_header_once (d : Doc) (entries : list (string * string))
        (col1Label : string) (options : KeyValueOptions) :
  let p := page d in
  let ls := pageAdded d in
  let w1 := keyWidth options entries col1Label in
  let w2 := countWidth options in
  let x2 := countX options entries col1Label in
  let a1 := alignOr (optAlign1 options) AlignLeft in
  let a2 := alignOr (optAlign2 options) AlignRight in
  let d0 := ensureSpace d (Some (24 + ofNat (List.length entries) * 14)) in
  let header :=
    [ Text "Lato-Bold" 11 col1Label keyX (y d0) w1 a1;
      Text "Lato-Bold" 11 (stringOr (optCol2Label options) "Count") x2 (y d0)
           w2 a2 ] in
  (exists rowsLog,
      log (printKeyValueTable d entries col1Label options)
      = log d0 ++ withPages p ls header ++ rowsLog /\
      Forall inRowFont rowsLog /\
      map textString (filter isText rowsLog)
      = flat_map (fun e => [fst e; snd e]) entries) /\
  (forall k e,
      nth_error entries k = Some e ->
      let s := keyValueBefore d entries col1Label options k in
      let s' := keyValueBefore d entries col1Label options (S k) in
      let row := fun rowY =>
        [ Text "Lato" 10 (fst e) keyX rowY w1 a1;
          Text "Lato" 10 (snd e) x2 rowY w2 a2 ] in
      (pageBottom p < y s + 14 -> top (margins p) + 1 < y s ->
       log s' = log s ++ NewPage :: listenerOps p ls
                  ++ withPages p ls (row (top (margins p)))) /\
      (~ (pageBottom p < y s + 14 /\ top (margins p) + 1 < y s) ->
       log s' = log s ++ withPages p ls (row (y s)))).
Proof.
  cbv zeta.
  destruct (keyValueStart_spec d entries col1Label options)
    as (Hp & Ha & Hf & Hs & Hl).
  cbv zeta in Hl. split.
  - unfold printKeyValueTable. cbv zeta.
    destruct (keyValueRows_spec options entries col1Label entries
                (keyValueStart d entries col1Label options) Hf Hs)
      as (_ & _ & _ & _ & T & HT & HF & HM).
    exists T. cbn [moveDown withY log]. rewrite HT, Hl, <- app_assoc.
    auto.
  - intros k e Hk. unfold keyValueBefore.
    rewrite (firstn_succ _ _ _ Hk), fold_left_app. cbn [fold_left].
    destruct (keyValueRows_spec options entries col1Label (firstn k entries)
                (keyValueStart d entries col1Label options) Hf Hs)
      as (Hpk & Hfk & Hsk & Hak & _).
    cbv zeta in Hpk, Hfk, Hsk, Hak.
    set (s := fold_left (keyValueRow options entries col1Label)
                (firstn k entries) (keyValueStart d entries col1Label options))
      in *.
    destruct (keyValueRow_spec options entries col1Label s e)
      as (_ & _ & _ & _ & Hlog).
    cbv zeta in Hlog.
    rewrite Hpk, Hfk, Hsk, Hak, Hp, Ha, Hf, Hs in Hlog.
    split.
    + intros Hb Ht. destruct Hlog as [(_ & _ & E)|(Hn & _)]; [exact E|].
      exfalso. apply Hn. auto.
    + intro Hn. destruct Hlog as [(Hb & Ht & _)|(_ & E)]; [|exact E].
      exfalso. apply Hn. auto.
Qed.
(** ** The aggregation helpers *)

Lemma splitDots_nonempty (s : string) : splitDots s <> [].
Proof.
  destruct s as [|c rest]; cbn; [discriminate|].
  destruct (Ascii.eqb c "."); [discriminate|].
  destruct (splitDots rest); discriminate.
Qed.

Lemma splitDots_app (p1 p2 : string) :
  splitDots (p1 ++ "." ++ p2) = splitDots p1 ++ splitDots p2.
Proof.
  induction p1 as [|c p1 IH]; cbn [String.append splitDots].
  - reflexivity.
  - change (String "." p2) with ("." ++ p2)%string. rewrite IH.
    destruct (Ascii.eqb c "."); [reflexivity|].
    pose proof (splitDots_nonempty p1) as Hne.
    destruct (splitDots p1) as [|a l]; [contradiction | reflexivity].
Qed.

Lemma splitDots_dotFree (k : string) : dotFree k = true -> splitDots k = [k].
Proof.
  induction k as [|c k IH]; cbn; [reflexivity|].
  intro H. apply andb_true_iff in H. destruct H as [Hc Hk].
  apply negb_true_iff in Hc. rewrite Hc, (IH Hk). reflexivity.
Qed.

Lemma getPath_falsy_stays (parts : list string) (v : JValue) :
  truthy v = false -> fold_left getPathStep parts (Some v) = Some v.
Proof.
  intro Hv. induction parts as [|p parts IH]; cbn [fold_left getPathStep];
    [reflexivity|].
  rewrite Hv. exact IH.
Qed.

Lemma getPath_outside_stays (parts : list string) :
  fold_left getPathStep parts None = None.
Proof. induction parts as [|p parts IH]; cbn; auto. Qed.

(** X11: [getPath] walks a dotted path from left to right and stops at the
    first value that is not truthy. If the first part of a path [p1.p2]
    leads to a truthy value, the result is what [p2] gives from there; if
    it leads to [undefined], [null], [false], [0] or the empty string, that
    very value is the result, not [undefined]. *)
Theorem getPath_compose (obj : JValue) (p1 p2 : string) (v : JValue) :
  getPath obj p1 = Some v ->
  (truthy v = true -> getPath obj (p1 ++ "." ++ p2) = getPath v p2) /\
  (truthy v = false -> getPath obj (p1 ++ "." ++ p2) = Some v).
Proof.
  intro H1. unfold getPath in *.
  rewrite splitDots_app, fold_left_app, H1. split; intro Hv.
  - reflexivity.
  - apply getPath_falsy_stays. exact Hv.
Qed.

(** X12: a field stored under a name without a dot is found again by that
    name. A name [k] that is neither stored nor inherited gives
    [undefined], and so does every longer path [k.rest], even when a field
    is stored under the dotted name [k.rest] itself: the path is split
    before anything is looked up. *)
Theorem getPath_field (fields : list (string * JValue)) (k : string) :
  dotFree k = true ->
  (forall v, lookupKey k fields = Some v -> getPath (JObj fields) k = Some v) /\
  (lookupKey k fields = None -> protoMember KObject k = false ->
   getPath (JObj fields) k = Some JUndefined /\
   forall rest, getPath (JObj fields) (k ++ "." ++ rest) = Some JUndefined).
Proof.
  intro Hk. unfold getPath. split.
  - intros v Hv. rewrite (splitDots_dotFree k Hk).
    cbn [fold_left getPathStep truthy getMember]. rewrite Hv. reflexivity.
  - intros Hnone Hproto.
    assert (E : fold_left getPathStep (splitDots k) (Some (JObj fields))
                = Some JUndefined).
    { rewrite (splitDots_dotFree k Hk).
      cbn [fold_left getPathStep truthy getMember]. rewrite Hnone, Hproto.
      reflexivity. }
    split; [exact E|]. intro rest.
    rewrite splitDots_app, fold_left_app, E.
    apply getPath_falsy_stays. reflexivity.
Qed.

Lemma lookupKey_increment (k k' : string) (c : list (string * nat)) :
  lookupKey k (increment k' c)
  = if String.eqb k k' then option_map (fun n => (n + 1)%nat) (lookupKey k c)
    else lookupKey k c.
Proof.
  induction c as [|[k0 n] c IH]; cbn [increment lookupKey option_map].
  - destruct (String.eqb k k'); reflexivity.
  - destruct (String.eqb_spec k' k0) as [E0|N0]; cbn [lookupKey].
    + subst k0. destruct (String.eqb_spec k k') as [E|N]; reflexivity.
    + destruct (String.eqb_spec k k0) as [E|N].
      * subst k0. destruct (String.eqb_spec k k') as [E'|_];
          [subst; contradiction | reflexivity].
      * exact IH.
Qed.

Lemma lookupKey_app_new (k k' : string) (c : list (string * nat)) (n : nat) :
  lookupKey k (c ++ [(k', n)])
  = match lookupKey k c with
    | Some m => Some m
    | None => if String.eqb k k' then Some n else None
    end.
Proof.
  induction c as [|[k0 m] c IH]; cbn [app lookupKey]; [reflexivity|].
  destruct (String.eqb k k0); [reflexivity | exact IH].
Qed.

Lemma lookupKey_None_keys {A : Type} (k : string) (c : list (string * A)) :
  lookupKey k c = None <-> ~ In k (map fst c).
Proof.
  induction c as [|[k0 m] c IH]; cbn [lookupKey map fst In].
  - split; auto.
  - destruct (String.eqb_spec k k0) as [E|N].
    + split; [discriminate | intro H; exfalso; apply H; left; auto].
    + rewrite IH. split; intro H; [intros [E|I]; [congruence | auto] | auto].
Qed.

Lemma increment_keys (k : string) (c : list (string * nat)) :
  map fst (increment k c) = map fst c.
Proof.
  induction c as [|[k0 n] c IH]; cbn [increment map fst]; [reflexivity|].
  destruct (String.eqb k k0); cbn [map fst]; [reflexivity | rewrite IH; reflexivity].
Qed.

Lemma increment_sum (k : string) (c : list (string * nat)) :
  lookupKey k c <> None -> sumCounts (increment k c) = S (sumCounts c).
Proof.
  induction c as [|[k0 n] c IH]; cbn [lookupKey increment]; [congruence|].
  destruct (String.eqb k k0); intro H; unfold sumCounts in *;
    cbn [fold_right snd]; [lia|].
  rewrite (IH H). lia.
Qed.

Lemma increment_positive (k : string) (c : list (string * nat)) :
  Forall (fun kn => (1 <= snd kn)%nat) c ->
  Forall (fun kn => (1 <= snd kn)%nat) (increment k c).
Proof.
  induction 1 as [|[k0 n] c Hn Hc IH]; cbn [increment]; [constructor|].
  destruct (String.eqb k k0); constructor; cbn [snd] in *; try lia; auto.
Qed.

Lemma sumCounts_app (c c' : list (string * nat)) :
  sumCounts (c ++ c') = (sumCounts c + sumCounts c')%nat.
Proof.
  unfold sumCounts. induction c as [|kn c IH]; cbn [app fold_right]; [reflexivity|].
  rewrite IH. lia.
Qed.

Lemma NoDup_snoc {A : Type} (l : list A) (x : A) :
  NoDup l -> ~ In x l -> NoDup (l ++ [x]).
Proof.
  induction 1 as [|a l Ha Hl IH]; intro Hx; cbn [app].
  - constructor; [intros [] | constructor].
  - constructor.
    + intro Hin. apply in_app_or in Hin. destruct Hin as [Hin|[E|[]]].
      * contradiction.
      * subst. apply Hx. left. reflexivity.
    + apply IH. intro Hin. apply Hx. right. exact Hin.
Qed.

Lemma countFold_outside (p : string) (records : list JValue) :
  fold_left (countStep p) records None = None.
Proof. induction records as [|r rs IH]; cbn; auto. Qed.

(** What one record does to the counts. *)
Lemma countStep_spec (p : string) (c0 c1 : list (string * nat)) (r : JValue) :
  countStep p (Some c0) r = Some c1 ->
  NoDup (map fst c0) ->
  Forall (fun kn => (1 <= snd kn)%nat) c0 ->
  (forall k, countOf k c1
             = (countOf k c0 + if countedAs p k r then 1 else 0)%nat) /\
  sumCounts c1 = (sumCounts c0 + if isCounted p r then 1 else 0)%nat /\
  NoDup (map fst c1) /\
  Forall (fun kn => (1 <= snd kn)%nat) c1.
Proof.
  unfold countStep, countedAs, isCounted, countedKey.
  destruct (getPath r p) as [key|]; [|discriminate].
  destruct (truthy key).
  2:{ intros E Hnd Hpos. injection E as <-. repeat split; auto; intros; lia. }
  destruct (propertyKey key) as [k'|]; [|discriminate].
  destruct (lookupKey k' c0) as [n|] eqn:Hl.
  - intros E Hnd Hpos. injection E as <-. split; [|split; [|split]].
    + intro k. unfold countOf. rewrite lookupKey_increment.
      destruct (String.eqb_spec k k') as [->|N].
      * rewrite Hl. cbn. lia.
      * destruct (lookupKey k c0); lia.
    + rewrite increment_sum by congruence. lia.
    + rewrite increment_keys. exact Hnd.
    + apply increment_positive. exact Hpos.
  - destruct (protoMember KObject k'); [discriminate|].
    intros E Hnd Hpos. injection E as <-. split; [|split; [|split]].
    + intro k. unfold countOf. rewrite lookupKey_app_new.
      destruct (String.eqb_spec k k') as [->|N].
      * rewrite Hl. lia.
      * destruct (lookupKey k c0); lia.
    + rewrite sumCounts_app. cbn. lia.
    + rewrite map_app. cbn [map fst]. apply NoDup_snoc; [exact Hnd|].
      apply lookupKey_None_keys. exact Hl.
    + apply Forall_app. split; [exact Hpos|]. constructor; [cbn; lia | constructor].
Qed.

Lemma countFold_spec (p : string) (records : list JValue) :
  forall c0 counts,
    fold_left (countStep p) records (Some c0) = Some counts ->
    NoDup (map fst c0) ->
    Forall (fun kn => (1 <= snd kn)%nat) c0 ->
    (forall k, countOf k counts
               = (countOf k c0 + List.length (filter (countedAs p k) records))%nat) /\
    sumCounts counts
    = (sumCounts c0 + List.length (filter (isCounted p) records))%nat /\
    NoDup (map fst counts) /\
    Forall (fun kn => (1 <= snd kn)%nat) counts.
Proof.
  induction records as [|r rs IH]; intros c0 counts E Hnd Hpos;
    cbn [fold_left filter List.length] in *.
  - injection E as <-. repeat split; auto; intros; lia.
  - destruct (countStep p (Some c0) r) as [c1|] eqn:E1.
    2:{ rewrite countFold_outside in E. discriminate. }
    destruct (countStep_spec p c0 c1 r E1 Hnd Hpos) as (Hk & Hs & Hnd1 & Hpos1).
    destruct (IH c1 counts E Hnd1 Hpos1) as (Hk' & Hs' & Hnd' & Hpos').
    split; [|split; [|split]]; auto.
    + intro k. rewrite Hk', Hk. destruct (countedAs p k r); cbn [List.length]; lia.
    + rewrite Hs', Hs. destruct (isCounted p r); cbn [List.length]; lia.
Qed.

(** X13: whenever [countByField] stays within the model, the count stored
    under a key is the number of records whose field has that key as a
    truthy value; a key is stored only if some record has it, and once
    only; the counts add up to the number of records whose field is
    truthy. Records without the field, or with [null], [false], [0] or the
    empty string in it, are not counted at all. *)
Theorem countByField_counts (records : list JValue) (fieldPath : string)
        (counts : list (string * nat)) :
  countByField records fieldPath = Some counts ->
  (forall k, countOf k counts
             = List.length (filter (countedAs fieldPath k) records)) /\
  (forall k n, lookupKey k counts = Some n -> (1 <= n)%nat) /\
  NoDup (map fst counts) /\
  sumCounts counts = List.length (filter (isCounted fieldPath) records).
Proof.
  unfold countByField. intro E.
  destruct (countFold_spec fieldPath records [] counts E) as (Hk & Hs & Hnd & Hpos).
  { constructor. }
  { constructor. }
  split; [|split; [|split]].
  - intro k. rewrite Hk. reflexivity.
  - intros k n Hl. clear - Hl Hpos.
    induction counts as [|[k0 m] c IH]; cbn [lookupKey] in Hl; [discriminate|].
    inversion Hpos as [|? ? Hm Hc]; subst.
    destruct (String.eqb k k0); [injection Hl as <-; exact Hm | auto].
  - exact Hnd.
  - rewrite Hs. reflexivity.
Qed.

Lemma sumFold_outside (p : string) (records : list JValue) :
  fold_left
    (fun total r =>
       match total, getPath r p with
       | Some t, Some val => Some (t + numberOr0 val)
       | _, _ => None
       end) records None = None.
Proof. induction records as [|r rs IH]; cbn; auto. Qed.

Lemma sumFold_spec (p : string) (records : list JValue) :
  forall a t,
    fold_left
      (fun total r =>
         match total, getPath r p with
         | Some t, Some val => Some (t + numberOr0 val)
         | _, _ => None
         end) records (Some a) = Some t ->
    Forall (fun r => getPath r p <> None) records /\
    t == a + sumQ (map (addend p) records).
Proof.
  induction records as [|r rs IH]; intros a t E; cbn [fold_left map sumQ fold_right] in *.
  - injection E as <-. split; [constructor | ring].
  - unfold addend at 1. destruct (getPath r p) as [val|] eqn:Hr.
    2:{ rewrite sumFold_outside in E. discriminate. }
    destruct (IH _ _ E) as [Hall Ht]. split.
    + constructor; [congruence | exact Hall].
    + rewrite Ht. unfold sumQ. ring.
Qed.

Lemma sumFold_total (p : string) (records : list JValue) :
  Forall (fun r => getPath r p <> None) records ->
  forall a, exists t,
    fold_left
      (fun total r =>
         match total, getPath r p with
         | Some t, Some val => Some (t + numberOr0 val)
         | _, _ => None
         end) records (Some a) = Some t.
Proof.
  induction 1 as [|r rs Hr _ IH]; intro a; cbn [fold_left].
  - exists a. reflexivity.
  - destruct (getPath r p) as [val|]; [apply IH | congruence].
Qed.

(** X14: whenever [sumByField] stays within the model, its result is the
    sum of the numbers found at the field: a record whose field is missing
    or holds anything but a number, a numeric string included, adds
    nothing. The sum of two lists put together is the sum of their sums. *)
Theorem sumByField_sum (fieldPath : string) :
  (forall records t,
      sumByField records fieldPath = Some t ->
      t == sumQ (map (addend fieldPath) records)) /\
  (forall r s, getPath r fieldPath = Some (JStr s) -> addend fieldPath r = 0) /\
  (forall r, getPath r fieldPath = Some JUndefined -> addend fieldPath r = 0) /\
  (forall r q, getPath r fieldPath = Some (JNum q) -> addend fieldPath r = q) /\
  (forall a b x y,
      sumByField a fieldPath = Some x ->
      sumByField b fieldPath = Some y ->
      exists z, sumByField (a ++ b) fieldPath = Some z /\ z == x + y).
Proof.
  split; [|split; [|split; [|split]]].
  - intros records t E. unfold sumByField in E.
    destruct (sumFold_spec fieldPath records 0 t E) as [_ Ht].
    rewrite Ht. ring.
  - intros r s E. unfold addend. rewrite E. reflexivity.
  - intros r E. unfold addend. rewrite E. reflexivity.
  - intros r q E. unfold addend. rewrite E. reflexivity.
  - intros a b x y Ea Eb. unfold sumByField in *.
    destruct (sumFold_spec fieldPath a 0 x Ea) as [_ Hx].
    destruct (sumFold_spec fieldPath b 0 y Eb) as [Hall Hy].
    rewrite fold_left_app, Ea.
    destruct (sumFold_total fieldPath b Hall x) as [z Ez].
    exists z. split; [exact Ez|].
    destruct (sumFold_spec fieldPath b x z Ez) as [_ Hz].
    rewrite Hz, Hy. ring.
Qed.

Lemma filterM_spec (test : JValue -> option bool) (l : list JValue) :
  forall out,
    filterM test l = Some out ->
    Forall (fun x => test x <> None) l /\
    out = filter (fun x => match test x with Some true => true | _ => false end) l.
Proof.
  induction l as [|x l IH]; intros out E; cbn [filterM filter] in *.
  - injection E as <-. split; [constructor | reflexivity].
  - destruct (test x) as [b|] eqn:Hx; [|discriminate].
    destruct (filterM test l) as [out'|]; [|discriminate].
    injection E as <-. destruct (IH out' eq_refl) as [Hall Hout].
    split; [constructor; [congruence | exact Hall]|].
    destruct b; rewrite Hout; reflexivity.
Qed.

Lemma filterM_filtered (test : JValue -> option bool) (l : list JValue) :
  Forall (fun x => test x = Some true) l -> filterM test l = Some l.
Proof.
  induction 1 as [|x l Hx _ IH]; cbn [filterM]; [reflexivity|].
  rewrite Hx, IH. reflexivity.
Qed.

(** X15: [filterByDateRange] gives the empty list for anything but an
    array. From an array it keeps, in order, exactly the records whose date
    field is truthy and lies in the range, so a record without the field
    is always dropped; and filtering what it returned changes nothing. *)
Theorem filterByDateRange_keeps (records : JValue) (dateField : option string)
        (out : list JValue) :
  let field := match dateField with
               | Some f => f
               | None => "createdAt.$date"%string
               end in
  filterByDateRange records dateField = Some out ->
  (forall items, records <> JArr items) /\ out = [] \/
  exists items,
    records = JArr items /\
    out = filter (fun r => match inDateRange field r with
                           | Some true => true
                           | _ => false
                           end) items /\
    (List.length out <= List.length items)%nat /\
    Forall (fun r => exists dateStr,
                getPath r field = Some dateStr /\
                truthy dateStr = true /\ isBetween dateStr = true) out /\
    filterByDateRange (JArr out) dateField = Some out.
Proof.
  cbv zeta. unfold filterByDateRange.
  set (field := match dateField with Some f => f | None => "createdAt.$date"%string end).
  destruct records as [| |b|q|s|items|fields]; intro E;
    try (left; injection E as <-; split; [intros items; discriminate | reflexivity]).
  right. exists items.
  destruct (filterM_spec (inDateRange field) items out E) as [_ Hout].
  assert (Hkept : Forall (fun r => inDateRange field r = Some true) out).
  { rewrite Hout. apply Forall_forall. intros r Hr.
    apply filter_In in Hr. destruct Hr as [_ Hr].
    destruct (inDateRange field r) as [[|]|]; [reflexivity | discriminate | discriminate]. }
  split; [reflexivity|]. split; [exact Hout|]. split; [|split].
  - rewrite Hout. apply filter_length_le.
  - eapply Forall_impl; [|exact Hkept]. cbv beta. intros r Hr.
    unfold inDateRange in Hr. destruct (getPath r field) as [dateStr|]; [|discriminate].
    exists dateStr. destruct (truthy dateStr); [|discriminate].
    injection Hr as Hr. auto.
  - apply filterM_filtered. exact Hkept.
Qed.

(** ** The value extractor of the spreadsheet export *)

Lemma nonempty_path (k rest : string) : String.eqb (k ++ "." ++ rest) "" = false.
Proof. destruct k; reflexivity. Qed.

Lemma walk_plain_field (fields : list (string * JValue)) (k : string)
      (parts : list string) (x : JValue) :
  plainRecord fields ->
  lookupKey k fields = Some x ->
  walkParts (k :: parts) (JObj fields) = walkParts parts x.
Proof.
  intros (Hh & Ho & Hd) Hk. cbn [walkParts getMember].
  rewrite Hh, Ho, Hd, Hk. reflexivity.
Qed.

(** X16: the identifiers and dates of the exported records, stored as
    [{"$oid": v}] and [{"$date": v}] under a plain field [k], come out by
    the paths [k.$oid] and [k.$date]: the result is [v] as a string (a
    string [v] comes out as it is). Any
    other part after [k] gives the empty string, whatever the wrapper
    holds, and the path [k] alone gives the wrapper serialised, not [v]. *)
Theorem getValueByPath_wrapped (fields wrapper : list (string * JValue))
        (k tag : string) (v : JValue) :
  plainRecord fields ->
  dotFree k = true ->
  k <> ""%string ->
  lookupKey k fields = Some (JObj wrapper) ->
  wraps tag wrapper v ->
  getValueByPath (JObj fields) (k ++ "." ++ tag) = Some (Value (finishValue v)) /\
  (forall other,
      dotFree other = true -> other <> tag ->
      getValueByPath (JObj fields) (k ++ "." ++ other) = Some (Value "")) /\
  getValueByPath (JObj fields) k = Some (Value (stringify (JObj wrapper))).
Proof.
  intros Hplain Hk Hne Hl (Hh & Htag).
  unfold getValueByPath. cbn [truthy negb orb].
  split; [|split].
  - rewrite nonempty_path, splitDots_app, (splitDots_dotFree k Hk).
    cbn [app]. rewrite (walk_plain_field fields k _ _ Hplain Hl).
    destruct Htag as [(-> & Ho)|(-> & Ho & Hd)].
    + rewrite (splitDots_dotFree "$oid" eq_refl). cbn [walkParts].
      rewrite Hh, Ho, String.eqb_refl. reflexivity.
    + rewrite (splitDots_dotFree "$date" eq_refl). cbn [walkParts].
      rewrite Hh, Ho, Hd, String.eqb_refl. reflexivity.
  - intros other Hother Hneq.
    rewrite nonempty_path, splitDots_app, (splitDots_dotFree k Hk),
      (splitDots_dotFree other Hother).
    cbn [app]. rewrite (walk_plain_field fields k _ _ Hplain Hl).
    cbn [walkParts]. rewrite Hh.
    destruct Htag as [(-> & Ho)|(-> & Ho & Hd)]; rewrite Ho; [|rewrite Hd].
    + destruct (String.eqb_spec other "$oid") as [E|_];
        [contradiction | reflexivity].
    + destruct (String.eqb_spec other "$date") as [E|_];
        [contradiction | reflexivity].
  - destruct (String.eqb_spec k "") as [E|_]; [contradiction|].
    rewrite (splitDots_dotFree k Hk).
    rewrite (walk_plain_field fields k _ _ Hplain Hl). reflexivity.
Qed.

(** X17: the edges of [getValueByPath]. A falsy record or an empty path
    gives the empty string. A record with a field of its own called
    [hasOwnProperty] makes every non-empty path throw a [TypeError]. On a
    plain record a field that holds a string comes out as that string, but
    nothing can be read through it; and a field that is missing gives the
    empty string, alone or followed by further parts. *)
Theorem getValueByPath_edges :
  (forall obj path,
      truthy obj = false \/ path = ""%string ->
      getValueByPath obj path = Some (Value "")) /\
  (forall fields path,
      lookupKey "hasOwnProperty" fields <> None -> path <> ""%string ->
      getValueByPath (JObj fields) path = Some TypeError) /\
  (forall fields k s rest,
      plainRecord fields -> dotFree k = true -> k <> ""%string ->
      lookupKey k fields = Some (JStr s) ->
      getValueByPath (JObj fields) k = Some (Value s) /\
      getValueByPath (JObj fields) (k ++ "." ++ rest) = Some (Value "")) /\
  (forall fields k rest,
      plainRecord fields -> dotFree k = true -> k <> ""%string ->
      lookupKey k fields = None -> protoMember KObject k = false ->
      getValueByPath (JObj fields) k = Some (Value "") /\
      getValueByPath (JObj fields) (k ++ "." ++ rest) = Some (Value "")).
Proof.
  split; [|split; [|split]].
  - intros obj path [H| ->]; unfold getValueByPath.
    + rewrite H. reflexivity.
    + rewrite orb_true_r. reflexivity.
  - intros fields path Hh Hp. unfold getValueByPath. cbn [truthy negb orb].
    destruct (String.eqb_spec path "") as [E|_]; [contradiction|].
    pose proof (splitDots_nonempty path) as Hne.
    destruct (splitDots path) as [|part parts]; [contradiction|].
    cbn [walkParts]. destruct (lookupKey "hasOwnProperty" fields); [reflexivity|].
    contradiction.
  - intros fields k s rest Hplain Hk Hne Hl. unfold getValueByPath.
    cbn [truthy negb orb]. split.
    + destruct (String.eqb_spec k "") as [E|_]; [contradiction|].
      rewrite (splitDots_dotFree k Hk), (walk_plain_field fields k _ _ Hplain Hl).
      reflexivity.
    + rewrite nonempty_path, splitDots_app, (splitDots_dotFree k Hk). cbn [app].
      rewrite (walk_plain_field fields k _ _ Hplain Hl).
      pose proof (splitDots_nonempty rest) as Hr.
      destruct (splitDots rest) as [|part parts]; [contradiction | reflexivity].
  - intros fields k rest (Hh & Ho & Hd) Hk Hne Hl Hproto. unfold getValueByPath.
    cbn [truthy negb orb].
    assert (Hwalk : forall parts,
               walkParts (k :: parts) (JObj fields) = walkParts parts JUndefined).
    { intro parts. cbn [walkParts getMember]. rewrite Hh, Ho, Hd, Hl, Hproto.
      reflexivity. }
    split.
    + destruct (String.eqb_spec k "") as [E|_]; [contradiction|].
      rewrite (splitDots_dotFree k Hk), Hwalk. reflexivity.
    + rewrite nonempty_path, splitDots_app, (splitDots_dotFree k Hk). cbn [app].
      rewrite Hwalk.
      pose proof (splitDots_nonempty rest) as Hr.
      destruct (splitDots rest) as [|part parts]; [contradiction | reflexivity].
Qed.

Lemma extractRow_length (record : JValue) (mapping : list Mapping) :
  forall cells,
    extractRow record mapping = Some (inl cells) ->
    List.length cells = List.length mapping.
Proof.
  induction mapping as [|m rest IH]; intros cells E; cbn [extractRow] in E.
  - injection E as <-. reflexivity.
  - destruct (getValueByPath record (mKey m)) as [[s|]|]; try discriminate.
    destruct (extractRow record rest) as [[cells'|e]|]; try discriminate.
    injection E as <-. cbn [List.length]. rewrite (IH cells' eq_refl). reflexivity.
Qed.

Lemma extractRows_shape (records : list JValue) (mapping : list Mapping) :
  forall rows,
    extractRows records mapping = Some (inl rows) ->
    List.length rows = List.length records /\
    Forall (fun row => List.length row = List.length mapping) rows.
Proof.
  induction records as [|r rest IH]; intros rows E; cbn [extractRows] in E.
  - injection E as <-. split; [reflexivity | constructor].
  - destruct (extractRow r mapping) as [[cells|e]|] eqn:Hr; try discriminate.
    destruct (extractRows rest mapping) as [[rows'|e]|]; try discriminate.
    injection E as <-. destruct (IH rows' eq_refl) as [Hn Hall].
    cbn [List.length]. split; [rewrite Hn; reflexivity|].
    constructor; [exact (extractRow_length r mapping cells Hr) | exact Hall].
Qed.

(** X18: the worksheet [exportToExcel] builds is rectangular: the first row
    holds the labels of the mapping, one row follows for every record, and
    every row has as many cells as the mapping has entries, each of them a
    string. With no record at all the sheet is the header row alone; with an
    empty mapping it is one empty row per record and one for the header. *)
Theorem worksheetData_shape (records : list JValue) (mapping : list Mapping)
        (rows : list (list string)) :
  worksheetData records mapping = Some (SheetData rows) ->
  List.length rows = S (List.length records) /\
  hd [] rows = map mLabel mapping /\
  Forall (fun row => List.length row = List.length mapping) rows /\
  (records = [] -> rows = [map mLabel mapping]).
Proof.
  unfold worksheetData. intro E.
  destruct (extractRows records mapping) as [[body|e]|] eqn:Hb; try discriminate.
  injection E as <-. destruct (extractRows_shape records mapping body Hb) as [Hn Hall].
  cbn [List.length hd]. split; [rewrite Hn; reflexivity|].
  split; [reflexivity|]. split.
  - constructor; [apply length_map | exact Hall].
  - intros ->. cbn in Hb. injection Hb as <-. reflexivity.
Qed.

(** ** The date filter followed by a count, as the metrics sections do *)

Lemma filter_length_all {A : Type} (f : A -> bool) (l : list A) :
  (List.length (filter f l) <= List.length l)%nat /\
  (List.length (filter f l) = List.length l <-> Forall (fun x => f x = true) l).
Proof.
  induction l as [|x l [IH1 IH2]]; cbn [filter List.length].
  - split; [lia | split; [constructor | reflexivity]].
  - destruct (f x) eqn:E; cbn [List.length].
    + split; [lia|]. split.
      * intro H. constructor; [exact E | apply IH2; lia].
      * intro H. inversion H; subst. f_equal. apply IH2. assumption.
    + split; [lia|]. split.
      * intro H. lia.
      * intro H. inversion H; subst. congruence.
Qed.

Lemma default_date_path :
  splitDots "createdAt.$date" = ["createdAt"; "$date"]%string.
Proof. vm_compute. reflexivity. Qed.

Lemma getMember_truthy_own (a : JValue) (name : string) (v : JValue) :
  arrayIndex name = None ->
  String.eqb name "length" = false ->
  getMember a name = Some v ->
  truthy v = true ->
  exists fields, a = JObj fields /\ lookupKey name fields = Some v.
Proof.
  intros Hi Hl E Ht.
  assert (Hu : forall b : bool,
             (if b then None else Some JUndefined) = Some v -> False).
  { intros [|] Eb; [discriminate|]. injection Eb as <-. discriminate. }
  destruct a as [| |b|q|s|items|fields]; unfold getMember in E.
  - discriminate.
  - discriminate.
  - destruct (Hu _ E).
  - destruct (Hu _ E).
  - destruct (Hu _ E).
  - rewrite Hi, Hl in E. destruct (Hu _ E).
  - exists fields. split; [reflexivity|].
    destruct (lookupKey name fields) as [x|]; [exact E|]. destruct (Hu _ E).
Qed.

Lemma dated_record_shape (r dateStr : JValue) :
  getPath r "createdAt.$date" = Some dateStr ->
  truthy dateStr = true ->
  exists fields wrapper,
    r = JObj fields /\
    lookupKey "createdAt" fields = Some (JObj wrapper) /\
    lookupKey "$date" wrapper = Some dateStr.
Proof.
  unfold getPath. rewrite default_date_path. cbn [fold_left].
  intros E Ht.
  destruct (getPathStep (Some r) "createdAt") as [a|] eqn:E1; [|discriminate E].
  unfold getPathStep in E, E1.
  destruct (truthy a) eqn:Ta.
  2:{ injection E as ->. congruence. }
  destruct (getMember_truthy_own a "$date" dateStr eq_refl eq_refl E Ht)
    as (wrapper & -> & Hw).
  destruct (truthy r) eqn:Tr.
  2:{ injection E1 as ->. discriminate Tr. }
  destruct (getMember_truthy_own r "createdAt" (JObj wrapper) eq_refl eq_refl E1
              eq_refl) as (fields & -> & Hf).
  exists fields, wrapper. auto.
Qed.

(** X19: the metrics sections filter the records by the default date field
    and count the filtered ones by a field. Within the model, no count and
    not even the sum of the counts exceeds the number of filtered records,
    which is at most the number of records; the counts add up to it exactly
    when every filtered record has a truthy value in the counted field;
    every key counted belongs to a record that passed the filter; and every
    record that passed is an object with a field [createdAt] of its own that
    holds an object with a truthy [$date] in the range, so nothing that is
    [null] or not an object reaches the code after the filter. *)
Theorem dateFilter_then_count (items filtered : list JValue)
        (fieldPath : string) (counts : list (string * nat)) :
  filterByDateRange (JArr items) None = Some filtered ->
  countByField filtered fieldPath = Some counts ->
  (sumCounts counts <= List.length filtered <= List.length items)%nat /\
  (sumCounts counts = List.length filtered
   <-> Forall (fun r => isCounted fieldPath r = true) filtered) /\
  (forall k n,
      lookupKey k counts = Some n ->
      (1 <= n <= List.length filtered)%nat /\
      exists r, In r items /\ In r filtered /\ countedAs fieldPath k r = true) /\
  Forall (fun r => exists fields wrapper dateStr,
              r = JObj fields /\
              lookupKey "createdAt" fields = Some (JObj wrapper) /\
              lookupKey "$date" wrapper = Some dateStr /\
              truthy dateStr = true /\ isBetween dateStr = true) filtered.
Proof.
  intros Ef Ec. cbn [filterByDateRange] in Ef.
  destruct (filterM_spec _ _ _ Ef) as [_ Hout].
  unfold countByField in Ec.
  destruct (countFold_spec fieldPath filtered [] counts Ec) as (Hk & Hs & _ & Hpos).
  { constructor. }
  { constructor. }
  cbn [sumCounts fold_right Nat.add] in Hs.
  assert (Hin : forall r, In r filtered ->
                          In r items /\
                          inDateRange "createdAt.$date" r = Some true).
  { intros r Hr. rewrite Hout in Hr. apply filter_In in Hr.
    destruct Hr as [Hi Ht]. split; [exact Hi|].
    destruct (inDateRange "createdAt.$date" r) as [[|]|]; congruence. }
  split; [|split; [|split]].
  - split.
    + rewrite Hs. apply filter_length_all.
    + rewrite Hout. apply filter_length_all.
  - rewrite Hs. apply filter_length_all.
  - intros k n Hl.
    assert (Hn : countOf k counts = n) by (unfold countOf; rewrite Hl; reflexivity).
    assert (H1 : (1 <= n)%nat).
    { clear - Hl Hpos.
      induction counts as [|[k0 m] c IH]; cbn [lookupKey] in Hl; [discriminate|].
      inversion Hpos as [|? ? Hm Hc]; subst.
      destruct (String.eqb k k0); [injection Hl as <-; exact Hm | auto]. }
    rewrite Hk in Hn. cbn [countOf lookupKey Nat.add] in Hn.
    split.
    + split; [exact H1|]. rewrite <- Hn. apply filter_length_all.
    + destruct (filter (countedAs fieldPath k) filtered) as [|r rest] eqn:Efl.
      { cbn in Hn. lia. }
      assert (Hr : In r (filter (countedAs fieldPath k) filtered))
        by (rewrite Efl; left; reflexivity).
      apply filter_In in Hr. destruct Hr as [Hr Hc].
      exists r. split; [apply Hin; exact Hr | split; [exact Hr | exact Hc]].
  - apply Forall_forall. intros r Hr.
    destruct (Hin r Hr) as [_ Ht]. unfold inDateRange in Ht.
    destruct (getPath r "createdAt.$date") as [dateStr|] eqn:Eg; [|discriminate].
    destruct (truthy dateStr) eqn:Td; [|discriminate].
    destruct (dated_record_shape r dateStr Eg Td) as (fields & wrapper & -> & Hc & Hd).
    exists fields, wrapper, dateStr.
    injection Ht as Hb. auto.
Qed.

End Layout.

(** ** Examples on the A4 report page *)

(** C2 fails as worded: one unit below the top margin the cursor is not at
    the top margin and the block does not fit, yet no page is emitted. *)
Lemma ensureSpace_contract_counterexample :
  ~ ensureSpaceContractAsStated (reportDoc 21) 1000.
Proof.
  intros [_ H].
  assert (E : emitsNewPage (reportDoc 21) (ensureSpace (reportDoc 21) (Some 1000))).
  { apply H. split; decide_numbers. }
  vm_compute in E. discriminate E.
Qed.

Lemma ensureSpace_contract_witness :
  emitsNewPage (reportDoc 800) (ensureSpace (reportDoc 800) (Some 60)).
Proof.
  apply (proj1 (ensureSpace_contract (reportDoc 800) 60)).
  split; decide_numbers.
Defined.

(** C8 fails as worded: with the cursor at the top margin a block taller
    than the page emits no page. *)
Lemma oversized_block_counterexample :
  ~ oversizedAlwaysBreaksAsStated (reportDoc 20) 1000.
Proof.
  intro H.
  assert (E : emitsNewPage (reportDoc 20) (ensureSpace (reportDoc 20) (Some 1000))).
  { apply H. decide_numbers. }
  vm_compute in E. discriminate E.
Qed.

Lemma oversized_block_policy_witness :
  emitsNewPage (reportDoc 400) (ensureSpace (reportDoc 400) (Some 1000)).
Proof.
  apply (proj1 (proj2 (proj1 (oversized_block_policy gridLineHeight gridLineCount)
                         (reportDoc 400) 1000 ltac:(decide_numbers)
                         ltac:(decide_numbers)))).
  decide_numbers.
Defined.

(** C5 fails as worded: a text of height 10 in a row of height 14 is drawn
    1 unit down, not 2, and the gaps are 1 above and 3 below. *)
Lemma centering_counterexample : ~ centeringAsStated 100 14 10.
Proof.
  intro H. destruct (H ltac:(decide_numbers)) as [E _].
  vm_compute in E. discriminate E.
Qed.

Lemma fixedHeightRow_centering_witness :
  let w := insideWidth (reportDoc 100) / 6 in
  cellTextY 108 14 (gridMeasure "Lato" 10 "TIN No" (w - 5))
  == 108 + ((14 - gridMeasure "Lato" 10 "TIN No" (w - 5)) / 2 - 1).
Proof.
  cbv zeta.
  destruct (proj2 (proj2 (fixedHeightRow_centering gridMeasure gridLineHeight
                            gridLineCount (reportDoc 100) labelTexts
                            108 100 (Some "Title"%string) 14 None))
                  0%nat "TIN No"%string eq_refl) as (_ & _ & H).
  cbv zeta in H. apply H. decide_numbers.
Defined.


Lemma wideLeftTable_geometry_witness :
  currentY (stateBeforeRow gridLineHeight gridLineCount a4 "Type" "Count" sampleRows
              (tableStart gridLineHeight gridLineCount (reportDoc 100)
                 "Type" "Count" None) 1)
  = currentY (breakPageIfNeeded gridLineHeight gridLineCount a4 "Type" "Count"
                (stateBeforeRow gridLineHeight gridLineCount a4 "Type" "Count"
                   sampleRows
                   (tableStart gridLineHeight gridLineCount (reportDoc 100)
                      "Type" "Count" None) 0))
    + 18.
Proof.
  destruct (wideLeftTable_geometry gridLineHeight gridLineCount (reportDoc 100)
              sampleRows "Type" "Count" None) as (_ & _ & H & _).
  cbv zeta in H.
  exact (proj2 (proj2 (proj2 (proj2 (H 0%nat (mkRow "Type A" "10") eq_refl))))).
Defined.

(** The second sample row of a table started at 750 breaks the page: it is
    drawn on the following page, under the repeated header. *)
Lemma rows_never_overlap_witness :
  let s0 := tableStart gridLineHeight gridLineCount (reportDoc 750)
              "Type" "Count" None in
  onPage (rowTop gridLineHeight gridLineCount a4 "Type" "Count" sampleRows s0 1)
  = (S (onPage (rowAfter gridLineHeight gridLineCount a4 "Type" "Count"
                  sampleRows s0 0))
     + breaksOf gridLineHeight gridLineCount a4
         (headerOps a4 "Type" "Count" (top (margins a4))))%nat /\
  atY (rowTop gridLineHeight gridLineCount a4 "Type" "Count" sampleRows s0 1)
  = top (margins a4) + headerHeight.
Proof.
  cbv zeta.
  destruct (proj1 (rows_never_overlap gridMeasure gridLineHeight gridLineCount)
              (reportDoc 750) sampleRows
              "Type"%string "Count"%string None 0%nat
              (mkRow "Type A" "10") (mkRow "Type B" "5") eq_refl eq_refl)
    as (_ & _ & _ & _ & _ & H & _).
  cbv zeta in H. apply H. decide_numbers.
Defined.

(** C1 fails as worded, on the offsets alone: the second sample row breaks
    the page and is drawn at offset 40 of the new page, above the offset 788
    at which the first row ended on the page before. *)
Lemma no_overlap_counterexample :
  ~ noOverlapAsStated gridLineHeight gridLineCount (reportDoc 750) sampleRows
      "Type" "Count" None.
Proof.
  intro H.
  specialize (H 0%nat (mkRow "Type A" "10") (mkRow "Type B" "5") eq_refl eq_refl).
  vm_compute in H. apply H. reflexivity.
Qed.

(** The texts of the sample table fit their cells on the A4 page. *)
Lemma wideLeftTable_header_repeated_witness :
  headerRepetitionAsStated gridLineHeight gridLineCount (reportDoc 750)
    sampleRows "Type" "Count" None.
Proof.
  refine (proj1 (proj2 (proj2 (wideLeftTable_header_repeated gridLineHeight
                                 gridLineCount (reportDoc 750) sampleRows
                                 "Type" "Count" None)) _ _)).
  - split; [|split; [|split; [|split]]].
    + intros f _. decide_numbers.
    + decide_numbers.
    + decide_numbers.
    + decide_numbers.
    + intros r f [<-|[<-|[<-|[]]]] _; split; decide_numbers.
  - decide_numbers.
Defined.

(** C3 fails as worded: in a table started at 750 on the A4 page the row,
    drawn at 770, passes its check (798 is above the bottom margin at
    801.89), but of its label of three lines, asked for at 774, only two
    fit; the surface continues the label on a new page, which gets the
    border and no header. *)
Lemma header_repetition_counterexample :
  ~ headerRepetitionAsStated gridLineHeight gridLineCount (reportDoc 750)
      [longRow] "Type" "Count" None.
Proof.
  intro H.
  pose (l := log (fst (drawWideLeftTable gridLineHeight gridLineCount
                         (reportDoc 750) [longRow] "Type" "Count" None))).
  destruct (H (firstn 7 l) (skipn 8 l)) as (r & rest & _ & E).
  - vm_compute. reflexivity.
  - vm_compute in E. discriminate E.
Qed.

(** With room for its header texts the empty table adds no page. *)
Lemma wideLeftTable_empty_witness :
  pageCount (fst (drawWideLeftTable gridLineHeight gridLineCount (reportDoc 100)
                    [] "Type" "Count" None))
  = pageCount (reportDoc 100).
Proof.
  destruct (wideLeftTable_empty gridLineHeight gridLineCount (reportDoc 100)
              "Type" "Count" None) as (_ & _ & _ & Hno & Hfit & _).
  cbv zeta in Hno, Hfit.
  apply Hno. apply Hfit; decide_numbers.
Defined.

(** C10 fails as worded: started at 795 on the A4 page, the header texts,
    asked for at 800, do not fit above the bottom margin at 801.89; the
    surface starts a page for each of them. *)
Lemma empty_table_counterexample :
  ~ emptyTableAsStated gridLineHeight gridLineCount (reportDoc 795)
      "Type" "Count" None.
Proof.
  intros (_ & H & _). vm_compute in H. discriminate H.
Qed.

Example empty_table_near_bottom :
  pageCount (fst (drawWideLeftTable gridLineHeight gridLineCount (reportDoc 795)
                    [] "Type" "Count" None)) = 2%nat.
Proof. vm_compute. reflexivity. Qed.

(** On the A4 report page the table is 555.28 wide and the column boundary
    lies at 20 + floor(416.46) = 436. *)
Example boundary_on_a4 : tableX + col1Width a4 == 436.
Proof. decide_numbers. Qed.

(** The six tax labels in a row of height 14: six texts, five separators and
    the bottom rule. *)
Example tax_labels_row :
  let ops := log (fst (generateInformationLineWithFixedHeight gridMeasure
                         gridLineHeight gridLineCount
                         (reportDoc 100) labelTexts 108 100
                         (Some "Title"%string) 14 None)) in
  List.length (filter isText ops) = 6%nat /\
  List.length (filter isLine ops) = 6%nat /\
  14 <= uniformCellHeight gridMeasure (reportDoc 100).
Proof. cbv zeta. repeat split; decide_numbers. Qed.

(** The tax table started at 790 on the A4 report page: none of its twelve
    cell texts fits above the bottom margin, and the surface starts a page
    for each. *)
Example tax_table_near_bottom :
  pageCount (fst (generateTaxInformationTable gridMeasure gridLineHeight
                    gridLineCount (reportDoc 790) 790)) = 12%nat.
Proof. vm_compute. reflexivity. Qed.

(** ** Examples for the further properties *)

Lemma ensureSpace_room_witness :
  y (ensureSpace (reportDoc 790) (Some 60)) + 60 <= pageBottom a4.
Proof.
  destruct (ensureSpace_room (reportDoc 790) 60 ltac:(decide_numbers))
    as (_ & _ & H).
  apply H. right. decide_numbers.
Defined.

Lemma ensureSpace_twice_witness :
  ensureSpace (ensureSpace (reportDoc 800) (Some 60)) (Some 700)
  = ensureSpace (reportDoc 800) (Some 60).
Proof.
  apply (proj1 (ensureSpace_twice (reportDoc 800) 60 700)).
  vm_compute. reflexivity.
Defined.

Lemma wideLeftTable_fits_witness :
  snd (drawWideLeftTable gridLineHeight gridLineCount (reportDoc 100) sampleRows
         "Type" "Count" None)
  == 100 + 20 + 18 * ofNat 3 + 4.
Proof.
  destruct (wideLeftTable_fits gridLineHeight gridLineCount (reportDoc 100)
              sampleRows "Type" "Count" None ltac:(decide_numbers)) as (H & _).
  exact H.
Defined.

Lemma wideLeftTable_rows_inside_witness :
  snd (drawWideLeftTable gridLineHeight gridLineCount (reportDoc 750) sampleRows
         "Type" "Count" None) + 6 <= pageBottom a4.
Proof.
  apply (proj2 (wideLeftTable_rows_inside gridLineHeight gridLineCount
                  (reportDoc 750) sampleRows
                  "Type" "Count" None ltac:(decide_numbers))).
  discriminate.
Defined.

Lemma wideLeftTable_row_font_witness :
  let s0 := tableStart gridLineHeight gridLineCount (reportDoc 750)
              "Type" "Count" None in
  font (ldoc (breakPageIfNeeded gridLineHeight gridLineCount a4 "Type" "Count"
                (stateBeforeRow gridLineHeight gridLineCount a4 "Type" "Count"
                   sampleRows s0 1)))
  = (if brokeUpTo gridLineHeight gridLineCount a4 "Type" "Count" sampleRows s0 1
     then "Lato-Bold" else "Lato")%string.
Proof.
  exact (proj1 (proj2 (wideLeftTable_row_font gridLineHeight gridLineCount
                         (reportDoc 750) sampleRows
                         "Type" "Count" None 1%nat (mkRow "Type B" "5") eq_refl))).
Defined.

Lemma addHeritageLogo_placement_witness :
  exists x0 y1,
    addHeritageLogo true (reportDoc 400) = Some (Image logoPath x0 y1 100) /\
    x0 == (width a4 - 100) / 2 + 30 /\
    y1 == (400 + 5 + maxHeight (reportDoc 400)) / 2 - 35 /\
    (400 + 5 <= y1 <-> 400 + 75 <= maxHeight (reportDoc 400)).
Proof.
  apply (proj2 (addHeritageLogo_placement true (reportDoc 400))).
  - decide_numbers.
  - reflexivity.
Defined.

Lemma informationLine_text_inside_witness :
  let d := mkDoc a4 100 "Title" 9 [BorderAndResetY] 0 [] in
  let w := insideWidth d / 6 in
  exists x0 textY rest,
    log (fst (generateInformationLine gridMeasure gridLineHeight gridLineCount
                d labelTexts 108 100 (Some "Title"%string))) = log d ++ rest /\
    nth_error (filter isText rest) 0
    = Some (Text "Title" 9 (nth 0 labelTexts ""%string) x0 textY
                 (w - 5) AlignCenter) /\
    108 - 1 <= textY /\
    textY + gridMeasure "Title" 9 (nth 0 labelTexts ""%string) (w - 5)
      <= 108 + computedRowHeight gridMeasure d labelTexts (w - 5) /\
    snd (generateInformationLine gridMeasure gridLineHeight gridLineCount
           d labelTexts 108 100 (Some "Title"%string))
    = (108 + computedRowHeight gridMeasure d labelTexts (w - 5) + 5 + 5,
       108 + computedRowHeight gridMeasure d labelTexts (w - 5) + 5).
Proof.
  exact (informationLine_text_inside gridMeasure gridLineHeight gridLineCount
           (mkDoc a4 100 "Title" 9 [BorderAndResetY] 0 []) labelTexts 108 100
           (Some "Title"%string) 0%nat (nth 0 labelTexts ""%string)
           eq_refl eq_refl eq_refl).
Defined.

Lemma fixedHeightRow_columns_witness :
  let d := reportDoc 100 in
  let w := insideWidth d / ofNat 6 in
  exists x0 textY rest,
    log (fst (generateInformationLineWithFixedHeight gridMeasure gridLineHeight
                gridLineCount d valueTexts 108 100 None 14 None))
    = log d ++ rest /\
    nth_error (filter isText rest) 2
    = Some (Text (fontOr None) 9 (nth 2 valueTexts ""%string)
                 x0 textY (w - 5) AlignCenter) /\
    x0 == leftMargin + w * ofNat 2 + 2.5 /\
    x0 + (w - 5) == leftMargin + w * ofNat 3 - 2.5.
Proof.
  destruct (fixedHeightRow_columns gridMeasure gridLineHeight gridLineCount
              (reportDoc 100) valueTexts
              108 100 None 14 None 2%nat (nth 2 valueTexts ""%string) eq_refl)
    as (x0 & textY & rest & H1 & H2 & _ & H3 & _).
  exists x0, textY, rest. cbv zeta.
  split; [exact H1 | split; [exact H2 | ]].
  apply H3. discriminate.
Defined.

(** A key-value table of five entries started at 690 on the A4 report page:
    the estimated height, 94, fits, but every count takes two lines, so the
    fifth entry finds the cursor at 800.52 and goes to a new page, which
    gets the border and the entry, and no header. *)
Lemma keyValueTable_header_once_witness :
  log (keyValueBefore gridLineHeight gridLineCount (reportDoc 690) wideCounts
         "Type" noOptions 5)
  = log (keyValueBefore gridLineHeight gridLineCount (reportDoc 690) wideCounts
           "Type" noOptions 4)
    ++ [ NewPage; Rect 20 20 555.28 781.89;
         Text "Lato" 10 "Health" 40 20 80 AlignLeft;
         Text "Lato" 10 "12345678" 138 20 38 AlignRight ].
Proof.
  destruct (keyValueTable_header_once gridLineHeight gridLineCount
              (reportDoc 690) wideCounts "Type" noOptions) as (_ & H).
  destruct (H 4%nat ("Health", "12345678")%string eq_refl) as (Hb & _).
  cbv zeta in Hb. rewrite Hb.
  - vm_compute. reflexivity.
  - decide_numbers.
  - decide_numbers.
Defined.

Example key_value_table_across_pages :
  let ops := log (printKeyValueTable gridLineHeight gridLineCount
                    (reportDoc 690) wideCounts "Type" noOptions) in
  firstn 2 ops = [ Text "Lato-Bold" 11 "Type" 40 690 80 AlignLeft;
                   Text "Lato-Bold" 11 "Count" 138 690 38 AlignRight ] /\
  skipn 10 ops = [ NewPage; Rect 20 20 555.28 781.89;
                   Text "Lato" 10 "Health" 40 20 80 AlignLeft;
                   Text "Lato" 10 "12345678" 138 20 38 AlignRight ].
Proof. vm_compute. split; reflexivity. Qed.

Lemma getPath_compose_witness :
  getPath sampleProtoMember (samplePolicy "Motor" 1000 "2025-08-02")
          ("createdAt" ++ "." ++ "$date")
  = getPath sampleProtoMember (JObj [("$date", JStr "2025-08-02")]%string) "$date".
Proof.
  apply (proj1 (getPath_compose sampleProtoMember
                  (samplePolicy "Motor" 1000 "2025-08-02")
                  "createdAt" "$date" (JObj [("$date", JStr "2025-08-02")]%string)
                  eq_refl)).
  reflexivity.
Defined.

Lemma getPath_field_witness :
  getPath sampleProtoMember (samplePolicy "Motor" 1000 "2025-08-02") "vat"
  = Some JUndefined /\
  forall rest,
    getPath sampleProtoMember (samplePolicy "Motor" 1000 "2025-08-02")
            ("vat" ++ "." ++ rest) = Some JUndefined.
Proof.
  apply (proj2 (getPath_field sampleProtoMember
                  [("_id", JObj [("$oid", JStr "64f0c0ffee")]);
                   ("insuranceLabel", JStr "Motor");
                   ("premium", JNum 1000);
                   ("createdAt", JObj [("$date", JStr "2025-08-02")])]%string
                  "vat" eq_refl)); reflexivity.
Defined.

Lemma countByField_counts_witness :
  countOf "Motor" [("Motor", 2); ("Fire", 1)]%string%nat
  = List.length (filter (countedAs sampleProtoMember "insuranceLabel" "Motor")
                        samplePolicies).
Proof.
  apply (proj1 (countByField_counts sampleProtoMember samplePolicies
                  "insuranceLabel" [("Motor", 2); ("Fire", 1)]%string%nat
                  eq_refl)).
Defined.

Lemma sumByField_sum_witness :
  1550.5 == sumQ (map (addend sampleProtoMember "premium") samplePolicies).
Proof.
  apply (proj1 (sumByField_sum sampleProtoMember "premium") samplePolicies).
  vm_compute. reflexivity.
Defined.

Lemma filterByDateRange_keeps_witness :
  (forall items, JArr samplePolicies <> JArr items) /\
    firstn 2 samplePolicies = [] \/
  exists items,
    JArr samplePolicies = JArr items /\
    firstn 2 samplePolicies
    = filter (fun r => match inDateRange sampleProtoMember sampleIsBetween
                               "createdAt.$date" r with
                       | Some true => true
                       | _ => false
                       end) items /\
    (List.length (firstn 2 samplePolicies) <= List.length items)%nat /\
    Forall (fun r => exists dateStr,
                getPath sampleProtoMember r "createdAt.$date" = Some dateStr /\
                truthy dateStr = true /\ sampleIsBetween dateStr = true)
           (firstn 2 samplePolicies) /\
    filterByDateRange sampleProtoMember sampleIsBetween
                      (JArr (firstn 2 samplePolicies)) None
    = Some (firstn 2 samplePolicies).
Proof.
  exact (filterByDateRange_keeps sampleProtoMember sampleIsBetween
           (JArr samplePolicies) None (firstn 2 samplePolicies) eq_refl).
Defined.

Lemma getValueByPath_wrapped_witness :
  getValueByPath sampleProtoMember sampleStringify sampleNumberToString
                 (samplePolicy "Motor" 1000 "2025-08-02") ("_id" ++ "." ++ "$oid")
  = Some (Value "64f0c0ffee").
Proof.
  refine (proj1 (getValueByPath_wrapped sampleProtoMember sampleStringify
                   sampleNumberToString
                   [("_id", JObj [("$oid", JStr "64f0c0ffee")]);
                    ("insuranceLabel", JStr "Motor");
                    ("premium", JNum 1000);
                    ("createdAt", JObj [("$date", JStr "2025-08-02")])]%string
                   [("$oid", JStr "64f0c0ffee")]%string "_id" "$oid"
                   (JStr "64f0c0ffee") _ eq_refl _ eq_refl _)).
  - repeat split; reflexivity.
  - discriminate.
  - split; [reflexivity | left; split; reflexivity].
Defined.

Lemma getValueByPath_edges_witness :
  getValueByPath sampleProtoMember sampleStringify sampleNumberToString
                 (JObj [("hasOwnProperty", JBool true)]%string) "premium"
  = Some TypeError.
Proof.
  apply (proj1 (proj2 (getValueByPath_edges sampleProtoMember sampleStringify
                         sampleNumberToString))); discriminate.
Defined.

Lemma worksheetData_shape_witness :
  let rows := [["Id"; "Type"; "Issued"];
               ["64f0c0ffee"; "Motor"; "2025-08-02"];
               ["64f0c0ffee"; "Fire"; "2025-08-15"];
               ["64f0c0ffee"; "Motor"; "2025-09-01"]]%string in
  List.length rows = S (List.length samplePolicies) /\
  hd [] rows = map mLabel sampleMapping /\
  Forall (fun row => List.length row = List.length sampleMapping) rows /\
  (samplePolicies = [] -> rows = [map mLabel sampleMapping]).
Proof.
  exact (worksheetData_shape sampleProtoMember sampleStringify
           sampleNumberToString samplePolicies sampleMapping _ eq_refl).
Defined.

Lemma dateFilter_then_count_witness :
  (sumCounts [("Motor", 1); ("Fire", 1)]%string%nat
   <= List.length (firstn 2 samplePolicies) <= List.length samplePolicies)%nat.
Proof.
  exact (proj1 (dateFilter_then_count sampleProtoMember sampleIsBetween
                  samplePolicies (firstn 2 samplePolicies) "insuranceLabel"
                  [("Motor", 1); ("Fire", 1)]%string%nat eq_refl eq_refl)).
Defined.
